(** * ProPhotoRenamer: the template-driven batch rename engine

    A shallow embedding of [src/lib/utils/rename.ts] (template parsing,
    token resolution, batch renaming with conflict resolution) and of the
    per-entry compression choice of [src/lib/utils/zip.ts], followed by the
    properties proved about them.

    Conventions of the embedding
    - A JavaScript string is a [string]: a sequence of code units, here the
      code units below 256 (Latin-1).  Character classes and case mapping
      are the ECMAScript ones restricted to that range.
    - A JavaScript [number] read from EXIF data is a binary64 [float]
      (the kernel's primitive floats).  Counters, paddings and indices,
      which the program only ever adds and prints, are integers ([Z]).
    - [null] and [undefined] are [None].
    - The [warnings] array that the resolver's helpers push to is threaded
      explicitly (the [Warn] monad below).
    - The [lastIndex] cell of the module-level [TOKEN_REGEX] is threaded
      explicitly through [parseTemplate]. *)

From Stdlib Require Import ZArith String Ascii List Bool Lia Arith FinFun Permutation.
From Stdlib Require Import DecimalString DecimalZ.
From Stdlib Require Import Floats.
From Equations Require Import Equations.
Import ListNotations.

(* A decimal literal such as 0.004 denotes the nearest binary64 value, as
   it does in JavaScript. *)
Set Warnings "-inexact-float".

Open Scope list_scope.
Open Scope string_scope.

(** ** JavaScript strings *)

Module JS.

(** [s.startsWith(p)], returning what follows the prefix. *)
Fixpoint stripPrefix (p s : string) : option string :=
  match p, s with
  | EmptyString, _ => Some s
  | String a p', String b s' => if Ascii.eqb a b then stripPrefix p' s' else None
  | String _ _, EmptyString => None
  end.

(** [s.includes(p)]. *)
Fixpoint includes (s p : string) : bool :=
  match stripPrefix p s with
  | Some _ => true
  | None => match s with
            | EmptyString => false
            | String _ s' => includes s' p
            end
  end.

(** [s.lastIndexOf(c)] for a one-character needle; [None] is [-1]. *)
Fixpoint lastIndexOf (c : ascii) (s : string) : option nat :=
  match s with
  | EmptyString => None
  | String a s' =>
      match lastIndexOf c s' with
      | Some i => Some (S i)
      | None => if Ascii.eqb a c then Some 0 else None
      end
  end.

(** [s.substring(from)] / [s.slice(from)] for [0 <= from]. *)
Fixpoint drop (n : nat) (s : string) : string :=
  match n, s with
  | 0, _ => s
  | S n', String _ s' => drop n' s'
  | S _, EmptyString => EmptyString
  end.

(** [s.substring(0, n)]. *)
Fixpoint take (n : nat) (s : string) : string :=
  match n, s with
  | S n', String c s' => String c (take n' s')
  | _, _ => EmptyString
  end.

(** [s.slice(-n)]: the last [n] code units (all of [s] when it is shorter). *)
Definition lastChars (n : nat) (s : string) : string :=
  drop (String.length s - n) s.

Fixpoint takeWhile (f : ascii -> bool) (s : string) : string :=
  match s with
  | EmptyString => EmptyString
  | String c s' => if f c then String c (takeWhile f s') else EmptyString
  end.

Fixpoint dropWhile (f : ascii -> bool) (s : string) : string :=
  match s with
  | EmptyString => EmptyString
  | String c s' => if f c then dropWhile f s' else s
  end.

Fixpoint filter (f : ascii -> bool) (s : string) : string :=
  match s with
  | EmptyString => EmptyString
  | String c s' => if f c then String c (filter f s') else filter f s'
  end.

Fixpoint forallb (f : ascii -> bool) (s : string) : bool :=
  match s with
  | EmptyString => true
  | String c s' => f c && forallb f s'
  end.

Fixpoint map (f : ascii -> ascii) (s : string) : string :=
  match s with
  | EmptyString => EmptyString
  | String c s' => String (f c) (map f s')
  end.

Fixpoint rev_append (s acc : string) : string :=
  match s with
  | EmptyString => acc
  | String c s' => rev_append s' (String c acc)
  end.

Definition rev (s : string) : string := rev_append s EmptyString.

(** Character classes, on code units below 256. *)

Definition code (c : ascii) : nat := nat_of_ascii c.

(** [\s]: TAB, LF, VT, FF, CR, SPACE and NO-BREAK SPACE. *)
Definition isWhiteSpace (c : ascii) : bool :=
  (((9 <=? code c) && (code c <=? 13)) || (code c =? 32) || (code c =? 160))%nat.

(** [\d]. *)
Definition isDigit (c : ascii) : bool :=
  ((48 <=? code c) && (code c <=? 57))%nat.

(** [\w]: letters, digits and the underscore. *)
Definition isWordChar (c : ascii) : bool :=
  (((65 <=? code c) && (code c <=? 90)) || ((97 <=? code c) && (code c <=? 122))
   || isDigit c || (code c =? 95))%nat.

(** [c.toLowerCase()]: A-Z, and the Latin-1 capitals U+00C0..U+00DE except
    the multiplication sign U+00D7, move up by 32. *)
Definition toLowerChar (c : ascii) : ascii :=
  let n := code c in
  if (((65 <=? n) && (n <=? 90))
      || ((192 <=? n) && (n <=? 222) && negb (n =? 215)))%nat
  then ascii_of_nat (n + 32) else c.

Definition toLowerCase (s : string) : string := map toLowerChar s.

(** [s.trim()]. *)
Definition trim (s : string) : string :=
  rev (dropWhile isWhiteSpace (rev (dropWhile isWhiteSpace s))).

(** [s.padStart(targetLength, fill)] for a one-character [fill]. *)
Fixpoint repeat (c : ascii) (n : nat) : string :=
  match n with
  | 0 => EmptyString
  | S n' => String c (repeat c n')
  end.

Definition padStart (s : string) (targetLength : nat) (fill : ascii) : string :=
  repeat fill (targetLength - String.length s) ++ s.

(** [parts.join(sep)]. *)
Fixpoint join (sep : string) (parts : list string) : string :=
  match parts with
  | [] => EmptyString
  | [p] => p
  | p :: rest => p ++ sep ++ join sep rest
  end.

(** [String(n)] for an integer [n]. *)
Definition ofZ (n : Z) : string := NilZero.string_of_int (Z.to_int n).

(** [parseInt(digits, 10)] on a non-empty string of decimal digits. *)
Definition parseDigits (digits : string) : nat :=
  let fix go (acc : nat) (s : string) : nat :=
    match s with
    | EmptyString => acc
    | String c s' => go (10 * acc + (code c - 48)) s'
    end in
  go 0 digits.

(** *** Regular expressions

    A regular expression is represented by its anchored matcher: applied to
    the rest of the subject string it says whether the expression matches
    at that very position, and then gives the matched text and the
    capture groups.  Searching, the global-replace loop and the
    global-match loop are those of ECMAScript ([RegExpBuiltinExec],
    [RegExp.prototype[@@replace]], [RegExp.prototype[@@match]]). *)

Definition RegExp : Type := string -> option (string * list string).

Record Match := {
  matched : string;          (* m[0] *)
  captures : list string;    (* m[1], m[2], ... *)
  index : nat                (* m.index *)
}.

(** [/p/] for a literal, non-empty [p] such as [\{make\}]. *)
Definition literal (p : string) : RegExp :=
  fun s =>
    match p with
    | EmptyString => None
    | String _ _ => match stripPrefix p s with
                    | Some _ => Some (p, [])
                    | None => None
                    end
    end.

(** The first match at or after the current position ([pos] is the index
    of [rest] in the subject). *)
Fixpoint search (re : RegExp) (pos : nat) (rest : string) : option Match :=
  match re rest with
  | Some (m, caps) => Some {| matched := m; captures := caps; index := pos |}
  | None => match rest with
            | EmptyString => None
            | String _ rest' => search re (S pos) rest'
            end
  end.

(** [GetSubstitution]: the [$]-patterns of a replacement string.  The
    expressions replaced with a string in this program have no capture
    group that a [$n] could name, so [$n] and [$<] stay as they are. *)
Fixpoint GetSubstitution (matched before after replacement : string) : string :=
  match replacement with
  | EmptyString => EmptyString
  | String c r =>
      if Ascii.eqb c "$" then
        match r with
        | EmptyString => String c EmptyString
        | String d r' =>
            if Ascii.eqb d "$" then String "$" (GetSubstitution matched before after r')
            else if Ascii.eqb d "&" then matched ++ GetSubstitution matched before after r'
            else if Ascii.eqb d "`" then before ++ GetSubstitution matched before after r'
            else if Ascii.eqb d "'" then after ++ GetSubstitution matched before after r'
            else String c (GetSubstitution matched before after r)
        end
      else String c (GetSubstitution matched before after r)
  end.

Lemma drop_length_le (n : nat) (s : string) :
  String.length (drop n s) <= String.length s.
Proof.
  revert s; induction n as [|n IH]; intros [|c s]; simpl; try lia.
  specialize (IH s). lia.
Qed.

Section GlobalLoops.

Variable re : RegExp.

(** [subject.replace(re, fn)] for a global [re]: every match, found left to
    right, is replaced by [fn matched captures before after]; the search
    resumes after the match (one code unit further after an empty match). *)
Equations? replaceFrom (fn : string -> list string -> string -> string -> string)
  (before rest : string) : string by wf (String.length rest) lt :=
  replaceFrom fn before rest with re rest := {
    | Some (m, caps) with rest := {
        | EmptyString => fn m caps before EmptyString
        | String c rest' with m := {
            | EmptyString =>
                fn m caps before rest ++
                String c (replaceFrom fn (before ++ String c EmptyString) rest')
            | String _ m' =>
                fn m caps before (drop (String.length m') rest') ++
                replaceFrom fn (before ++ m) (drop (String.length m') rest') } };
    | None with rest := {
        | EmptyString => EmptyString
        | String c rest' =>
            String c (replaceFrom fn (before ++ String c EmptyString) rest') } }.
Proof.
  all: pose proof (drop_length_le (String.length m') rest'); simpl; lia.
Qed.

(** [subject.match(re)] for a global [re]: all the matches, left to right. *)
Equations? matchFrom (pos : nat) (rest : string) : list Match
  by wf (String.length rest) lt :=
  matchFrom pos rest with re rest := {
    | Some (m, caps) with rest := {
        | EmptyString => [{| matched := m; captures := caps; index := pos |}]
        | String c rest' with m := {
            | EmptyString =>
                {| matched := m; captures := caps; index := pos |}
                :: matchFrom (S pos) rest'
            | String _ m' =>
                {| matched := m; captures := caps; index := pos |}
                :: matchFrom (pos + String.length m) (drop (String.length m') rest') } };
    | None with rest := {
        | EmptyString => []
        | String c rest' => matchFrom (S pos) rest' } }.
Proof.
  all: pose proof (drop_length_le (String.length m') rest'); simpl; lia.
Qed.

End GlobalLoops.

(** [subject.replace(re, replacement)] with a replacement string. *)
Definition replace (re : RegExp) (replacement subject : string) : string :=
  replaceFrom re (fun m _ before after => GetSubstitution m before after replacement)
    EmptyString subject.

(** [subject.replace(re, fn)] with a callback that reads the match and its
    capture groups. *)
Definition replaceWith (re : RegExp) (fn : string -> list string -> string)
  (subject : string) : string :=
  replaceFrom re (fun m caps _ _ => fn m caps) EmptyString subject.

(** [subject.match(re)]: [None] is [null] (no match at all). *)
Definition matchAll (re : RegExp) (subject : string) : option (list string) :=
  match matchFrom re 0 subject with
  | [] => None
  | ms => Some (List.map matched ms)
  end.

(** *** Numbers

    What the embedding takes from the JavaScript engine without modelling
    it.  [Number::toString] leaves the last digit of a non-integer to the
    implementation, and [parseFloat] is a decimal-to-binary conversion;
    neither is code of this repository. *)
Class Engine := {
  (* Number::toString on finite values that are not safe integers *)
  Number_toString_other : float -> string;
  (* the global parseFloat *)
  parseFloat : string -> float
}.

(** [ToBoolean] on a number: [NaN], [+0] and [-0] are falsy. *)
Definition truthyNumber (x : float) : bool :=
  negb (PrimFloat.is_nan x || PrimFloat.is_zero x).

(** [ToBoolean] on a string: the empty string is falsy. *)
Definition truthyString (s : string) : bool :=
  match s with
  | EmptyString => false
  | String _ _ => true
  end.

(** [value || fallback] and the truthiness tests of [a?.b], on a nullable
    number or string: [Some] of the value when it is present and truthy. *)
Definition truthyNum (v : option float) : option float :=
  match v with
  | Some x => if truthyNumber x then Some x else None
  | None => None
  end.

Definition truthyStr (v : option string) : option string :=
  match v with
  | Some s => if truthyString s then Some s else None
  | None => None
  end.

(** The integer that a finite float [m * 2^e] denotes, when it denotes one. *)
Definition integerOf (m : positive) (e : Z) : option Z :=
  if (0 <=? e)%Z then Some (Zpos m * 2 ^ e)%Z
  else if (Zpos m mod 2 ^ (- e) =? 0)%Z then Some (Zpos m / 2 ^ (- e))%Z
  else None.

(** The float of an integer of magnitude at most [2^53] (exactly
    representable). *)
Definition ofInteger (negative : bool) (n : Z) : float :=
  let x := PrimFloat.of_uint63 (Uint63.of_Z (Z.abs n)) in
  if negative then PrimFloat.opp x else x.

(** [String(x)] / template interpolation of a number.  A safe integer
    prints as its decimal digits. *)
Definition Number_toString `{Engine} (x : float) : string :=
  match Prim2SF x with
  | S754_nan => "NaN"
  | S754_zero _ => "0"
  | S754_infinity negative => if negative then "-Infinity" else "Infinity"
  | S754_finite negative m e =>
      match integerOf m e with
      | Some n =>
          if (n <=? 2 ^ 53)%Z
          then (if negative then "-" else "") ++ ofZ n
          else Number_toString_other x
      | None => Number_toString_other x
      end
  end.

(** [Math.round(x)]: the integer nearest to [x], ties towards [+Infinity];
    [NaN], the infinities, the zeros and the integers are returned as they
    are, and a negative [x] that rounds to zero gives [-0]. *)
Definition Math_round (x : float) : float :=
  match Prim2SF x with
  | S754_finite negative m e =>
      if (0 <=? e)%Z then x
      else
        let v := if negative then Zneg m else Zpos m in
        let n := ((2 * v + 2 ^ (- e)) / 2 ^ (1 - e))%Z in
        ofInteger negative n
  | _ => x
  end.

(** [x.toFixed(digits)] for a finite [x] below [1e21]: the integer [n]
    nearest to [x * 10^digits] (the larger one on a tie), printed with the
    decimal point [digits] places from the right; [None] outside that
    range, where [toFixed] falls back on [String(x)]. *)
Definition toFixedDigits (digits : nat) (x : float) : option string :=
  let scale := (10 ^ Z.of_nat digits)%Z in
  let render (negative : bool) (n : Z) : string :=
    let ds := padStart (ofZ n) (S digits) "0" in
    (if negative then "-" else "")
    ++ take (String.length ds - digits) ds
    ++ (match digits with 0 => "" | S _ => "." ++ lastChars digits ds end) in
  match Prim2SF x with
  | S754_zero _ => Some (render false 0%Z)
  | S754_finite negative m e =>
      let n := if (0 <=? e)%Z then (Zpos m * 2 ^ e * scale)%Z
               else ((2 * Zpos m * scale + 2 ^ (- e)) / 2 ^ (1 - e))%Z in
      if (n <? 10 ^ 21 * scale)%Z then Some (render negative n) else None
  | _ => None
  end.

Definition Number_toFixed `{Engine} (x : float) (digits : nat) : string :=
  match toFixedDigits digits x with
  | Some s => s
  | None => Number_toString x
  end.

(** The number that an integer converts to: the nearest binary64 value
    (ties to even).  Integers of magnitude up to [2^53] convert exactly. *)
Definition ofZNumber (n : Z) : float :=
  SF2Prim (binary_normalize prec emax n 0 false).

(** [ToLength(x)], as [padStart] applies it to its first argument: [NaN]
    and everything below 1 give 0, a fraction is dropped, and the result
    is at most [2^53 - 1]. *)
Definition ToLength (x : float) : nat :=
  match Prim2SF x with
  | S754_finite false m e =>
      Z.to_nat (Z.min (if (0 <=? e)%Z then Zpos m * 2 ^ e else Zpos m / 2 ^ (- e))
                  (2 ^ 53 - 1))
  | S754_infinity false => Z.to_nat (2 ^ 53 - 1)
  | _ => 0
  end.

End JS.

(** ** Data model ([src/lib/types/template.d.ts]) *)

(** A [Date], seen through the getters the program calls (local time, and
    [getTime] in milliseconds since the epoch). *)
Record Date := {
  getFullYear : Z;
  getMonth : Z;
  getDate : Z;
  getHours : Z;
  getMinutes : Z;
  getSeconds : Z;
  getTime : Z
}.

Record GPSData := {
  lat : float;
  lng : float;
  altitude : option float
}.

(** [exposureTime: number | string | null]. *)
Inductive ExposureTime :=
| ExposureNumber (x : float)
| ExposureString (s : string).

(** The fields of [ExifData] that the rename engine reads.  [orientation]
    is declared [number]; it is read through a truthiness test like the
    others, so a missing value is covered as [None]. *)
Record ExifData := {
  make : option string;
  model : option string;
  lensModel : option string;
  dateTaken : option Date;
  exposureTime : option ExposureTime;
  fNumber : option float;
  iso : option float;
  focalLength : option float;
  width : option float;
  height : option float;
  orientation : option float;
  gps : option GPSData
}.

(** The fields of [RenameOptions] that the rename engine reads. *)
Record RenameOptions := {
  counter : option float;
  counterPadding : option float;
  startCounter : option float;
  customText : option string;
  fallbackDate : option Date;
  preserveExtension : option bool
}.

Record RenameResult := {
  filename : string;
  success : bool;
  warnings : option (list string)
}.

Record TemplateToken := {
  token : string;
  fullToken : string;
  position : nat;
  isValid : bool
}.

(** A browser [File]: an object carrying a name and a last-modified time
    stamp.  [fileRef] stands for the identity of the object: two [File]
    values are the same object exactly when they are equal. *)
Record File := {
  fileRef : nat;
  fileName : string;
  lastModified : Z
}.

(** [Set<string>]: the elements in insertion order. *)
Definition StringSet := list string.

Definition Set_has (s : StringSet) (x : string) : bool :=
  existsb (String.eqb x) s.

Definition Set_add (s : StringSet) (x : string) : StringSet :=
  if Set_has s x then s else (s ++ [x])%list.

(** [Map<File, V>]: the entries in insertion order, keyed by object
    identity.  [set] on a present key replaces the value in place. *)
Definition FileMap (V : Type) := list (File * V).

Definition sameFile (a b : File) : bool :=
  Nat.eqb (fileRef a) (fileRef b)
  && String.eqb (fileName a) (fileName b)
  && Z.eqb (lastModified a) (lastModified b).

Fixpoint Map_get {V : Type} (m : FileMap V) (key : File) : option V :=
  match m with
  | [] => None
  | (k, v) :: m' => if sameFile k key then Some v else Map_get m' key
  end.

Fixpoint Map_set {V : Type} (m : FileMap V) (key : File) (value : V) : FileMap V :=
  match m with
  | [] => [(key, value)]
  | (k, v) :: m' =>
      if sameFile k key then (k, value) :: m' else (k, v) :: Map_set m' key value
  end.

(** [Map<string, V>.get]: [None] is [undefined]. *)
Fixpoint StringMap_get {V : Type} (m : list (string * V)) (key : string) : option V :=
  match m with
  | [] => None
  | (k, v) :: m' => if String.eqb k key then Some v else StringMap_get m' key
  end.

(** The [warnings] array of one [generateFilename] call: a computation
    that may push warnings takes the array and returns it with its result. *)
Definition Warn (A : Type) : Type := list string -> A * list string.

Definition ret {A : Type} (a : A) : Warn A := fun w => (a, w).

Definition bind {A B : Type} (c : Warn A) (k : A -> Warn B) : Warn B :=
  fun w => let (a, w') := c w in k a w'.

Definition push (warning : string) : Warn unit :=
  fun w => (tt, (w ++ [warning])%list).

Notation "x <- c ;; k" := (bind c (fun x => k))
  (at level 61, c at next level, right associativity).
Notation "c ;; k" := (bind c (fun _ => k))
  (at level 61, right associativity).

(** ** The rename engine ([src/lib/utils/rename.ts]) *)

(** The keys of the [TEMPLATE_TOKENS] catalogue, in source order. *)
Definition TEMPLATE_TOKENS : list string :=
  [ "{YYYY}"; "{YY}"; "{MM}"; "{DD}"; "{HH}"; "{mm}"; "{ss}";
    "{date}"; "{datetime}"; "{timestamp}";
    "{make}"; "{model}"; "{lens}";
    "{iso}"; "{aperture}"; "{shutter}"; "{focal}";
    "{width}"; "{height}"; "{dimensions}"; "{orientation}";
    "{lat}"; "{lng}"; "{gps}";
    "{counter}"; "{counter:5}";
    "{original}"; "{ext}";
    "{custom}" ].

(** [TEMPLATE_TOKENS.hasOwnProperty(key)]. *)
Definition TEMPLATE_TOKENS_has (key : string) : bool :=
  existsb (String.eqb key) TEMPLATE_TOKENS.

Definition notCloseBrace (c : ascii) : bool := negb (Ascii.eqb c "}").

(** [TOKEN_REGEX = /\{([^}]+)\}/g]: an opening brace, the longest non-empty
    run of characters other than [}], and a closing brace. *)
Definition TOKEN_REGEX : JS.RegExp :=
  fun s =>
    match s with
    | String c r =>
        if Ascii.eqb c "{" then
          let name := JS.takeWhile notCloseBrace r in
          match name, JS.dropWhile notCloseBrace r with
          | String _ _, String _ _ => Some ("{" ++ name ++ "}", [name])
          | _, _ => None
          end
        else None
    | EmptyString => None
    end.

(** [/^counter:\d+$/.test(token)]. *)
Definition isCounterWithPadding (token : string) : bool :=
  match JS.stripPrefix "counter:" token with
  | Some digits => JS.truthyString digits && JS.forallb JS.isDigit digits
  | None => false
  end.

Definition isValidToken (token : string) : bool :=
  if TEMPLATE_TOKENS_has ("{" ++ token ++ "}") then true
  else if isCounterWithPadding token then true
  else false.

(** [TOKEN_REGEX.exec(subject)] on the shared, global expression: it reads
    and writes the expression's [lastIndex]. *)
Definition TOKEN_REGEX_exec (subject : string) (lastIndex : nat) : option JS.Match * nat :=
  if (String.length subject <? lastIndex)%nat then (None, 0)
  else match JS.search TOKEN_REGEX lastIndex (JS.drop lastIndex subject) with
       | Some m => (Some m, JS.index m + String.length (JS.matched m))
       | None => (None, 0)
       end.

(** Facts about searching with [TOKEN_REGEX], needed to see that the loop
    of [parseTemplate] terminates: a match is never empty and ends inside
    the subject. *)

Lemma takeWhile_dropWhile (f : ascii -> bool) (s : string) :
  JS.takeWhile f s ++ JS.dropWhile f s = s.
Proof.
  induction s as [|c s IH]; simpl; [reflexivity|].
  destruct (f c); simpl; [now rewrite IH | reflexivity].
Qed.

Lemma dropWhile_head (f : ascii -> bool) (s : string) (c : ascii) (r : string) :
  JS.dropWhile f s = String c r -> f c = false.
Proof.
  induction s as [|a s IH]; simpl; [discriminate|].
  destruct (f a) eqn:E; [exact IH|]. intros [= <- _]. exact E.
Qed.

Lemma length_drop (n : nat) (s : string) :
  String.length (JS.drop n s) = String.length s - n.
Proof.
  revert s; induction n as [|n IH]; intros [|c s]; simpl; auto.
Qed.

Lemma drop_drop (n k : nat) (s : string) :
  JS.drop k (JS.drop n s) = JS.drop (n + k) s.
Proof.
  revert s; induction n as [|n IH]; intros s; simpl; [reflexivity|].
  destruct s as [|c s]; [now destruct k | apply IH].
Qed.

Lemma append_assoc (a b c : string) : (a ++ b) ++ c = a ++ (b ++ c).
Proof. induction a as [|x a IH]; simpl; [reflexivity | now rewrite IH]. Qed.

Lemma append_nil_r (a : string) : a ++ "" = a.
Proof. induction a as [|x a IH]; simpl; [reflexivity | now rewrite IH]. Qed.

Lemma length_append (a b : string) :
  String.length (a ++ b) = String.length a + String.length b.
Proof. induction a as [|c a IH]; simpl; [reflexivity | now rewrite IH]. Qed.

Lemma TOKEN_REGEX_prefix (s m : string) (caps : list string) :
  TOKEN_REGEX s = Some (m, caps) ->
  exists name after,
    m = "{" ++ name ++ "}" /\ caps = [name] /\ name <> "" /\ s = m ++ after
    /\ JS.forallb notCloseBrace name = true.
Proof.
  unfold TOKEN_REGEX. destruct s as [|c r]; [discriminate|].
  destruct (Ascii.eqb c "{") eqn:Ec; [|discriminate].
  apply Ascii.eqb_eq in Ec. subst c.
  pose proof (takeWhile_dropWhile notCloseBrace r) as Hsplit.
  assert (Hall : JS.forallb notCloseBrace (JS.takeWhile notCloseBrace r) = true).
  { clear. induction r as [|c r IH]; simpl; [reflexivity|].
    destruct (notCloseBrace c) eqn:E; simpl; [now rewrite E | reflexivity]. }
  destruct (JS.takeWhile notCloseBrace r) as [|n name] eqn:Et; [discriminate|].
  destruct (JS.dropWhile notCloseBrace r) as [|d after] eqn:Ed; [discriminate|].
  intros [= <- <-].
  apply dropWhile_head in Ed. unfold notCloseBrace in Ed.
  apply negb_false_iff, Ascii.eqb_eq in Ed. subst d.
  exists (String n name), after. repeat split; try discriminate; auto.
  simpl. rewrite <- Hsplit. simpl. f_equal. f_equal.
  now rewrite append_assoc.
Qed.

Lemma search_found (re : JS.RegExp) (pos : nat) (rest : string) (m : JS.Match) :
  JS.search re pos rest = Some m ->
  exists k, JS.index m = pos + k /\ k <= String.length rest
            /\ re (JS.drop k rest) = Some (JS.matched m, JS.captures m).
Proof.
  revert pos; induction rest as [|c rest IH]; intros pos; simpl.
  - destruct (re "") as [[mt caps]|] eqn:E; [|discriminate].
    intros [= <-]. exists 0. simpl. repeat split; auto.
  - destruct (re (String c rest)) as [[mt caps]|] eqn:E.
    + intros [= <-]. exists 0. simpl. repeat split; auto. lia.
    + intros H. destruct (IH _ H) as (k & Hi & Hk & Hre).
      exists (S k). simpl. repeat split; auto; lia.
Qed.

Lemma TOKEN_REGEX_exec_advances (subject : string) (lastIndex lastIndex' : nat) (m : JS.Match) :
  TOKEN_REGEX_exec subject lastIndex = (Some m, lastIndex') ->
  lastIndex < lastIndex' <= String.length subject.
Proof.
  unfold TOKEN_REGEX_exec.
  destruct (String.length subject <? lastIndex)%nat eqn:Hlen; [discriminate|].
  apply Nat.ltb_ge in Hlen.
  destruct (JS.search TOKEN_REGEX lastIndex (JS.drop lastIndex subject)) as [m'|] eqn:Hs;
    [|discriminate].
  intros [= -> <-].
  destruct (search_found _ _ _ _ Hs) as (k & Hi & Hk & Hre).
  destruct (TOKEN_REGEX_prefix _ _ _ Hre) as (name & after & Hm & _ & _ & Hsplit & _).
  rewrite drop_drop in Hsplit.
  apply (f_equal String.length) in Hsplit.
  rewrite length_drop, length_append in Hsplit.
  rewrite length_drop in Hk.
  assert (0 < String.length (JS.matched m)) by (rewrite Hm; simpl; lia).
  lia.
Qed.

Definition inspect {A : Type} (a : A) : {b : A | a = b} := exist _ a eq_refl.

(** The [while ((match = TOKEN_REGEX.exec(template)) !== null)] loop. *)
Equations? parseTemplate_loop (template : string) (lastIndex : nat)
  (tokens : list TemplateToken) : list TemplateToken * nat
  by wf (String.length template - lastIndex) lt :=
  parseTemplate_loop template lastIndex tokens
    with inspect (TOKEN_REGEX_exec template lastIndex) := {
    | exist _ (Some m, lastIndex') _ =>
        let token := nth 0 (JS.captures m) "" in
        let fullToken := JS.matched m in
        parseTemplate_loop template lastIndex'
          (tokens ++ [ {| token := token;
                          fullToken := fullToken;
                          position := JS.index m;
                          isValid := isValidToken token |} ])%list
    | exist _ (None, lastIndex') _ => (tokens, lastIndex') }.
Proof.
  apply TOKEN_REGEX_exec_advances in e. lia.
Qed.

(** [parseTemplate(template)], run with [TOKEN_REGEX.lastIndex] equal to
    [lastIndex] on entry; it returns the tokens and the [lastIndex] it
    leaves behind. *)
Definition parseTemplate (template : string) (lastIndex : nat) : list TemplateToken * nat :=
  let tokens := [] in
  (* Reset regex state *)
  let lastIndex := 0 in
  parseTemplate_loop template lastIndex tokens.

(** [parseFilename]: split at the last dot, unless there is none or it is
    the first character. *)
Definition parseFilename (filename : string) : string * string :=
  match JS.lastIndexOf "." filename with
  | None => (filename, "")
  | Some 0 => (filename, "")
  | Some lastDotIndex =>
      (JS.take lastDotIndex filename, JS.drop (lastDotIndex + 1) filename)
  end.

(** Character-class expressions used by the sanitizers. *)

(** [/[class]/]: one character of the class. *)
Definition oneOf (class : ascii -> bool) : JS.RegExp :=
  fun s =>
    match s with
    | String c _ => if class c then Some (String c "", []) else None
    | EmptyString => None
    end.

(** [/[class]{n,}/] for [1 <= n]: the longest run of the class, when it has
    at least [n] characters. *)
Definition runOf (n : nat) (class : ascii -> bool) : JS.RegExp :=
  fun s =>
    let run := JS.takeWhile class s in
    if (n <=? String.length run)%nat then Some (run, []) else None.

(** The class of characters illegal in file names: less-than,
    greater-than, colon, double quote (code 34), slash, backslash, bar,
    question mark and star. *)
Definition isIllegalChar (c : ascii) : bool :=
  existsb (Ascii.eqb c)
    ["<"; ">"; ":"; ascii_of_nat 34; "/"; "\"; "|"; "?"; "*"]%char.

Definition isUnderscore (c : ascii) : bool := Ascii.eqb c "_".

(** The class [[^\w\s-]]. *)
Definition isTokenJunk (c : ascii) : bool :=
  negb (JS.isWordChar c || JS.isWhiteSpace c || Ascii.eqb c "-").

Definition sanitizeToken (value : string) : string :=
  JS.trim
    (JS.replace (runOf 1 JS.isWhiteSpace) "_"
       (JS.replace (oneOf isTokenJunk) "" value)).

(** [sanitizeForFilename] on a string ([null] gives the empty string). *)
Definition sanitizeForFilename (value : option string) : string :=
  match value with
  | None => ""
  | Some value =>
      JS.replace (runOf 2 isUnderscore) "_"
        (JS.replace (runOf 1 JS.isWhiteSpace) "_"
           (JS.replace (oneOf isIllegalChar) "" value))
  end.

(** [String(n).padStart(2, '0')]. *)
Definition pad2 (n : Z) : string := JS.padStart (JS.ofZ n) 2 "0".

Definition replaceDateTokens (template : string) (date : Date) : string :=
  let year := getFullYear date in
  let month := pad2 (getMonth date + 1) in
  let day := pad2 (getDate date) in
  let hours := pad2 (getHours date) in
  let minutes := pad2 (getMinutes date) in
  let seconds := pad2 (getSeconds date) in
  let r := template in
  let r := JS.replace (JS.literal "{YYYY}") (JS.ofZ year) r in
  let r := JS.replace (JS.literal "{YY}") (JS.lastChars 2 (JS.ofZ year)) r in
  let r := JS.replace (JS.literal "{MM}") month r in
  let r := JS.replace (JS.literal "{DD}") day r in
  let r := JS.replace (JS.literal "{HH}") hours r in
  let r := JS.replace (JS.literal "{mm}") minutes r in
  let r := JS.replace (JS.literal "{ss}") seconds r in
  let r := JS.replace (JS.literal "{date}") (JS.ofZ year ++ month ++ day) r in
  let r := JS.replace (JS.literal "{datetime}")
             (JS.ofZ year ++ month ++ day ++ "_" ++ hours ++ minutes ++ seconds) r in
  JS.replace (JS.literal "{timestamp}") (JS.ofZ (getTime date / 1000)) r.

Section Resolver.

Context {engine : JS.Engine}.

(** [formatShutterSpeed(speed)]. *)
Definition formatShutterSpeed (speed : option ExposureTime) : string :=
  match speed with
  | None => ""
  | Some speed =>
      let falsy := match speed with
                   | ExposureNumber x => negb (JS.truthyNumber x)
                   | ExposureString s => negb (JS.truthyString s)
                   end in
      if falsy then ""
      else
        let numSpeed := match speed with
                        | ExposureNumber x => x
                        | ExposureString s => JS.parseFloat s
                        end in
        if PrimFloat.is_nan numSpeed || (numSpeed <=? 0)%float then ""
        else if (1 <=? numSpeed)%float then JS.Number_toString numSpeed ++ "s"
        else
          let denominator := JS.Math_round (1 / numSpeed)%float in
          "1/" ++ JS.Number_toString denominator ++ "s"
  end.

(** The truthiness test [exifData?.exposureTime]. *)
Definition truthyExposure (v : option ExposureTime) : option ExposureTime :=
  match v with
  | Some (ExposureNumber x) => if JS.truthyNumber x then v else None
  | Some (ExposureString s) => if JS.truthyString s then v else None
  | None => None
  end.

(** [exifData?.field]: the field of a record that may be absent. *)
Definition field {A : Type} (exifData : option ExifData) (f : ExifData -> option A) : option A :=
  match exifData with
  | Some e => f e
  | None => None
  end.

(** The blocks of [replaceCameraTokens], one per token, in source order. *)

Definition replaceMake (result : string) (exifData : option ExifData) : Warn string :=
  if JS.includes result "{make}" then
    match JS.truthyStr (field exifData make) with
    | Some make =>
        ret (JS.replace (JS.literal "{make}") (sanitizeToken make) result)
    | None =>
        push "Camera make not available in EXIF data" ;;
        ret (JS.replace (JS.literal "{make}") "" result)
    end
  else ret result.

Definition replaceModel (result : string) (exifData : option ExifData) : Warn string :=
  if JS.includes result "{model}" then
    match JS.truthyStr (field exifData model) with
    | Some model =>
        ret (JS.replace (JS.literal "{model}") (sanitizeToken model) result)
    | None =>
        push "Camera model not available in EXIF data" ;;
        ret (JS.replace (JS.literal "{model}") "" result)
    end
  else ret result.

Definition replaceLens (result : string) (exifData : option ExifData) : Warn string :=
  if JS.includes result "{lens}" then
    match JS.truthyStr (field exifData lensModel) with
    | Some lensModel =>
        ret (JS.replace (JS.literal "{lens}") (sanitizeToken lensModel) result)
    | None =>
        push "Lens model not available in EXIF data" ;;
        ret (JS.replace (JS.literal "{lens}") "" result)
    end
  else ret result.

Definition replaceIso (result : string) (exifData : option ExifData) : Warn string :=
  if JS.includes result "{iso}" then
    match JS.truthyNum (field exifData iso) with
    | Some iso =>
        ret (JS.replace (JS.literal "{iso}") ("ISO" ++ JS.Number_toString iso) result)
    | None =>
        push "ISO not available in EXIF data" ;;
        ret (JS.replace (JS.literal "{iso}") "" result)
    end
  else ret result.

Definition replaceAperture (result : string) (exifData : option ExifData) : Warn string :=
  if JS.includes result "{aperture}" then
    match JS.truthyNum (field exifData fNumber) with
    | Some fNumber =>
        ret (JS.replace (JS.literal "{aperture}") ("f" ++ JS.Number_toString fNumber) result)
    | None =>
        push "Aperture not available in EXIF data" ;;
        ret (JS.replace (JS.literal "{aperture}") "" result)
    end
  else ret result.

Definition replaceShutter (result : string) (exifData : option ExifData) : Warn string :=
  if JS.includes result "{shutter}" then
    match truthyExposure (field exifData exposureTime) with
    | Some exposure =>
        let shutterDisplay :=
          formatShutterSpeed
            (Some (ExposureNumber
                     match exposure with
                     | ExposureNumber x => x
                     | ExposureString s =>
                         let parsed := JS.parseFloat s in
                         if JS.truthyNumber parsed then parsed else 0%float
                     end)) in
        ret (JS.replace (JS.literal "{shutter}") shutterDisplay result)
    | None =>
        push "Shutter speed not available in EXIF data" ;;
        ret (JS.replace (JS.literal "{shutter}") "" result)
    end
  else ret result.

Definition replaceFocal (result : string) (exifData : option ExifData) : Warn string :=
  if JS.includes result "{focal}" then
    match JS.truthyNum (field exifData focalLength) with
    | Some focalLength =>
        ret (JS.replace (JS.literal "{focal}") (JS.Number_toString focalLength ++ "mm") result)
    | None =>
        push "Focal length not available in EXIF data" ;;
        ret (JS.replace (JS.literal "{focal}") "" result)
    end
  else ret result.

Definition replaceCameraTokens (template : string) (exifData : option ExifData) : Warn string :=
  let result := template in
  result <- replaceMake result exifData ;;
  result <- replaceModel result exifData ;;
  result <- replaceLens result exifData ;;
  result <- replaceIso result exifData ;;
  result <- replaceAperture result exifData ;;
  result <- replaceShutter result exifData ;;
  result <- replaceFocal result exifData ;;
  ret result.

(** The blocks of [replaceImageTokens]. *)

Definition replaceWidth (result : string) (exifData : option ExifData) : Warn string :=
  if JS.includes result "{width}" then
    match JS.truthyNum (field exifData width) with
    | Some width =>
        ret (JS.replace (JS.literal "{width}") (JS.Number_toString width) result)
    | None =>
        push "Image width not available" ;;
        ret (JS.replace (JS.literal "{width}") "" result)
    end
  else ret result.

Definition replaceHeight (result : string) (exifData : option ExifData) : Warn string :=
  if JS.includes result "{height}" then
    match JS.truthyNum (field exifData height) with
    | Some height =>
        ret (JS.replace (JS.literal "{height}") (JS.Number_toString height) result)
    | None =>
        push "Image height not available" ;;
        ret (JS.replace (JS.literal "{height}") "" result)
    end
  else ret result.

Definition replaceDimensions (result : string) (exifData : option ExifData) : Warn string :=
  if JS.includes result "{dimensions}" then
    match JS.truthyNum (field exifData width), JS.truthyNum (field exifData height) with
    | Some width, Some height =>
        ret (JS.replace (JS.literal "{dimensions}")
               (JS.Number_toString width ++ "x" ++ JS.Number_toString height) result)
    | _, _ =>
        push "Image dimensions not available" ;;
        ret (JS.replace (JS.literal "{dimensions}") "" result)
    end
  else ret result.

Definition replaceOrientation (result : string) (exifData : option ExifData) : Warn string :=
  if JS.includes result "{orientation}" then
    match JS.truthyNum (field exifData orientation) with
    | Some orientation =>
        ret (JS.replace (JS.literal "{orientation}") (JS.Number_toString orientation) result)
    | None =>
        ret (JS.replace (JS.literal "{orientation}") "1" result)
    end
  else ret result.

Definition replaceImageTokens (template : string) (exifData : option ExifData) : Warn string :=
  let result := template in
  result <- replaceWidth result exifData ;;
  result <- replaceHeight result exifData ;;
  result <- replaceDimensions result exifData ;;
  result <- replaceOrientation result exifData ;;
  ret result.

(** [exifData?.gps?.lat] and [exifData?.gps?.lng], tested for truthiness. *)
Definition gpsLat (exifData : option ExifData) : option float :=
  JS.truthyNum (option_map lat (field exifData gps)).

Definition gpsLng (exifData : option ExifData) : option float :=
  JS.truthyNum (option_map lng (field exifData gps)).

(** The blocks of [replaceGPSTokens]. *)

Definition replaceLat (result : string) (exifData : option ExifData) : Warn string :=
  if JS.includes result "{lat}" then
    match gpsLat exifData with
    | Some lat =>
        ret (JS.replace (JS.literal "{lat}") (JS.Number_toFixed lat 6) result)
    | None =>
        push "GPS latitude not available" ;;
        ret (JS.replace (JS.literal "{lat}") "" result)
    end
  else ret result.

Definition replaceLng (result : string) (exifData : option ExifData) : Warn string :=
  if JS.includes result "{lng}" then
    match gpsLng exifData with
    | Some lng =>
        ret (JS.replace (JS.literal "{lng}") (JS.Number_toFixed lng 6) result)
    | None =>
        push "GPS longitude not available" ;;
        ret (JS.replace (JS.literal "{lng}") "" result)
    end
  else ret result.

Definition replaceGps (result : string) (exifData : option ExifData) : Warn string :=
  if JS.includes result "{gps}" then
    match gpsLat exifData, gpsLng exifData with
    | Some lat, Some lng =>
        ret (JS.replace (JS.literal "{gps}")
               (JS.Number_toFixed lat 6 ++ "_" ++ JS.Number_toFixed lng 6) result)
    | _, _ =>
        push "GPS coordinates not available" ;;
        ret (JS.replace (JS.literal "{gps}") "" result)
    end
  else ret result.

Definition replaceGPSTokens (template : string) (exifData : option ExifData) : Warn string :=
  let result := template in
  result <- replaceLat result exifData ;;
  result <- replaceLng result exifData ;;
  result <- replaceGps result exifData ;;
  ret result.

(** [/\{counter:(\d+)\}/g]. *)
Definition COUNTER_PADDING_REGEX : JS.RegExp :=
  fun s =>
    match JS.stripPrefix "{counter:" s with
    | Some r =>
        let digits := JS.takeWhile JS.isDigit r in
        match digits, JS.dropWhile JS.isDigit r with
        | String _ _, String c _ =>
            if Ascii.eqb c "}" then Some ("{counter:" ++ digits ++ "}", [digits]) else None
        | _, _ => None
        end
    | None => None
    end.

Definition replaceCounterTokens (template : string) (counter : float)
  (defaultPadding : float) : string :=
  let result := template in
  (* Handle custom padding (e.g., {counter:5}) *)
  let result :=
    JS.replaceWith COUNTER_PADDING_REGEX
      (fun _ groups =>
         let padding := nth 0 groups "" in
         JS.padStart (JS.Number_toString counter) (JS.parseDigits padding) "0")
      result in
  (* Handle default counter *)
  JS.replace (JS.literal "{counter}")
    (JS.padStart (JS.Number_toString counter) (JS.ToLength defaultPadding) "0") result.

(** Lines 111-130 of [generateFilename]: the substitutions, in source
    order, on the working copy [filename] of the template. *)
Definition substituteTokens (template : string) (exifData : option ExifData)
  (date : Date) (counter counterPadding : float)
  (customText originalName originalExt : string)
  : Warn string :=
  let filename := template in
  let filename := replaceDateTokens filename date in
  filename <- replaceCameraTokens filename exifData ;;
  filename <- replaceImageTokens filename exifData ;;
  filename <- replaceGPSTokens filename exifData ;;
  let filename := replaceCounterTokens filename counter counterPadding in
  let filename := JS.replace (JS.literal "{original}") originalName filename in
  let filename := JS.replace (JS.literal "{ext}") originalExt filename in
  let filename := JS.replace (JS.literal "{custom}") customText filename in
  match JS.matchAll TOKEN_REGEX filename with
  | Some unresolvedTokens =>
      push ("Unresolved tokens: " ++ JS.join ", " unresolvedTokens) ;;
      ret (JS.replace TOKEN_REGEX "" filename)
  | None => ret filename
  end.

(** [generateFilename(template, exifData, originalFilename, options)];
    [now] is what [new Date()] returns when the default of [fallbackDate]
    is evaluated. *)
Definition generateFilename (now : Date) (template : string) (exifData : option ExifData)
  (originalFilename : string) (options : RenameOptions) : RenameResult :=
  let counter := match counter options with Some c => c | None => 1%float end in
  let counterPadding := match counterPadding options with Some p => p | None => 3%float end in
  let customText := match customText options with Some t => t | None => "" end in
  let fallbackDate := match fallbackDate options with Some d => d | None => now end in
  let preserveExtension := match preserveExtension options with Some b => b | None => true end in
  let '(originalName, originalExt) := parseFilename originalFilename in
  let date := match field exifData dateTaken with Some d => d | None => fallbackDate end in
  let '(filename, warnings) :=
    substituteTokens template exifData date counter counterPadding customText
      originalName originalExt [] in
  let filename := sanitizeForFilename (Some filename) in
  let filename :=
    if preserveExtension && JS.truthyString originalExt
    then filename ++ "." ++ originalExt
    else filename in
  {| filename := filename;
     success := true;
     warnings := match warnings with [] => None | _ :: _ => Some warnings end |}.

(** The [do ... while (usedFilenames.has(newFilename))] loop of
    [resolveFilenameConflict]; [None] when [fuel] iterations did not reach
    an unused name. *)
Fixpoint resolveFilenameConflict_loop (fuel : nat) (name ext : string)
  (usedFilenames : StringSet) (counter : Z) : option string :=
  match fuel with
  | 0 => None
  | S fuel' =>
      let suffix := "_" ++ JS.ofZ counter in
      let newFilename :=
        if JS.truthyString ext then name ++ suffix ++ "." ++ ext else name ++ suffix in
      let counter := (counter + 1)%Z in
      if Set_has usedFilenames newFilename
      then resolveFilenameConflict_loop fuel' name ext usedFilenames counter
      else Some newFilename
  end.

(** [resolveFilenameConflict(result, usedFilenames)].  One more iteration
    than there are used names always suffices
    ([resolveFilenameConflict_total] below). *)
Definition resolveFilenameConflict (result : RenameResult) (usedFilenames : StringSet)
  : option RenameResult :=
  let '(name, ext) := parseFilename (filename result) in
  let counter := 1%Z in
  match resolveFilenameConflict_loop (S (List.length usedFilenames)) name ext
          usedFilenames counter with
  | Some newFilename =>
      Some {| filename := newFilename;
              success := success result;
              warnings :=
                Some ((match warnings result with Some w => w | None => [] end)
                      ++ ["Filename conflict resolved with numeric suffix"])%list |}
  | None => None
  end.

(** The state of the [forEach] loop of [batchRename]. *)
Record BatchState := {
  results : FileMap RenameResult;
  usedFilenames : StringSet
}.

(** [{ ...options, counter: value }]. *)
Definition withCounter (options : RenameOptions) (value : float) : RenameOptions :=
  {| counter := Some value;
     counterPadding := counterPadding options;
     startCounter := startCounter options;
     customText := customText options;
     fallbackDate := fallbackDate options;
     preserveExtension := preserveExtension options |}.

(** [(options.startCounter || 1) + index]: a sum of binary64 numbers;
    [startCounter] is passed over when it is missing, 0 or [NaN]. *)
Definition counterFor (options : RenameOptions) (index : nat) : float :=
  (match startCounter options with
   | Some start => if JS.truthyNumber start then start else 1
   | None => 1
   end + JS.ofZNumber (Z.of_nat index))%float.

(** [exifDataMap.get(file.name) || null]. *)
Definition exifDataFor (exifDataMap : list (string * option ExifData)) (file : File)
  : option ExifData :=
  match StringMap_get exifDataMap (fileName file) with
  | Some (Some e) => Some e
  | _ => None
  end.

(** The callback of [files.forEach] in [batchRename], for the file at
    [index]; [now] is the clock reading of that iteration. *)
Definition batchRename_callback (now : Date) (template : string)
  (exifDataMap : list (string * option ExifData)) (options : RenameOptions)
  (file : File) (index : nat) (state : BatchState) : option BatchState :=
  let exifData := exifDataFor exifDataMap file in
  let renameOptions := withCounter options (counterFor options index) in
  let result := generateFilename now template exifData (fileName file) renameOptions in
  match (if Set_has (usedFilenames state) (filename result)
         then resolveFilenameConflict result (usedFilenames state)
         else Some result) with
  | Some result =>
      Some {| results := Map_set (results state) file result;
              usedFilenames := Set_add (usedFilenames state) (filename result) |}
  | None => None
  end.

Fixpoint batchRename_forEach (clock : nat -> Date) (template : string)
  (exifDataMap : list (string * option ExifData)) (options : RenameOptions)
  (files : list File) (index : nat) (state : BatchState) : option BatchState :=
  match files with
  | [] => Some state
  | file :: rest =>
      match batchRename_callback (clock index) template exifDataMap options
              file index state with
      | Some state' =>
          batchRename_forEach clock template exifDataMap options rest (S index) state'
      | None => None
      end
  end.

(** [batchRename(files, template, exifDataMap, options)]; [clock i] is what
    [new Date()] returns during the iteration for index [i].  The result is
    [None] only if a conflict-resolution loop ran out of fuel, which
    [batchRename_total] below excludes. *)
Definition batchRename (clock : nat -> Date) (files : list File) (template : string)
  (exifDataMap : list (string * option ExifData)) (options : RenameOptions)
  : option (FileMap RenameResult) :=
  match batchRename_forEach clock template exifDataMap options files 0
          {| results := []; usedFilenames := [] |} with
  | Some state => Some (results state)
  | None => None
  end.

End Resolver.

(** ** Template validation and preview *)

(** The result of [validateTemplate]. *)
Record TemplateValidation := {
  templateIsValid : bool;
  templateErrors : list string;
  templateWarnings : list string
}.

(** [/\{[^}]+\}/g]: the token expression without its capture group. *)
Definition TOKEN_PATTERN : JS.RegExp :=
  fun s =>
    match TOKEN_REGEX s with
    | Some (m, _) => Some (m, [])
    | None => None
    end.

(** [invalidChars.test(s)] on the fresh global expression [invalidChars]
    (the class of characters illegal in file names): some character of
    [s] is in the class. *)
Definition hasIllegalChar (s : string) : bool :=
  match JS.search (oneOf isIllegalChar) 0 s with
  | Some _ => true
  | None => false
  end.

(** [validateTemplate(template)], run with [TOKEN_REGEX.lastIndex] equal
    to [lastIndex] on entry. *)
Definition validateTemplate (template : string) (lastIndex : nat)
  : TemplateValidation * nat :=
  let errors : list string := [] in
  let warnings : list string := [] in
  if negb (JS.truthyString template) || (String.length (JS.trim template) =? 0)%nat then
    let errors := (errors ++ ["Template cannot be empty"])%list in
    ({| templateIsValid := false; templateErrors := errors;
        templateWarnings := warnings |}, lastIndex)
  else
    let '(tokens, lastIndex) := parseTemplate template lastIndex in
    let invalidTokens := List.filter (fun t => negb (isValid t)) tokens in
    let errors :=
      (errors ++ List.map (fun token => ("Invalid token: " ++ fullToken token)%string)
                   invalidTokens)%list in
    let warnings :=
      if (List.length tokens =? 0)%nat
      then (warnings ++ ["Template has no dynamic tokens"])%list
      else warnings in
    let templateWithoutTokens := JS.replace TOKEN_PATTERN "" template in
    let warnings :=
      if hasIllegalChar templateWithoutTokens
      then (warnings
            ++ ["Template contains characters that may be invalid in filenames"])%list
      else warnings in
    ({| templateIsValid := (List.length errors =? 0)%nat;
        templateErrors := errors;
        templateWarnings := warnings |}, lastIndex).

(** A row of the table returned by [previewRename]. *)
Record PreviewRow := {
  original : string;
  renamed : string;
  rowWarnings : option (list string)
}.

(** [previewRename(files, template, exifDataMap, options)]. *)
Definition previewRename {engine : JS.Engine} (clock : nat -> Date) (files : list File)
  (template : string) (exifDataMap : list (string * option ExifData))
  (options : RenameOptions) : option (list PreviewRow) :=
  match batchRename clock files template exifDataMap options with
  | Some renameResults =>
      Some (List.map
              (fun entry : File * RenameResult =>
                 let (file, result) := entry in
                 {| original := fileName file;
                    renamed := filename result;
                    rowWarnings := warnings result |})
              renameResults)
  | None => None
  end.

(** ** Archive assembly ([src/lib/utils/zip.ts]) *)

(** [ZipOptions]; the progress callback, which only observes, is left out. *)
Record ZipOptions := {
  compressionLevel : option Z;
  includeMetadata : option bool;
  folderName : option string
}.

Definition INCOMPRESSIBLE_TYPES : StringSet :=
  [ "jpg"; "jpeg"; "png"; "gif"; "webp"; "heic"; "heif"; "avif";
    "mp4"; "mov"; "avi"; "mkv"; "webm";
    "mp3"; "aac"; "flac"; "m4a"; "ogg";
    "zip"; "rar"; "7z"; "gz"; "bz2";
    "pdf"; "docx"; "xlsx"; "pptx" ].

Definition getFileExtension (filename : string) : string :=
  match JS.lastIndexOf "." filename with
  | None => ""
  | Some lastDot => JS.toLowerCase (JS.drop (lastDot + 1) filename)
  end.

(** What an entry of [zipInput] holds: the bytes of a source file, or the
    text of the manifest (whose wording is not modelled). *)
Inductive EntryData :=
| FileBytes (source : File)
| ManifestText.

(** The per-entry options [{ level, mtime }]; [mtime] in milliseconds. *)
Record EntryOptions := {
  level : Z;
  mtime : Z
}.

Record ZipEntry := {
  data : EntryData;
  entryOptions : option EntryOptions
}.

(** The array index that a property key spells, if it spells one: the
    key is the decimal form, without leading zeros, of an integer below
    [2^32 - 1]. *)
Definition digitsValue (digits : string) : Z :=
  let fix go (acc : Z) (s : string) : Z :=
    match s with
    | EmptyString => acc
    | String c s' => go (10 * acc + (Z.of_nat (JS.code c) - 48))%Z s'
    end in
  go 0%Z digits.

Definition arrayIndex (key : string) : option Z :=
  match key with
  | EmptyString => None
  | String c rest =>
      if JS.forallb JS.isDigit key
         && (negb (Ascii.eqb c "0") || negb (JS.truthyString rest))
      then if (digitsValue key <? 2 ^ 32 - 1)%Z then Some (digitsValue key) else None
      else None
  end.

(** The order in which an object lists its own properties: the keys that
    are array indices in ascending numeric order, then the other keys in
    the order of their creation.  [properties] is in creation order. *)
Fixpoint insertByIndex {V : Type} (i : Z) (p : string * V) (sorted : list (string * V))
  : list (string * V) :=
  match sorted with
  | [] => [p]
  | q :: rest =>
      match arrayIndex (fst q) with
      | Some j => if (i <? j)%Z then p :: sorted else q :: insertByIndex i p rest
      | None => p :: sorted
      end
  end.

Definition indexFirst {V : Type} (properties : list (string * V)) : list (string * V) :=
  fold_right
    (fun p sorted =>
       match arrayIndex (fst p) with
       | Some i => insertByIndex i p sorted
       | None => sorted
       end)
    [] properties.

Definition objectOrder {V : Type} (properties : list (string * V)) : list (string * V) :=
  (indexFirst properties
   ++ List.filter (fun p => match arrayIndex (fst p) with None => true | Some _ => false end)
        properties)%list.

(** [zipInput]: a plain JavaScript object, created as [{}].
    [ownProperties] holds its own properties in the order of their
    creation; [prototypeArray] is the array that an assignment to the key
    [__proto__] has made its prototype ([None]: the prototype is still
    [Object.prototype], which has nothing enumerable). *)
Record ZipInput := {
  ownProperties : list (string * ZipEntry);
  prototypeArray : option ZipEntry
}.

Definition emptyObject : ZipInput :=
  {| ownProperties := []; prototypeArray := None |}.

(** Creating an own property, or replacing the value of a present one in
    place. *)
Fixpoint setOwn (own : list (string * ZipEntry)) (key : string) (value : ZipEntry)
  : list (string * ZipEntry) :=
  match own with
  | [] => [(key, value)]
  | (k, v) :: own' =>
      if String.eqb k key then (k, value) :: own'
      else (k, v) :: setOwn own' key value
  end.

(** [zipInput[key] = value], where [value] is an array.  The key
    [__proto__] reaches the setter that every plain object inherits from
    [Object.prototype]: the array becomes the prototype of [zipInput] and
    no property is created.  Any other key creates an own property or
    replaces the value of the present one. *)
Definition ZipInput_set (input : ZipInput) (key : string) (value : ZipEntry) : ZipInput :=
  if String.eqb key "__proto__"
  then {| ownProperties := ownProperties input; prototypeArray := Some value |}
  else {| ownProperties := setOwn (ownProperties input) key value;
          prototypeArray := prototypeArray input |}.

(** What is found under a key when the object is read with [for ... in]:
    an array that was assigned to the key, or an element of the prototype
    array, inherited under its index: the bytes under [0], the options
    object (when the array has one) under [1]. *)
Inductive PropertyValue :=
| ArrayValue (entry : ZipEntry)
| ElementBytes (bytes : EntryData)
| ElementOptions (options : EntryOptions).

Definition hasOwn (input : ZipInput) (key : string) : bool :=
  existsb (fun p => String.eqb (fst p) key) (ownProperties input).

(** [for (k in zipInput)] with [zipInput[k]], which is how the archive
    library reads the request: the own properties in the object's order,
    then the elements of the prototype array that no own property hides. *)
Definition enumerate (input : ZipInput) : list (string * PropertyValue) :=
  (List.map (fun p => (fst p, ArrayValue (snd p))) (objectOrder (ownProperties input))
   ++ match prototypeArray input with
      | None => []
      | Some array =>
          List.filter (fun p => negb (hasOwn input (fst p)))
            (("0", ElementBytes (data array))
             :: match entryOptions array with
                | Some o => [("1", ElementOptions o)]
                | None => []
                end)
      end)%list.

(** What [createZipAsync] hands to the archive library: the object and
    the archive-wide options [{ level: compressionLevel }]. *)
Record ZipRequest := {
  zipInput : ZipInput;
  archiveLevel : Z
}.

(** An array without options of its own is compressed at the archive-wide
    level. *)
Definition effectiveLevel (request : ZipRequest) (entry : ZipEntry) : Z :=
  match entryOptions entry with
  | Some o => level o
  | None => archiveLevel request
  end.

(** The level at which the archive library packs what it finds under a
    key: bytes found bare, outside an array, carry no options, and an
    options object found as a value becomes a folder; both get the
    archive-wide level. *)
Definition packedLevel (request : ZipRequest) (value : PropertyValue) : Z :=
  match value with
  | ArrayValue entry => effectiveLevel request entry
  | ElementBytes _ => archiveLevel request
  | ElementOptions _ => archiveLevel request
  end.

(** The body of the [for (const file of files)] loop of [createZipAsync]. *)
Definition createZipAsync_step (now : Z) (renameMap : FileMap RenameResult)
  (compressionLevel : Z) (folderName : string) (zipInput : ZipInput) (file : File)
  : ZipInput :=
  match Map_get renameMap file with
  | None => zipInput
  | Some renameResult =>
      let filename :=
        if JS.truthyString folderName
        then folderName ++ "/" ++ filename renameResult
        else filename renameResult in
      let ext := getFileExtension (fileName file) in
      let level := if Set_has INCOMPRESSIBLE_TYPES ext then 0%Z else compressionLevel in
      ZipInput_set zipInput filename
        {| data := FileBytes file;
           entryOptions :=
             Some {| level := level;
                     mtime := if (lastModified file =? 0)%Z then now
                              else lastModified file |} |}
  end.

(** [createZipAsync(files, renameMap, options)] up to the call of the
    archive library; [now] is the clock reading used for a file without a
    last-modified time. *)
Definition createZipAsync (now : Z) (files : list File) (renameMap : FileMap RenameResult)
  (options : ZipOptions) : ZipRequest :=
  let compressionLevel := match compressionLevel options with Some l => l | None => 6%Z end in
  let includeMetadata := match includeMetadata options with Some b => b | None => false end in
  let folderName := match folderName options with Some f => f | None => "" end in
  let zipInput :=
    fold_left (createZipAsync_step now renameMap compressionLevel folderName) files
      emptyObject in
  let zipInput :=
    if includeMetadata then
      let metadataFilename :=
        if JS.truthyString folderName then folderName ++ "/metadata.txt"
        else "metadata.txt" in
      ZipInput_set zipInput metadataFilename
        {| data := ManifestText; entryOptions := None |}
    else zipInput in
  {| zipInput := zipInput; archiveLevel := compressionLevel |}.

(** ** Validation of the archive input, and the streaming assembler *)

(** The result of [validateZipCreation]. *)
Record ZipValidation := {
  zipValid : bool;
  zipErrors : list string
}.

(** The body of [renameMap.forEach] in [validateZipCreation]: the names
    seen so far and the number of repeated ones. *)
Definition countDuplicate (state : StringSet * nat) (entry : File * RenameResult)
  : StringSet * nat :=
  let '(filenames, duplicateCount) := state in
  let result := snd entry in
  let duplicateCount :=
    if Set_has filenames (filename result) then S duplicateCount else duplicateCount in
  (Set_add filenames (filename result), duplicateCount).

Definition validateZipCreation (files : list File) (renameMap : FileMap RenameResult)
  : ZipValidation :=
  let errors : list string := [] in
  let errors :=
    if (List.length files =? 0)%nat then (errors ++ ["No files to zip"])%list
    else errors in
  let errors :=
    if (List.length renameMap =? 0)%nat
    then (errors ++ ["No rename mapping provided"])%list
    else errors in
  let errors :=
    if negb (List.length files =? List.length renameMap)%nat
    then (errors ++ ["File count mismatch with rename mapping"])%list
    else errors in
  let '(_, duplicateCount) := fold_left countDuplicate renameMap ([], 0) in
  let errors :=
    if (0 <? duplicateCount)%nat
    then (errors ++ [(JS.ofZ (Z.of_nat duplicateCount)
                      ++ " duplicate filename(s) detected")%string])%list
    else errors in
  {| zipValid := (List.length errors =? 0)%nat; zipErrors := errors |}.

(** The per-file stream objects of the archive library: [ZipDeflate]
    compresses at a level, [ZipPassThrough] stores. *)
Inductive FileStream :=
| ZipDeflate (filename : string) (level : Z)
| ZipPassThrough (filename : string).

(** A stream added to the archive stream: the stream object, the [mtime]
    assigned to it (milliseconds) and the file whose bytes are pushed. *)
Record AddedStream := {
  fileStream : FileStream;
  streamMtime : Z;
  pushed : File
}.

(** The body of the [for (const file of files)] loop of
    [processFilesStreaming]; [added] lists the streams added so far. *)
Definition processFilesStreaming_step (now : Z) (renameMap : FileMap RenameResult)
  (compressionLevel : Z) (folderName : string) (added : list AddedStream) (file : File)
  : list AddedStream :=
  match Map_get renameMap file with
  | None => added
  | Some renameResult =>
      let filename :=
        if JS.truthyString folderName
        then folderName ++ "/" ++ filename renameResult
        else filename renameResult in
      let ext := getFileExtension (fileName file) in
      let shouldCompress := negb (Set_has INCOMPRESSIBLE_TYPES ext) in
      let fileStream :=
        if shouldCompress then ZipDeflate filename compressionLevel
        else ZipPassThrough filename in
      (added ++ [ {| fileStream := fileStream;
                     streamMtime := if (lastModified file =? 0)%Z then now
                                    else lastModified file;
                     pushed := file |} ])%list
  end.

Definition processFilesStreaming (now : Z) (files : list File)
  (renameMap : FileMap RenameResult) (compressionLevel : Z) (folderName : string)
  : list AddedStream :=
  fold_left (processFilesStreaming_step now renameMap compressionLevel folderName) files [].

(** [createZipStream(files, renameMap, options)]: the streams handed to
    the archive stream, in order.  [includeMetadata] is not read. *)
Definition createZipStream (now : Z) (files : list File) (renameMap : FileMap RenameResult)
  (options : ZipOptions) : list AddedStream :=
  let compressionLevel := match compressionLevel options with Some l => l | None => 6%Z end in
  let folderName := match folderName options with Some f => f | None => "" end in
  processFilesStreaming now files renameMap compressionLevel folderName.

(** ** Sample inputs

    Used to run the model on concrete inputs.  Every number in them is a
    safe integer or is printed with [toFixed], and no exposure time is
    given as a string, so [sampleEngine]'s two functions are never
    reached; they return fixed values. *)

Definition sampleEngine : JS.Engine :=
  {| JS.Number_toString_other := fun _ => "NaN";
     JS.parseFloat := fun _ => PrimFloat.nan |}.

(** 2025-10-11 14:25:30, local time. *)
Definition sampleDate : Date :=
  {| getFullYear := 2025; getMonth := 9; getDate := 11;
     getHours := 14; getMinutes := 25; getSeconds := 30;
     getTime := 1760192730000 |}.

Definition sampleExif : ExifData :=
  {| make := Some "Canon Inc.";
     model := None;
     lensModel := None;
     dateTaken := Some sampleDate;
     exposureTime := Some (ExposureNumber 0.004);
     fNumber := Some 8%float;
     iso := Some 100%float;
     focalLength := Some 0%float;
     width := Some 6000%float;
     height := Some 4000%float;
     orientation := None;
     gps := Some {| lat := 0; lng := 12.5; altitude := None |} |}.

Definition noOptions : RenameOptions :=
  {| counter := None; counterPadding := None; startCounter := None;
     customText := None; fallbackDate := None; preserveExtension := None |}.

(** * Properties *)

(** ** The parser leaves no state behind *)

Lemma TOKEN_REGEX_exec_null (subject : string) (lastIndex lastIndex' : nat) :
  TOKEN_REGEX_exec subject lastIndex = (None, lastIndex') -> lastIndex' = 0.
Proof.
  unfold TOKEN_REGEX_exec.
  destruct (String.length subject <? lastIndex)%nat; [now intros [= <-]|].
  destruct (JS.search TOKEN_REGEX lastIndex (JS.drop lastIndex subject));
    [discriminate | now intros [= <-]].
Qed.

Lemma parseTemplate_loop_resets (template : string) (lastIndex : nat)
  (tokens : list TemplateToken) :
  snd (parseTemplate_loop template lastIndex tokens) = 0.
Proof.
  funelim (parseTemplate_loop template lastIndex tokens).
  - exact H.
  - simpl. eapply TOKEN_REGEX_exec_null; eassumption.
Qed.

(** C5. [parseTemplate] is a pure function of its template: whatever
    [lastIndex] earlier uses of the shared [TOKEN_REGEX] left behind, the
    token sequence is the same, and the call itself leaves [lastIndex] at
    0, so it cannot influence any later parse either. *)
Theorem parseTemplate_pure (template : string) :
  (forall lastIndex lastIndex' : nat,
      fst (parseTemplate template lastIndex) = fst (parseTemplate template lastIndex'))
  /\ (forall lastIndex : nat, snd (parseTemplate template lastIndex) = 0)
  /\ (forall (other : string) (lastIndex : nat),
         fst (parseTemplate template (snd (parseTemplate other lastIndex)))
         = fst (parseTemplate template lastIndex)).
Proof.
  assert (Hreset : forall lastIndex, snd (parseTemplate template lastIndex) = 0).
  { intros lastIndex. unfold parseTemplate. apply parseTemplate_loop_resets. }
  assert (Hsame : forall a b, fst (parseTemplate template a) = fst (parseTemplate template b)).
  { intros a b. unfold parseTemplate. reflexivity. }
  split; [exact Hsame | split; [exact Hreset |]].
  intros other lastIndex. apply Hsame.
Qed.

(** The tokens of a template with a valid, a padded-counter and an unknown
    token, parsed after some other use of [TOKEN_REGEX]. *)
Example parseTemplate_sample :
  parseTemplate "{YYYY}_{counter:4}_{bogus}" 7
  = ([ {| token := "YYYY"; fullToken := "{YYYY}"; position := 0; isValid := true |};
       {| token := "counter:4"; fullToken := "{counter:4}"; position := 7; isValid := true |};
       {| token := "bogus"; fullToken := "{bogus}"; position := 19; isValid := false |} ],
     0).
Proof. vm_compute. reflexivity. Qed.

(** ** Sanitization is idempotent *)

(** The global-replace loop, unfolded once. *)
Lemma replaceFrom_unfold (re : JS.RegExp)
  (fn : string -> list string -> string -> string -> string) (before rest : string) :
  JS.replaceFrom re fn before rest =
  match re rest with
  | Some (m, caps) =>
      match rest with
      | EmptyString => fn m caps before EmptyString
      | String c rest' =>
          match m with
          | EmptyString =>
              fn m caps before rest ++
              String c (JS.replaceFrom re fn (before ++ String c EmptyString) rest')
          | String _ m' =>
              fn m caps before (JS.drop (String.length m') rest') ++
              JS.replaceFrom re fn (before ++ m) (JS.drop (String.length m') rest')
          end
      end
  | None =>
      match rest with
      | EmptyString => EmptyString
      | String c rest' =>
          String c (JS.replaceFrom re fn (before ++ String c EmptyString) rest')
      end
  end.
Proof.
  rewrite JS.replaceFrom_equation_1. unfold JS.replaceFrom_unfold_clause_1.
  destruct (re rest) as [[m caps]|]; destruct rest as [|c rest']; try reflexivity.
  destruct m; reflexivity.
Qed.

Lemma string_length_ind (P : string -> Prop) :
  (forall s, (forall t, String.length t < String.length s -> P t) -> P s) ->
  forall s, P s.
Proof.
  intros step s.
  assert (H : forall n t, String.length t < n -> P t).
  { induction n as [|n IH]; intros t Ht; [lia|].
    apply step. intros u Hu. apply IH. lia. }
  apply (H (S (String.length s))). lia.
Qed.

Lemma drop_takeWhile (f : ascii -> bool) (s : string) :
  JS.drop (String.length (JS.takeWhile f s)) s = JS.dropWhile f s.
Proof.
  induction s as [|c s IH]; simpl; [reflexivity|].
  destruct (f c); simpl; [exact IH | reflexivity].
Qed.

Lemma length_dropWhile_le (f : ascii -> bool) (s : string) :
  String.length (JS.dropWhile f s) <= String.length s.
Proof.
  induction s as [|c s IH]; simpl; [lia|]. destruct (f c); simpl; lia.
Qed.

(** Replacing every maximal run of a class by one underscore, as a
    left-to-right scan; [inRun] says that the previous character belonged
    to a run that has already been replaced. *)
Fixpoint collapseRuns (class : ascii -> bool) (inRun : bool) (s : string) : string :=
  match s with
  | EmptyString => EmptyString
  | String c s' =>
      if class c then
        if inRun then collapseRuns class true s'
        else String "_" (collapseRuns class true s')
      else String c (collapseRuns class false s')
  end.

Lemma collapseRuns_inRun (class : ascii -> bool) (s : string) :
  collapseRuns class true s = collapseRuns class false (JS.dropWhile class s).
Proof.
  induction s as [|c s IH]; simpl; [reflexivity|].
  destruct (class c) eqn:E; [exact IH|]. simpl. now rewrite E.
Qed.

Lemma replace_oneOf (class : ascii -> bool) (before s : string) :
  JS.replaceFrom (oneOf class)
    (fun m _ b a => JS.GetSubstitution m b a "") before s
  = JS.filter (fun c => negb (class c)) s.
Proof.
  revert before; induction s as [|c s IH]; intros before;
    rewrite replaceFrom_unfold; simpl; [reflexivity|].
  destruct (class c); simpl; now rewrite IH.
Qed.

Lemma replace_runs (class : ascii -> bool) (s : string) :
  forall before,
    JS.replaceFrom (runOf 1 class)
      (fun m _ b a => JS.GetSubstitution m b a "_") before s
    = collapseRuns class false s.
Proof.
  induction s as [s IH] using string_length_ind. intros before.
  rewrite replaceFrom_unfold. unfold runOf at 1.
  destruct s as [|c s]; simpl; [reflexivity|].
  destruct (class c) eqn:E; simpl.
  - rewrite drop_takeWhile, collapseRuns_inRun. f_equal.
    apply IH. simpl. pose proof (length_dropWhile_le class s). lia.
  - f_equal. apply IH. simpl. lia.
Qed.

Lemma takeWhile_none (f : ascii -> bool) (s : string) :
  JS.takeWhile f s = "" -> JS.dropWhile f s = s.
Proof. destruct s as [|c s]; simpl; [reflexivity|]. now destruct (f c). Qed.

Lemma replace_underscores (s : string) :
  forall before,
    JS.replaceFrom (runOf 2 isUnderscore)
      (fun m _ b a => JS.GetSubstitution m b a "_") before s
    = collapseRuns isUnderscore false s.
Proof.
  induction s as [s IH] using string_length_ind. intros before.
  rewrite replaceFrom_unfold. unfold runOf at 1.
  destruct s as [|c s]; simpl; [reflexivity|].
  destruct (isUnderscore c) eqn:E; simpl.
  - destruct (JS.takeWhile isUnderscore s) as [|d run] eqn:Erun; simpl.
    + (* a single underscore stays *)
      apply Ascii.eqb_eq in E. subst c. f_equal.
      rewrite collapseRuns_inRun, (takeWhile_none _ _ Erun).
      apply IH. simpl. lia.
    + change (match s with
              | EmptyString => EmptyString
              | String _ s' => JS.drop (String.length run) s'
              end) with (JS.drop (S (String.length run)) s).
      replace (S (String.length run))
        with (String.length (JS.takeWhile isUnderscore s)) by now rewrite Erun.
      rewrite drop_takeWhile, collapseRuns_inRun. f_equal.
      apply IH. simpl. pose proof (length_dropWhile_le isUnderscore s). lia.
  - f_equal. apply IH. simpl. lia.
Qed.

Lemma sanitizeForFilename_scan (s : string) :
  sanitizeForFilename (Some s)
  = collapseRuns isUnderscore false
      (collapseRuns JS.isWhiteSpace false
         (JS.filter (fun c => negb (isIllegalChar c)) s)).
Proof.
  unfold sanitizeForFilename, JS.replace.
  now rewrite replace_oneOf, replace_runs, replace_underscores.
Qed.

Lemma forallb_filter (P : ascii -> bool) (s : string) :
  JS.forallb P (JS.filter P s) = true.
Proof.
  induction s as [|c s IH]; simpl; [reflexivity|].
  destruct (P c) eqn:E; simpl; [now rewrite E | exact IH].
Qed.

Lemma filter_id (P : ascii -> bool) (s : string) :
  JS.forallb P s = true -> JS.filter P s = s.
Proof.
  induction s as [|c s IH]; simpl; [reflexivity|].
  intros [Hc Hs]%andb_true_iff. rewrite Hc. now rewrite IH.
Qed.

Lemma forallb_collapseRuns (P class : ascii -> bool) (inRun : bool) (s : string) :
  P "_"%char = true -> JS.forallb P s = true ->
  JS.forallb P (collapseRuns class inRun s) = true.
Proof.
  intros Hu. revert inRun; induction s as [|c s IH]; intros inRun; simpl; [reflexivity|].
  intros [Hc Hs]%andb_true_iff.
  destruct (class c); [destruct inRun|]; simpl; rewrite ?Hu, ?Hc; simpl; auto.
Qed.

Lemma collapseRuns_removes (class : ascii -> bool) (inRun : bool) (s : string) :
  class "_"%char = false ->
  JS.forallb (fun c => negb (class c)) (collapseRuns class inRun s) = true.
Proof.
  intros Hu. revert inRun; induction s as [|c s IH]; intros inRun; simpl; [reflexivity|].
  destruct (class c) eqn:E; [destruct inRun|]; simpl; rewrite ?Hu, ?E; simpl; auto.
Qed.

Lemma collapseRuns_id (class : ascii -> bool) (inRun : bool) (s : string) :
  JS.forallb (fun c => negb (class c)) s = true -> collapseRuns class inRun s = s.
Proof.
  revert inRun; induction s as [|c s IH]; intros inRun; simpl; [reflexivity|].
  intros [Hc Hs]%andb_true_iff. apply negb_true_iff in Hc. rewrite Hc.
  now rewrite IH.
Qed.

Lemma collapseRuns_underscore_idem (s : string) :
  collapseRuns isUnderscore false (collapseRuns isUnderscore false s)
  = collapseRuns isUnderscore false s
  /\ collapseRuns isUnderscore true (collapseRuns isUnderscore true s)
     = collapseRuns isUnderscore true s.
Proof.
  induction s as [|c s [IHf IHt]]; simpl; [split; reflexivity|].
  destruct (isUnderscore c) eqn:E; simpl; rewrite ?E; split; congruence.
Qed.

(** C9. The final filename sanitization is idempotent: sanitizing an
    already sanitized string changes nothing. *)
Theorem sanitizeForFilename_idempotent (s : string) :
  sanitizeForFilename (Some (sanitizeForFilename (Some s)))
  = sanitizeForFilename (Some s).
Proof.
  rewrite !sanitizeForFilename_scan.
  set (legal := fun c => negb (isIllegalChar c)).
  set (t := collapseRuns isUnderscore false
              (collapseRuns JS.isWhiteSpace false (JS.filter legal s))).
  assert (Hlegal : JS.forallb legal t = true).
  { unfold t. do 2 (apply forallb_collapseRuns; [reflexivity|]).
    apply forallb_filter. }
  assert (Hspace : JS.forallb (fun c => negb (JS.isWhiteSpace c)) t = true).
  { unfold t. apply forallb_collapseRuns; [reflexivity|].
    apply collapseRuns_removes. reflexivity. }
  rewrite (filter_id _ _ Hlegal), (collapseRuns_id _ _ _ Hspace).
  unfold t. apply collapseRuns_underscore_idem.
Qed.

(** Sanitizing a name with illegal characters, blanks and repeated
    underscores. *)
Example sanitizeForFilename_sample :
  sanitizeForFilename (Some "a<b>  c__ _d?.jpg") = "ab_c_d.jpg".
Proof. vm_compute. reflexivity. Qed.

(** ** Per-entry compression level *)

(** The extension of a file name as written: the text after its last dot
    (empty when there is no dot). *)
Definition extensionOf (filename : string) : string :=
  match JS.lastIndexOf "." filename with
  | None => ""
  | Some lastDot => JS.drop (lastDot + 1) filename
  end.

(** An extension belongs to the already-compressed set when it equals one
    of its members up to letter case. *)
Definition alreadyCompressed (ext : string) : Prop :=
  exists t, In t INCOMPRESSIBLE_TYPES /\ JS.toLowerCase ext = JS.toLowerCase t.

Lemma Set_has_In (s : StringSet) (x : string) :
  Set_has s x = true <-> In x s.
Proof.
  unfold Set_has. rewrite existsb_exists. split.
  - intros (y & Hy & E). apply String.eqb_eq in E. now subst.
  - intros Hx. exists x. split; [exact Hx | apply String.eqb_refl].
Qed.

Lemma INCOMPRESSIBLE_TYPES_lowercase (t : string) :
  In t INCOMPRESSIBLE_TYPES -> JS.toLowerCase t = t.
Proof.
  intros Ht. unfold INCOMPRESSIBLE_TYPES in Ht. simpl in Ht.
  repeat (destruct Ht as [<- | Ht]; [reflexivity|]). contradiction.
Qed.

Lemma getFileExtension_has (filename : string) :
  Set_has INCOMPRESSIBLE_TYPES (getFileExtension filename) = true
  <-> alreadyCompressed (extensionOf filename).
Proof.
  rewrite Set_has_In. unfold alreadyCompressed, getFileExtension, extensionOf.
  destruct (JS.lastIndexOf "." filename) as [lastDot|].
  - split.
    + intros Hin. eexists. split; [exact Hin|].
      now rewrite (INCOMPRESSIBLE_TYPES_lowercase _ Hin).
    + intros (t & Ht & E). rewrite E, (INCOMPRESSIBLE_TYPES_lowercase _ Ht). exact Ht.
  - split.
    + intros Hin. exists "". split; [exact Hin | reflexivity].
    + intros (t & Ht & E). rewrite (INCOMPRESSIBLE_TYPES_lowercase _ Ht) in E.
      simpl in E. now subst t.
Qed.

(** The path of an entry: inside the folder when one is named. *)
Definition entryPath (folderName filename : string) : string :=
  if JS.truthyString folderName then folderName ++ "/" ++ filename else filename.

(** The options and the array that the loop of [createZipAsync] makes for
    [file]. *)
Definition fileOptions (now compressionLevel : Z) (file : File) : EntryOptions :=
  {| level := if Set_has INCOMPRESSIBLE_TYPES (getFileExtension (fileName file))
              then 0%Z else compressionLevel;
     mtime := if (lastModified file =? 0)%Z then now else lastModified file |}.

Definition fileEntry (now compressionLevel : Z) (file : File) : ZipEntry :=
  {| data := FileBytes file;
     entryOptions := Some (fileOptions now compressionLevel file) |}.

Definition folderOf (options : ZipOptions) : string :=
  match folderName options with Some f => f | None => "" end.

Definition levelOf (options : ZipOptions) : Z :=
  match compressionLevel options with Some l => l | None => 6%Z end.

Definition manifestEntry : ZipEntry := {| data := ManifestText; entryOptions := None |}.

Lemma createZipAsync_step_found (now : Z) (renameMap : FileMap RenameResult)
  (compressionLevel : Z) (folderName : string) (zipInput : ZipInput) (file : File)
  (result : RenameResult) :
  Map_get renameMap file = Some result ->
  createZipAsync_step now renameMap compressionLevel folderName zipInput file
  = ZipInput_set zipInput (entryPath folderName (filename result))
      (fileEntry now compressionLevel file).
Proof. unfold createZipAsync_step. now intros ->. Qed.

Lemma createZipAsync_step_missing (now : Z) (renameMap : FileMap RenameResult)
  (compressionLevel : Z) (folderName : string) (zipInput : ZipInput) (file : File) :
  Map_get renameMap file = None ->
  createZipAsync_step now renameMap compressionLevel folderName zipInput file = zipInput.
Proof. unfold createZipAsync_step. now intros ->. Qed.

Lemma createZipAsync_unfold (now : Z) (files : list File)
  (renameMap : FileMap RenameResult) (options : ZipOptions) :
  zipInput (createZipAsync now files renameMap options)
  = let packed :=
      fold_left (createZipAsync_step now renameMap (levelOf options) (folderOf options))
        files emptyObject in
    if match includeMetadata options with Some b => b | None => false end
    then ZipInput_set packed (entryPath (folderOf options) "metadata.txt") manifestEntry
    else packed.
Proof.
  unfold createZipAsync, levelOf, folderOf, entryPath. cbn [zipInput].
  destruct (includeMetadata options) as [[|]|]; reflexivity.
Qed.

(** Induction over the loop of [createZipAsync]: what holds of the empty
    object and is kept by every assignment the loop makes holds of the
    object the loop leaves. *)
Lemma createZipAsync_loop_ind (now : Z) (renameMap : FileMap RenameResult)
  (compressionLevel : Z) (folderName : string) (all : list File)
  (P : ZipInput -> Prop) :
  (forall input file result,
      In file all -> Map_get renameMap file = Some result -> P input ->
      P (ZipInput_set input (entryPath folderName (filename result))
           (fileEntry now compressionLevel file))) ->
  forall files input,
    incl files all -> P input ->
    P (fold_left (createZipAsync_step now renameMap compressionLevel folderName)
         files input).
Proof.
  intros Hstep files. induction files as [|file files IH]; intros input Hincl Hinput;
    cbn [fold_left]; [exact Hinput|].
  apply IH; [intros f Hf; apply Hincl; now right|].
  destruct (Map_get renameMap file) as [result|] eqn:Hget.
  - rewrite (createZipAsync_step_found _ _ _ _ _ _ _ Hget).
    apply Hstep; [apply Hincl; now left | exact Hget | exact Hinput].
  - now rewrite (createZipAsync_step_missing _ _ _ _ _ _ Hget).
Qed.

Lemma setOwn_In_cases (own : list (string * ZipEntry)) (key : string) (value : ZipEntry)
  (k : string) (e : ZipEntry) :
  In (k, e) (setOwn own key value) ->
  (k = key /\ e = value) \/ In (k, e) own.
Proof.
  induction own as [|[k0 v0] own IH]; cbn [setOwn].
  - intros [[= <- <-] | []]. now left.
  - destruct (String.eqb_spec k0 key) as [-> | Hne].
    + intros [[= <- <-] | Hin]; [now left | right; now right].
    + intros [[= <- <-] | Hin]; [right; now left|].
      destruct (IH Hin) as [Hnew | Hin']; [now left | right; now right].
Qed.

(** What an assignment does to the own properties and to the prototype. *)
Lemma ZipInput_set_own (input : ZipInput) (key : string) (value : ZipEntry)
  (k : string) (e : ZipEntry) :
  In (k, e) (ownProperties (ZipInput_set input key value)) ->
  (k = key /\ e = value /\ key <> "__proto__") \/ In (k, e) (ownProperties input).
Proof.
  unfold ZipInput_set. destruct (String.eqb_spec key "__proto__") as [-> | Hne];
    cbn [ownProperties]; [now right|].
  intros [[-> ->] | Hin]%setOwn_In_cases; [left; auto | now right].
Qed.

Lemma ZipInput_set_prototype (input : ZipInput) (key : string) (value array : ZipEntry) :
  prototypeArray (ZipInput_set input key value) = Some array ->
  (key = "__proto__" /\ array = value) \/ prototypeArray input = Some array.
Proof.
  unfold ZipInput_set. destruct (String.eqb_spec key "__proto__") as [-> | Hne];
    cbn [prototypeArray]; [intros [= <-]; now left | now right].
Qed.

(** The object's order rearranges the properties and loses none. *)
Lemma insertByIndex_perm {V : Type} (i : Z) (p : string * V) (sorted : list (string * V)) :
  Permutation (insertByIndex i p sorted) (p :: sorted).
Proof.
  induction sorted as [|q rest IH]; cbn [insertByIndex]; [reflexivity|].
  destruct (arrayIndex (fst q)) as [j|]; [|reflexivity].
  destruct (i <? j)%Z; [reflexivity|].
  rewrite IH. apply perm_swap.
Qed.

Lemma objectOrder_perm {V : Type} (properties : list (string * V)) :
  Permutation (objectOrder properties) properties.
Proof.
  unfold objectOrder, indexFirst.
  induction properties as [|p rest IH]; cbn [fold_right List.filter]; [reflexivity|].
  destruct (arrayIndex (fst p)) as [i|].
  - rewrite insertByIndex_perm. cbn [app]. now apply perm_skip.
  - rewrite <- Permutation_middle. now apply perm_skip.
Qed.

Lemma objectOrder_In {V : Type} (properties : list (string * V)) (p : string * V) :
  In p (objectOrder properties) <-> In p properties.
Proof.
  split; apply Permutation_in; [|symmetry]; apply objectOrder_perm.
Qed.

(** What [for ... in] finds: an own property, or an element of the
    prototype array under its index. *)
Lemma enumerate_cases (input : ZipInput) (k : string) (v : PropertyValue) :
  In (k, v) (enumerate input) ->
  (exists e, v = ArrayValue e /\ In (k, e) (ownProperties input))
  \/ (exists array,
        prototypeArray input = Some array
        /\ ((k = "0" /\ v = ElementBytes (data array))
            \/ (exists o, entryOptions array = Some o /\ k = "1"
                          /\ v = ElementOptions o))).
Proof.
  unfold enumerate. intros Hin. apply in_app_or in Hin. destruct Hin as [Hown | Hproto].
  - left. apply in_map_iff in Hown. destruct Hown as ([k' e] & [= <- <-] & Hin).
    exists e. split; [reflexivity|]. exact (proj1 (objectOrder_In _ _) Hin).
  - right. destruct (prototypeArray input) as [array|]; [|contradiction].
    exists array. split; [reflexivity|].
    apply filter_In in Hproto. destruct Hproto as [Hin _].
    destruct Hin as [[= <- <-] | Hin]; [left; auto|].
    destruct (entryOptions array) as [o|]; [|contradiction].
    destruct Hin as [[= <- <-] | []]. right. exists o. auto.
Qed.

(** What the loop of [createZipAsync] guarantees of each array it assigned. *)
Definition entryLevelOk (files : list File) (compressionLevel : Z) (entry : ZipEntry) : Prop :=
  match data entry with
  | FileBytes file =>
      In file files /\
      exists o, entryOptions entry = Some o /\
        (alreadyCompressed (extensionOf (fileName file)) -> level o = 0%Z) /\
        (~ alreadyCompressed (extensionOf (fileName file)) -> level o = compressionLevel)
  | ManifestText => entryOptions entry = None
  end.

Lemma fileEntry_levelOk (now compressionLevel : Z) (files : list File) (file : File) :
  In file files -> entryLevelOk files compressionLevel (fileEntry now compressionLevel file).
Proof.
  intros Hfile. unfold entryLevelOk, fileEntry, fileOptions. cbn [data entryOptions].
  split; [exact Hfile|]. eexists. split; [reflexivity|]. cbn [level].
  destruct (Set_has INCOMPRESSIBLE_TYPES (getFileExtension (fileName file))) eqn:E.
  - split; [reflexivity|]. intros Hnot. apply getFileExtension_has in E. contradiction.
  - split; [|reflexivity]. intros Hyes. apply getFileExtension_has in Hyes. congruence.
Qed.

Lemma createZipAsync_loop_ok (now : Z) (renameMap : FileMap RenameResult)
  (compressionLevel : Z) (folderName : string) (files : list File) :
  forall k e,
    In (k, e) (ownProperties
                 (fold_left (createZipAsync_step now renameMap compressionLevel folderName)
                    files emptyObject)) ->
    entryLevelOk files compressionLevel e.
Proof.
  apply (createZipAsync_loop_ind now renameMap compressionLevel folderName files
           (fun input => forall k e, In (k, e) (ownProperties input) ->
                                     entryLevelOk files compressionLevel e)).
  - intros input file result Hfile _ Hinv k e Hin.
    apply ZipInput_set_own in Hin. destruct Hin as [(_ & -> & _) | Hin].
    + now apply fileEntry_levelOk.
    + eapply Hinv; eassumption.
  - apply incl_refl.
  - intros k e [].
Qed.

(** X20.  The level of everything the archive library finds in the
    request built by [createZipAsync].  An array assigned for a file whose
    extension is, up to letter case, in the already-compressed set has
    level 0, and any other file's array has [options.compressionLevel], 6
    when not supplied; the manifest, whose array has no options, gets that
    archive-wide level; and so does whatever is inherited from an array
    that became the prototype. *)
Theorem createZipAsync_entry_levels (now : Z) (files : list File)
  (renameMap : FileMap RenameResult) (options : ZipOptions)
  (path : string) (value : PropertyValue) :
  let request := createZipAsync now files renameMap options in
  let requested := match compressionLevel options with Some l => l | None => 6%Z end in
  In (path, value) (enumerate (zipInput request)) ->
  match value with
  | ArrayValue entry =>
      match data entry with
      | FileBytes file =>
          In file files /\
          (alreadyCompressed (extensionOf (fileName file)) ->
           packedLevel request value = 0%Z) /\
          (~ alreadyCompressed (extensionOf (fileName file)) ->
           packedLevel request value = requested)
      | ManifestText => packedLevel request value = requested
      end
  | ElementBytes _ => packedLevel request value = requested
  | ElementOptions _ => packedLevel request value = requested
  end.
Proof.
  intros request requested Hin.
  apply enumerate_cases in Hin.
  destruct Hin as [(entry & -> & Hown) | (array & _ & [[_ ->] | (o & _ & _ & ->)])];
    [|reflexivity | reflexivity].
  assert (Hok : entryLevelOk files requested entry).
  { unfold request in Hown. rewrite createZipAsync_unfold in Hown. cbv zeta in Hown.
    fold (levelOf options) in requested.
    destruct (match includeMetadata options with Some b => b | None => false end).
    - apply ZipInput_set_own in Hown. destruct Hown as [(_ & -> & _) | Hown];
        [reflexivity|].
      eapply createZipAsync_loop_ok; eassumption.
    - eapply createZipAsync_loop_ok; eassumption. }
  unfold entryLevelOk in Hok. cbn [packedLevel]. unfold effectiveLevel.
  destruct (data entry) as [file|].
  - destruct Hok as (Hfile & o & -> & Hzero & Hlevel). auto.
  - rewrite Hok. reflexivity.
Qed.

(** Sample inputs: a photograph with an upper-case extension and a text
    file, renamed and packed at level 9. *)
Definition samplePhoto : File :=
  {| fileRef := 1; fileName := "IMG_0001.JPG"; lastModified := 1760192730000 |}.

Definition sampleNotes : File :=
  {| fileRef := 2; fileName := "notes.txt"; lastModified := 0 |}.

Definition sampleRenameMap : FileMap RenameResult :=
  [ (samplePhoto, {| filename := "20251011_001.JPG"; success := true; warnings := None |});
    (sampleNotes, {| filename := "20251011_002.txt"; success := true; warnings := None |}) ].

Definition sampleZipOptions : ZipOptions :=
  {| compressionLevel := Some 9%Z; includeMetadata := Some true; folderName := None |}.

Definition samplePhotoEntry : ZipEntry :=
  {| data := FileBytes samplePhoto;
     entryOptions := Some {| level := 0; mtime := 1760192730000 |} |}.

Lemma createZipAsync_entry_levels_witness :
  In ("20251011_001.JPG", ArrayValue samplePhotoEntry)
    (enumerate
       (zipInput (createZipAsync 5 [samplePhoto; sampleNotes] sampleRenameMap
                    sampleZipOptions)))
  /\ packedLevel
       (createZipAsync 5 [samplePhoto; sampleNotes] sampleRenameMap sampleZipOptions)
       (ArrayValue samplePhotoEntry) = 0%Z.
Proof.
  assert (Hin : In ("20251011_001.JPG", ArrayValue samplePhotoEntry)
    (enumerate
       (zipInput (createZipAsync 5 [samplePhoto; sampleNotes] sampleRenameMap
                    sampleZipOptions)))).
  { vm_compute. left. reflexivity. }
  split; [exact Hin|].
  apply (createZipAsync_entry_levels 5 [samplePhoto; sampleNotes] sampleRenameMap
           sampleZipOptions _ _ Hin).
  exists "jpg". split; [simpl; auto | reflexivity].
Defined.

(** The archive request for the two sample files: the photograph is
    stored, the text file is compressed at the requested level, and the
    manifest has no level of its own. *)
Example createZipAsync_sample :
  createZipAsync 5 [samplePhoto; sampleNotes] sampleRenameMap sampleZipOptions
  = {| zipInput :=
         {| ownProperties :=
              [ ("20251011_001.JPG", samplePhotoEntry);
                ("20251011_002.txt",
                 {| data := FileBytes sampleNotes;
                    entryOptions := Some {| level := 9; mtime := 5 |} |});
                ("metadata.txt", {| data := ManifestText; entryOptions := None |}) ];
            prototypeArray := None |};
       archiveLevel := 9 |}.
Proof. vm_compute. reflexivity. Qed.


Definition sampleStoreOptions : ZipOptions :=
  {| compressionLevel := Some 9%Z; includeMetadata := None; folderName := None |}.


(** ** Shutter speed rendering *)

(** Order facts on binary64 values, from the specification of the
    primitive comparisons. *)

Lemma positive_float_facts (t : float) :
  (0 <? t)%float = true ->
  JS.truthyNumber t = true /\ PrimFloat.is_nan t = false /\ (t <=? 0)%float = false.
Proof.
  unfold JS.truthyNumber, PrimFloat.is_nan, PrimFloat.is_zero.
  rewrite ltb_spec, leb_spec, !eqb_spec.
  change (Prim2SF 0) with (S754_zero false).
  change (Prim2SF PrimFloat.zero) with (S754_zero false).
  unfold SFltb, SFleb, SFeqb.
  destruct (Prim2SF t) as [s | s | | s m e]; simpl; try discriminate.
  - destruct s; simpl; [discriminate | auto].
  - destruct s; simpl; [discriminate|].
    rewrite Z.compare_refl, Pos.compare_cont_refl. auto.
Qed.

Lemma SFcompare_below_not_above (x : spec_float) (p : positive) (q : Z) :
  SFltb x (S754_finite false p q) = true ->
  SFleb (S754_finite false p q) x = false.
Proof.
  unfold SFltb, SFleb.
  destruct x as [s | s | | s m e]; cbn [SFcompare];
    try destruct s; try discriminate; try reflexivity.
  rewrite (Z.compare_antisym e q).
  destruct (e ?= q)%Z; cbn [CompOpp]; try discriminate; try reflexivity.
  replace (PosDef.Pos.compare_cont Eq p m) with (CompOpp (Pos.compare_cont Eq m p))
    by exact (Pos.compare_cont_antisym m p Eq).
  destruct (Pos.compare_cont Eq m p); cbn [CompOpp]; try discriminate; reflexivity.
Qed.

Lemma below_one_not_above (t : float) :
  (t <? 1)%float = true -> (1 <=? t)%float = false.
Proof.
  rewrite ltb_spec, leb_spec.
  change (Prim2SF 1) with (S754_finite false 4503599627370496 (-52)).
  apply SFcompare_below_not_above.
Qed.

Section Shutter.

Context {engine : JS.Engine}.

Lemma formatShutterSpeed_positive (t : float) :
  (0 <? t)%float = true ->
  formatShutterSpeed (Some (ExposureNumber t))
  = if (1 <=? t)%float then JS.Number_toString t ++ "s"
    else "1/" ++ JS.Number_toString (JS.Math_round (1 / t)) ++ "s".
Proof.
  intros Hpos. destruct (positive_float_facts t Hpos) as (Htruthy & Hnan & Hle).
  unfold formatShutterSpeed. rewrite Htruthy, Hnan, Hle. reflexivity.
Qed.

Lemma replaceShutter_positive (t : float) (result : string) (e : ExifData)
  (w : list string) :
  (0 <? t)%float = true ->
  exposureTime e = Some (ExposureNumber t) ->
  JS.includes result "{shutter}" = true ->
  replaceShutter result (Some e) w
  = (JS.replace (JS.literal "{shutter}")
       (formatShutterSpeed (Some (ExposureNumber t))) result, w).
Proof.
  intros Hpos Hexp Hinc. destruct (positive_float_facts t Hpos) as (Htruthy & _).
  unfold replaceShutter. rewrite Hinc. unfold field, truthyExposure.
  rewrite Hexp, Htruthy. reflexivity.
Qed.

(** C8. For a positive exposure time [t], the [{shutter}] token is
    replaced by [t] followed by [s] when [t >= 1], and by [1/] followed by
    [1/t] rounded to the nearest integer and [s] when [t < 1]; for
    [t = 0.004] the replacement text is [1/250s].  (This is the text put in
    place of the token; the final sanitization of the whole name then
    removes the slash.) *)
Theorem shutter_token_rendering (t : float) (result : string) (e : ExifData)
  (w : list string) :
  (0 <? t)%float = true ->
  exposureTime e = Some (ExposureNumber t) ->
  JS.includes result "{shutter}" = true ->
  ((1 <=? t)%float = true ->
   replaceShutter result (Some e) w
   = (JS.replace (JS.literal "{shutter}") (JS.Number_toString t ++ "s") result, w))
  /\ ((t <? 1)%float = true ->
      replaceShutter result (Some e) w
      = (JS.replace (JS.literal "{shutter}")
           ("1/" ++ JS.Number_toString (JS.Math_round (1 / t)) ++ "s") result, w))
  /\ (t = 0.004%float ->
      replaceShutter result (Some e) w
      = (JS.replace (JS.literal "{shutter}") "1/250s" result, w)).
Proof.
  intros Hpos Hexp Hinc.
  rewrite (replaceShutter_positive t result e w Hpos Hexp Hinc).
  rewrite (formatShutterSpeed_positive t Hpos).
  split; [|split].
  - intros Hge. now rewrite Hge.
  - intros Hlt. now rewrite (below_one_not_above t Hlt).
  - intros ->. reflexivity.
Qed.

End Shutter.

Lemma shutter_token_rendering_witness :
  replaceShutter (engine := sampleEngine) "{date}_{shutter}" (Some sampleExif) []
  = ("{date}_1/250s", []).
Proof.
  exact (proj2 (proj2 (shutter_token_rendering (engine := sampleEngine) 0.004
                         "{date}_{shutter}" sampleExif [] eq_refl eq_refl eq_refl))
           eq_refl).
Defined.

(** The whole resolver on the sample metadata: the slash of the shutter
    text does not survive the final sanitization. *)
Example generateFilename_shutter_sample :
  generateFilename (engine := sampleEngine) sampleDate "{date}_{shutter}"
    (Some sampleExif) "IMG_0001.JPG" noOptions
  = {| filename := "20251011_1250s.JPG"; success := true; warnings := None |}.
Proof. vm_compute. reflexivity. Qed.

(** ** The extension of the original file name *)

Lemma lastIndexOf_none (c : ascii) (s : string) :
  JS.forallb (fun x => negb (Ascii.eqb x c)) s = true -> JS.lastIndexOf c s = None.
Proof.
  induction s as [|a s IH]; simpl; [reflexivity|].
  intros [Ha Hs]%andb_true_iff. rewrite (IH Hs).
  apply negb_true_iff in Ha. now rewrite Ha.
Qed.

Lemma lastIndexOf_last (c : ascii) (a b : string) :
  JS.forallb (fun x => negb (Ascii.eqb x c)) b = true ->
  JS.lastIndexOf c (a ++ String c b) = Some (String.length a).
Proof.
  intros Hb. induction a as [|x a IH]; simpl.
  - now rewrite (lastIndexOf_none c b Hb), Ascii.eqb_refl.
  - now rewrite IH.
Qed.

Lemma take_append (a b : string) : JS.take (String.length a) (a ++ b) = a.
Proof. induction a as [|x a IH]; simpl; [now destruct b | now rewrite IH]. Qed.

Lemma drop_append (a b : string) : JS.drop (String.length a) (a ++ b) = b.
Proof. induction a as [|x a IH]; simpl; auto. Qed.

(** A name of the form [name.ext], with [name] non-empty and no dot in
    [ext], is split into [name] and [ext]. *)
Lemma parseFilename_split (name ext : string) :
  name <> "" ->
  JS.forallb (fun x => negb (Ascii.eqb x ".")) ext = true ->
  parseFilename (name ++ "." ++ ext) = (name, ext).
Proof.
  intros Hname Hext. unfold parseFilename.
  change (name ++ "." ++ ext) with (name ++ String "." ext).
  rewrite (lastIndexOf_last "." name ext Hext).
  destruct name as [|x name]; [contradiction|].
  cbn [String.length]. f_equal.
  - apply (take_append (String x name)).
  - replace (S (String.length name) + 1) with (String.length (String x name ++ "."))
      by (rewrite length_append; reflexivity).
    rewrite <- (drop_append (String x name ++ ".") ext) at 2.
    now rewrite append_assoc.
Qed.

Section Extension.

Context {engine : JS.Engine}.

(** The value of the local [filename] of [generateFilename] just before
    [sanitizeForFilename] is applied (line 131): the template with every
    token substituted or stripped. *)
Definition substitutedName (now : Date) (template : string) (exifData : option ExifData)
  (originalFilename : string) (options : RenameOptions) : string :=
  fst (substituteTokens template exifData
         (match field exifData dateTaken with
          | Some d => d
          | None => match fallbackDate options with Some d => d | None => now end
          end)
         (match counter options with Some c => c | None => 1%float end)
         (match counterPadding options with Some p => p | None => 3%float end)
         (match customText options with Some t => t | None => "" end)
         (fst (parseFilename originalFilename))
         (snd (parseFilename originalFilename))
         []).

Lemma generateFilename_filename (now : Date) (template : string)
  (exifData : option ExifData) (originalFilename : string) (options : RenameOptions) :
  filename (generateFilename now template exifData originalFilename options)
  = let base := sanitizeForFilename
                  (Some (substitutedName now template exifData originalFilename options)) in
    let ext := snd (parseFilename originalFilename) in
    if match preserveExtension options with Some b => b | None => true end
       && JS.truthyString ext
    then base ++ "." ++ ext else base.
Proof.
  unfold generateFilename, substitutedName.
  destruct (parseFilename originalFilename) as [originalName originalExt].
  cbn [fst snd].
  destruct (substituteTokens _ _ _ _ _ _ _ _ _) as [name warnings].
  reflexivity.
Qed.

(** C7, as the code has it.  When [preserveExtension] is not switched off
    and the original file name is [name.ext] with a non-empty [name] and a
    non-empty, dot-free [ext], the generated file name is the sanitized
    base name, a dot, and [ext] exactly as written (its letter case is
    kept). *)
Theorem generateFilename_keeps_extension (now : Date) (template : string)
  (exifData : option ExifData) (name ext : string) (options : RenameOptions) :
  preserveExtension options <> Some false ->
  name <> "" ->
  ext <> "" ->
  JS.forallb (fun x => negb (Ascii.eqb x ".")) ext = true ->
  filename (generateFilename now template exifData (name ++ "." ++ ext) options)
  = sanitizeForFilename
      (Some (substitutedName now template exifData (name ++ "." ++ ext) options))
    ++ "." ++ ext.
Proof.
  intros Hpreserve Hname Hext Hdot.
  rewrite generateFilename_filename.
  rewrite (parseFilename_split name ext Hname Hdot). cbn [snd].
  assert (Hp : match preserveExtension options with Some b => b | None => true end = true).
  { destruct (preserveExtension options) as [[|]|]; congruence. }
  rewrite Hp. destruct ext as [|c ext]; [contradiction | reflexivity].
Qed.

End Extension.

Lemma generateFilename_keeps_extension_witness :
  filename (generateFilename (engine := sampleEngine) sampleDate "{date}_{counter}"
              (Some sampleExif) "IMG_0001.JPG" noOptions)
  = "20251011_001.JPG".
Proof.
  etransitivity.
  - apply (generateFilename_keeps_extension (engine := sampleEngine) sampleDate
             "{date}_{counter}" (Some sampleExif) "IMG_0001" "JPG" noOptions);
      [ discriminate | discriminate | discriminate | reflexivity ].
  - vm_compute. reflexivity.
Defined.

(** C7 as the specification words it fails: an upper-case extension is
    not lower-cased. *)
Lemma extension_not_lowercased :
  let generated :=
    generateFilename (engine := sampleEngine) sampleDate "{date}_{counter}"
      (Some sampleExif) "IMG_0001.JPG" noOptions in
  filename generated = "20251011_001.JPG"
  /\ filename generated
     <> sanitizeForFilename
          (Some (substitutedName (engine := sampleEngine) sampleDate "{date}_{counter}"
                   (Some sampleExif) "IMG_0001.JPG" noOptions))
        ++ "." ++ JS.toLowerCase "JPG".
Proof.
  vm_compute. split; [reflexivity | discriminate].
Qed.

(** ** Counters are binary64 numbers *)

Lemma digits2_pos_size (p : positive) : digits2_pos p = Pos.size p.
Proof. induction p as [p IH|p IH|]; simpl; congruence. Qed.

Lemma iter_xO_value (m s : positive) :
  Zpos (Pos.iter xO m s) = (Zpos m * 2 ^ Zpos s)%Z.
Proof.
  induction s as [|s IH] using Pos.peano_ind.
  - simpl. lia.
  - rewrite Pos.iter_succ, Pos2Z.inj_succ, Z.pow_succ_r by lia.
    rewrite Pos2Z.inj_xO, IH. lia.
Qed.

Lemma size_iter_xO (m s : positive) :
  Pos.size (Pos.iter xO m s) = (Pos.size m + s)%positive.
Proof.
  induction s as [|s IH] using Pos.peano_ind.
  - simpl. lia.
  - rewrite Pos.iter_succ. simpl. rewrite IH. lia.
Qed.

Lemma size_bounds (p : positive) :
  (2 ^ (Zpos (Pos.size p) - 1) <= Zpos p < 2 ^ Zpos (Pos.size p))%Z.
Proof.
  induction p as [p IH|p IH|]; simpl Pos.size; rewrite ?Pos2Z.inj_succ.
  - replace (Z.succ (Zpos (Pos.size p)) - 1)%Z with (Z.succ (Zpos (Pos.size p) - 1))%Z by lia.
    rewrite !Z.pow_succ_r by lia. lia.
  - replace (Z.succ (Zpos (Pos.size p)) - 1)%Z with (Z.succ (Zpos (Pos.size p) - 1))%Z by lia.
    rewrite !Z.pow_succ_r by lia. lia.
  - simpl. lia.
Qed.

Lemma size_unique (p : positive) (d : Z) :
  (2 ^ (d - 1) <= Zpos p < 2 ^ d)%Z -> Zpos (Pos.size p) = d.
Proof.
  intros [Hlo Hhi]. destruct (size_bounds p) as [Slo Shi].
  assert (Hd : (0 < d)%Z).
  { destruct (Z.ltb_spec 0 d) as [H|H]; [exact H|].
    rewrite (Z.pow_neg_r 2 (d - 1)) in Hlo by lia.
    destruct (Z.eqb_spec d 0) as [-> | Hne]; [simpl in Hhi; lia|].
    rewrite (Z.pow_neg_r 2 d) in Hhi by lia. lia. }
  destruct (Z.lt_trichotomy (Zpos (Pos.size p)) d) as [H | [H | H]]; [|exact H|].
  - assert (2 ^ Zpos (Pos.size p) <= 2 ^ (d - 1))%Z by (apply Z.pow_le_mono_r; lia). lia.
  - assert (2 ^ d <= 2 ^ (Zpos (Pos.size p) - 1))%Z by (apply Z.pow_le_mono_r; lia). lia.
Qed.

Lemma iter_shr_1 (s m : positive) :
  iter_pos shr_1 s {| shr_m := Zpos (Pos.iter xO m s); shr_r := false; shr_s := false |}
  = {| shr_m := Zpos m; shr_r := false; shr_s := false |}.
Proof.
  revert m; induction s as [s IH|s IH|]; intros m; simpl.
  - now rewrite !IH.
  - now rewrite !IH.
  - reflexivity.
Qed.

(** A mantissa of 53 bits followed by [k] zero bits rounds to itself. *)
Lemma binary_round_aux_exact (m M : positive) (k e : Z) :
  Pos.size m = 53%positive -> (0 <= k)%Z -> Zpos M = (Zpos m * 2 ^ k)%Z ->
  (-1074 <= e)%Z -> (e + k <= 971)%Z ->
  binary_round_aux prec emax false (Zpos M) e loc_Exact = S754_finite false m (e + k).
Proof.
  intros Hsize Hk HM Hlo Hhi.
  assert (HsizeM : Zpos (Pos.size M) = (53 + k)%Z).
  { apply size_unique. rewrite HM. destruct (size_bounds m) as [Slo Shi].
    rewrite Hsize in Slo, Shi.
    replace (53 + k - 1)%Z with (52 + k)%Z by lia.
    rewrite !Z.pow_add_r by lia. change (53 - 1)%Z with 52%Z in Slo.
    assert (0 < 2 ^ k)%Z by (apply Z.pow_pos_nonneg; lia). nia. }
  unfold binary_round_aux, shr_fexp. cbn [Zdigits2 shr_record_of_loc].
  rewrite digits2_pos_size, HsizeM.
  assert (Hf : (fexp prec emax (53 + k + e) - e = k)%Z).
  { unfold fexp, emin, prec, emax. lia. }
  rewrite Hf.
  assert (Hshr : shr {| shr_m := Zpos M; shr_r := false; shr_s := false |} e k
                 = ({| shr_m := Zpos m; shr_r := false; shr_s := false |}, (e + k)%Z)).
  { destruct k as [|s|s]; [| |lia].
    - rewrite Z.pow_0_r, Z.mul_1_r in HM. injection HM as ->.
      cbn [shr]. now rewrite Z.add_0_r.
    - rewrite <- iter_xO_value in HM. injection HM as ->.
      cbn [shr]. now rewrite iter_shr_1. }
  rewrite Hshr. cbn [shr_m loc_of_shr_record round_nearest_even Zdigits2 shr_record_of_loc].
  rewrite digits2_pos_size, Hsize.
  assert (Hf' : (fexp prec emax (53 + (e + k)) - (e + k) = 0)%Z).
  { unfold fexp, emin, prec, emax. lia. }
  rewrite Hf'. cbn [shr shr_m].
  assert (Hle : Z.leb (e + k) (emax - prec) = true).
  { apply Z.leb_le. unfold emax, prec. lia. }
  now rewrite Hle.
Qed.

(** The binary64 form of a positive integer below [2^53]: a mantissa of 53
    bits [m] and an exponent [e] between -52 and 0 with [m = n * 2^(-e)]. *)
Definition integerForm (n : Z) (m : positive) (e : Z) : Prop :=
  Pos.size m = 53%positive /\ (-52 <= e <= 0)%Z /\ Zpos m = (n * 2 ^ (- e))%Z.

Lemma integerForm_exists (n : positive) :
  (Zpos n < 2 ^ 53)%Z -> exists m e, integerForm (Zpos n) m e.
Proof.
  intros Hn. destruct (size_bounds n) as [Slo Shi].
  assert (Hd : (Zpos (Pos.size n) <= 53)%Z).
  { destruct (Z.leb_spec (Zpos (Pos.size n)) 53) as [H|H]; [exact H|].
    assert (2 ^ 53 <= 2 ^ (Zpos (Pos.size n) - 1))%Z by (apply Z.pow_le_mono_r; lia). lia. }
  set (e := (Zpos (Pos.size n) - 53)%Z).
  assert (Hpos : (0 < Zpos n * 2 ^ (- e))%Z).
  { assert (0 < 2 ^ (- e))%Z by (apply Z.pow_pos_nonneg; lia). lia. }
  destruct (Zpos n * 2 ^ (- e))%Z as [|m|m] eqn:Hm; try lia.
  exists m, e. split; [|split; [unfold e; lia | symmetry; exact Hm]].
  apply Pos2Z.inj. apply size_unique. rewrite <- Hm.
  replace 53%Z with (Zpos (Pos.size n) + - e)%Z at 2 by (unfold e; lia).
  replace (53 - 1)%Z with ((Zpos (Pos.size n) - 1) + - e)%Z by (unfold e; lia).
  rewrite !Z.pow_add_r by (unfold e; lia).
  assert (0 < 2 ^ (- e))%Z by (apply Z.pow_pos_nonneg; unfold e; lia). nia.
Qed.

Lemma integerForm_size (n : Z) (m : positive) (e : Z) :
  integerForm n m e -> (2 ^ (52 + e) <= n < 2 ^ (53 + e))%Z.
Proof.
  intros (Hsize & He & Hm). destruct (size_bounds m) as [Slo Shi].
  rewrite Hsize in Slo, Shi. change (53 - 1)%Z with 52%Z in Slo. rewrite Hm in Slo, Shi.
  assert (H2 : (0 < 2 ^ (- e))%Z) by (apply Z.pow_pos_nonneg; lia).
  replace 52%Z with ((52 + e) + - e)%Z in Slo by lia.
  replace 53%Z with ((53 + e) + - e)%Z in Shi by lia.
  rewrite Z.pow_add_r in Slo, Shi by lia. nia.
Qed.

Lemma integerForm_unique (n : Z) (m m' : positive) (e e' : Z) :
  integerForm n m e -> integerForm n m' e' -> m = m' /\ e = e'.
Proof.
  intros H H'. pose proof (integerForm_size _ _ _ H) as [Lo Hi].
  pose proof (integerForm_size _ _ _ H') as [Lo' Hi'].
  destruct H as (_ & He & Hm), H' as (_ & He' & Hm').
  assert (e = e').
  { destruct (Z.lt_trichotomy e e') as [Hlt | [Heq | Hgt]]; [|exact Heq|].
    - assert (2 ^ (53 + e) <= 2 ^ (52 + e'))%Z by (apply Z.pow_le_mono_r; lia). lia.
    - assert (2 ^ (53 + e') <= 2 ^ (52 + e))%Z by (apply Z.pow_le_mono_r; lia). lia. }
  subst e'. split; [|reflexivity]. apply Pos2Z.inj. congruence.
Qed.

Lemma binary_normalize_integer (n : Z) (m : positive) (e : Z) :
  integerForm n m e ->
  binary_normalize prec emax n 0 false = S754_finite false m e.
Proof.
  intros H. pose proof (integerForm_size _ _ _ H) as [Lo Hi].
  destruct H as (Hsize & He & Hm).
  assert (Hn : (0 < n)%Z).
  { assert (0 < 2 ^ (52 + e))%Z by (apply Z.pow_pos_nonneg; lia). lia. }
  destruct n as [|p|p]; try lia. cbn [binary_normalize]. unfold binary_round.
  rewrite digits2_pos_size.
  assert (Hp : Zpos (Pos.size p) = (53 + e)%Z).
  { apply size_unique. replace (53 + e - 1)%Z with (52 + e)%Z by lia. lia. }
  rewrite Hp, Z.add_0_r.
  assert (Hf : fexp prec emax (53 + e) = e) by (unfold fexp, emin, prec, emax; lia).
  rewrite Hf. unfold shl_align. rewrite Z.sub_0_r.
  destruct e as [|q|q]; try lia.
  - rewrite Z.pow_0_r, Z.mul_1_r in Hm. injection Hm as ->.
    assert (H0 : Zpos p = (Zpos p * 2 ^ 0)%Z) by (rewrite Z.pow_0_r; lia).
    exact (binary_round_aux_exact p p 0 0 Hsize (Z.le_refl 0) H0
             ltac:(lia) ltac:(lia)).
  - change (- Zneg q)%Z with (Zpos q) in Hm. rewrite <- iter_xO_value in Hm.
    injection Hm as Hm. subst m. set (m := Pos.iter xO p q) in *.
    assert (H0 : Zpos m = (Zpos m * 2 ^ 0)%Z) by (rewrite Z.pow_0_r; lia).
    rewrite (binary_round_aux_exact m m 0 (Zneg q) Hsize (Z.le_refl 0) H0
               ltac:(lia) ltac:(lia)).
    now rewrite Z.add_0_r.
Qed.

Lemma shl_align_value (m : positive) (e ez : Z) :
  (ez <= e)%Z ->
  Zpos (fst (shl_align m e ez)) = (Zpos m * 2 ^ (e - ez))%Z.
Proof.
  intros Hle. unfold shl_align.
  destruct (ez - e)%Z as [|d|d] eqn:Hd; cbn [fst]; try lia.
  - replace (e - ez)%Z with 0%Z by lia. lia.
  - rewrite iter_xO_value. f_equal. f_equal. lia.
Qed.

(** Adding two positive integers whose sum is below [2^53] is exact. *)
Lemma SFadd_integer (a b : Z) (ma mb mn : positive) (ea eb en : Z) :
  integerForm a ma ea -> integerForm b mb eb -> integerForm (a + b) mn en ->
  SFadd prec emax (S754_finite false ma ea) (S754_finite false mb eb)
  = S754_finite false mn en.
Proof.
  intros Ha Hb Hn.
  pose proof (integerForm_size _ _ _ Ha) as [Alo Ahi].
  pose proof (integerForm_size _ _ _ Hb) as [Blo Bhi].
  pose proof (integerForm_size _ _ _ Hn) as [Nlo Nhi].
  destruct Ha as (Sa & Ea & Va), Hb as (Sb & Eb & Vb), Hn as (Sn & En & Vn).
  cbn [SFadd cond_Zopp]. set (ez := Z.min ea eb).
  assert (Hez : (-52 <= ez <= 0 /\ ez <= ea /\ ez <= eb)%Z) by (unfold ez; lia).
  rewrite !shl_align_value by lia.
  assert (Hsum : (Zpos ma * 2 ^ (ea - ez) + Zpos mb * 2 ^ (eb - ez)
                  = (a + b) * 2 ^ (- ez))%Z).
  { rewrite Va, Vb, Z.mul_add_distr_r, <- !Z.mul_assoc, <- !Z.pow_add_r by lia.
    f_equal; f_equal; f_equal; lia. }
  rewrite Hsum.
  assert (Hen : (ez <= en)%Z).
  { assert (Hab : (2 ^ (52 + ez) <= a + b)%Z).
    { assert (0 < 2 ^ (52 + eb))%Z by (apply Z.pow_pos_nonneg; lia).
      assert (0 < 2 ^ (52 + ea))%Z by (apply Z.pow_pos_nonneg; lia).
      assert (2 ^ (52 + ez) <= 2 ^ (52 + ea))%Z by (apply Z.pow_le_mono_r; lia). lia. }
    destruct (Z.le_gt_cases ez en) as [H|H]; [exact H|].
    assert (2 ^ (53 + en) <= 2 ^ (52 + ez))%Z by (apply Z.pow_le_mono_r; lia). lia. }
  assert (HM : ((a + b) * 2 ^ (- ez) = Zpos mn * 2 ^ (en - ez))%Z).
  { rewrite Vn, <- Z.mul_assoc, <- Z.pow_add_r by lia. f_equal. f_equal. lia. }
  rewrite HM.
  assert (Hpos : (0 < Zpos mn * 2 ^ (en - ez))%Z).
  { assert (0 < 2 ^ (en - ez))%Z by (apply Z.pow_pos_nonneg; lia). lia. }
  destruct (Zpos mn * 2 ^ (en - ez))%Z as [|M|M] eqn:EM; try lia.
  cbn [binary_normalize]. unfold binary_round.
  assert (HsizeM : Zpos (Pos.size M) = (53 + (en - ez))%Z).
  { apply size_unique. rewrite <- EM. destruct (size_bounds mn) as [Slo Shi].
    rewrite Sn in Slo, Shi. change (53 - 1)%Z with 52%Z in Slo.
    replace (53 + (en - ez) - 1)%Z with (52 + (en - ez))%Z by lia.
    rewrite !Z.pow_add_r by lia.
    assert (0 < 2 ^ (en - ez))%Z by (apply Z.pow_pos_nonneg; lia). nia. }
  rewrite digits2_pos_size, HsizeM.
  assert (Hf : fexp prec emax (53 + (en - ez) + ez) = en)
    by (unfold fexp, emin, prec, emax; lia).
  rewrite Hf. unfold shl_align.
  assert (Hshift : fst (match (en - ez)%Z with
                        | Zneg d => (Pos.iter xO M d, en)
                        | _ => (M, ez)
                        end) = M
                   /\ snd (match (en - ez)%Z with
                           | Zneg d => (Pos.iter xO M d, en)
                           | _ => (M, ez)
                           end) = ez).
  { assert (Hk : (0 <= en - ez)%Z) by lia. revert Hk.
    generalize (en - ez)%Z. intros k Hk. destruct k; try lia; split; reflexivity. }
  destruct (match (en - ez)%Z with
            | Zneg d => (Pos.iter xO M d, en)
            | _ => (M, ez)
            end) as [mz ez'].
  cbn [fst snd] in Hshift. destruct Hshift as [-> ->].
  rewrite (binary_round_aux_exact mn M (en - ez) ez Sn ltac:(lia) (eq_sym EM)
             ltac:(lia) ltac:(lia)).
  f_equal. lia.
Qed.

Lemma integerForm_valid (n : Z) (m : positive) (e : Z) :
  integerForm n m e -> valid_binary (S754_finite false m e) = true.
Proof.
  intros (Hsize & He & _). cbn [valid_binary]. unfold bounded, canonical_mantissa.
  rewrite digits2_pos_size, Hsize.
  apply andb_true_iff. split.
  - apply Z.eqb_eq. unfold fexp, emin, prec, emax. lia.
  - apply Z.leb_le. unfold emax, prec. lia.
Qed.

Lemma Prim2SF_ofZNumber (n : Z) (m : positive) (e : Z) :
  integerForm n m e -> Prim2SF (JS.ofZNumber n) = S754_finite false m e.
Proof.
  intros H. unfold JS.ofZNumber. rewrite (binary_normalize_integer _ _ _ H).
  apply Prim2SF_SF2Prim. exact (integerForm_valid _ _ _ H).
Qed.

Lemma ofZNumber_add (a b : Z) :
  (0 < a)%Z -> (0 <= b)%Z -> (a + b < 2 ^ 53)%Z ->
  (JS.ofZNumber a + JS.ofZNumber b)%float = JS.ofZNumber (a + b).
Proof.
  intros Ha Hb Hab. apply Prim2SF_inj. rewrite add_spec.
  destruct a as [|pa|pa]; try lia.
  destruct (integerForm_exists pa) as (ma & ea & Fa); [lia|].
  assert (Hn : (0 < Zpos pa + b)%Z) by lia.
  destruct (Zpos pa + b)%Z as [|pn|pn] eqn:En; try lia.
  destruct (integerForm_exists pn) as (mn & en & Fn); [lia|].
  rewrite (Prim2SF_ofZNumber _ _ _ Fa), (Prim2SF_ofZNumber _ _ _ Fn).
  destruct b as [|pb|pb]; try lia.
  - assert (pn = pa) by lia. subst pn.
    destruct (integerForm_unique _ _ _ _ _ Fa Fn) as [-> ->].
    reflexivity.
  - destruct (integerForm_exists pb) as (mb & eb & Fb); [lia|].
    rewrite (Prim2SF_ofZNumber _ _ _ Fb). rewrite <- En in Fn.
    exact (SFadd_integer _ _ _ _ _ _ _ _ Fa Fb Fn).
Qed.

Lemma integerOf_integerForm (n : Z) (m : positive) (e : Z) :
  integerForm n m e -> JS.integerOf m e = Some n.
Proof.
  intros (_ & He & Hm). unfold JS.integerOf.
  destruct (Z.leb_spec 0 e) as [H0 | Hneg].
  - assert (e = 0%Z) by lia. subst e. rewrite Hm. cbn. f_equal. lia.
  - assert (Hpow : (0 < 2 ^ (- e))%Z) by (apply Z.pow_pos_nonneg; lia).
    rewrite Hm, Z.mod_mul, Z.eqb_refl, Z.div_mul by lia. reflexivity.
Qed.

Section CounterText.

Context {engine : JS.Engine}.

(** A positive integer below [2^53] prints as its decimal digits. *)
Lemma Number_toString_ofZNumber (n : Z) :
  (0 < n < 2 ^ 53)%Z -> JS.Number_toString (JS.ofZNumber n) = JS.ofZ n.
Proof.
  intros [Hpos Hlt]. destruct n as [|p|p]; try lia.
  destruct (integerForm_exists p Hlt) as (m & e & Hform).
  unfold JS.Number_toString.
  rewrite (Prim2SF_ofZNumber _ _ _ Hform), (integerOf_integerForm _ _ _ Hform).
  destruct (Z.leb_spec (Zpos p) (2 ^ 53)) as [_ | H]; [reflexivity | lia].
Qed.

End CounterText.

(** ** Batch renaming *)

Lemma to_int_not_nil (n : Z) : Z.to_int n <> Decimal.Pos Decimal.Nil /\ Z.to_int n <> Decimal.Neg Decimal.Nil.
Proof.
  destruct n as [|p|p]; simpl; split; try discriminate;
    intros [= E]; now apply DecimalPos.Unsigned.to_uint_nonnil in E.
Qed.

Lemma ofZ_inj (a b : Z) : JS.ofZ a = JS.ofZ b -> a = b.
Proof.
  unfold JS.ofZ. intros E.
  apply DecimalZ.to_int_inj.
  apply (f_equal NilZero.int_of_string) in E.
  destruct (to_int_not_nil a) as [Ha1 Ha2], (to_int_not_nil b) as [Hb1 Hb2].
  rewrite !NilZero.isi in E by assumption. now injection E.
Qed.

Lemma append_inv_head (a x y : string) : a ++ x = a ++ y -> x = y.
Proof. induction a as [|c a IH]; simpl; [auto | intros [= E]; auto]. Qed.

Lemma append_inv_tail (x y t : string) : x ++ t = y ++ t -> x = y.
Proof.
  revert y; induction x as [|c x IH]; intros [|d y] E; simpl in E.
  - reflexivity.
  - apply (f_equal String.length) in E. simpl in E. rewrite length_append in E. lia.
  - apply (f_equal String.length) in E. simpl in E. rewrite length_append in E. lia.
  - injection E as -> E. f_equal. now apply IH.
Qed.

(** The candidate tried by [resolveFilenameConflict] for a counter value. *)
Definition candidate (name ext : string) (counter : Z) : string :=
  let suffix := "_" ++ JS.ofZ counter in
  if JS.truthyString ext then name ++ suffix ++ "." ++ ext else name ++ suffix.

Lemma candidate_inj (name ext : string) (a b : Z) :
  candidate name ext a = candidate name ext b -> a = b.
Proof.
  unfold candidate. destruct (JS.truthyString ext); intros E.
  - apply append_inv_head in E. simpl in E. injection E as E.
    apply append_inv_tail in E. now apply ofZ_inj.
  - apply append_inv_head in E. simpl in E. injection E as E. now apply ofZ_inj.
Qed.

Lemma resolve_loop_step (fuel : nat) (name ext : string) (used : StringSet)
  (counter : Z) :
  resolveFilenameConflict_loop (S fuel) name ext used counter
  = if Set_has used (candidate name ext counter)
    then resolveFilenameConflict_loop fuel name ext used (counter + 1)
    else Some (candidate name ext counter).
Proof. reflexivity. Qed.

Lemma resolve_loop_found (fuel : nat) (name ext : string) (used : StringSet)
  (counter : Z) (found : string) :
  resolveFilenameConflict_loop fuel name ext used counter = Some found ->
  exists k : nat,
    k < fuel
    /\ found = candidate name ext (counter + Z.of_nat k)
    /\ Set_has used found = false
    /\ forall j : nat, j < k ->
         Set_has used (candidate name ext (counter + Z.of_nat j)) = true.
Proof.
  revert counter; induction fuel as [|fuel IH]; intros counter; [discriminate|].
  rewrite resolve_loop_step.
  destruct (Set_has used (candidate name ext counter)) eqn:Hhas.
  - intros Hrec. destruct (IH _ Hrec) as (k & Hk & Hfound & Hfree & Hbusy).
    exists (S k). repeat split; try lia.
    + rewrite Hfound. f_equal. lia.
    + exact Hfree.
    + intros [|j] Hj.
      * now rewrite Z.add_0_r.
      * replace (counter + Z.of_nat (S j))%Z with (counter + 1 + Z.of_nat j)%Z by lia.
        apply Hbusy. lia.
  - intros [= <-]. exists 0. rewrite Z.add_0_r. repeat split; auto; lia.
Qed.

Lemma resolve_loop_exhausted (fuel : nat) (name ext : string) (used : StringSet)
  (counter : Z) :
  resolveFilenameConflict_loop fuel name ext used counter = None ->
  forall j : nat, j < fuel ->
    Set_has used (candidate name ext (counter + Z.of_nat j)) = true.
Proof.
  revert counter; induction fuel as [|fuel IH]; intros counter; [intros _ j Hj; lia|].
  rewrite resolve_loop_step.
  destruct (Set_has used (candidate name ext counter)) eqn:Hhas; [|discriminate].
  intros Hrec [|j] Hj.
  - now rewrite Z.add_0_r.
  - replace (counter + Z.of_nat (S j))%Z with (counter + 1 + Z.of_nat j)%Z by lia.
    apply IH; [exact Hrec | lia].
Qed.

(** The loop of [resolveFilenameConflict] terminates: among one more
    candidate than there are used names, one is unused. *)
Lemma resolve_loop_total (name ext : string) (used : StringSet) (counter : Z) :
  resolveFilenameConflict_loop (S (List.length used)) name ext used counter <> None.
Proof.
  intros Hnone.
  pose proof (resolve_loop_exhausted _ _ _ _ _ Hnone) as Hbusy.
  set (tried := List.map (fun j => candidate name ext (counter + Z.of_nat j))
                  (seq 0 (S (List.length used)))).
  assert (Hnodup : NoDup tried).
  { apply Injective_map_NoDup; [|apply seq_NoDup].
    intros a b E. apply candidate_inj in E. lia. }
  assert (Hincl : incl tried used).
  { intros x Hx. apply in_map_iff in Hx. destruct Hx as (j & <- & Hj).
    apply in_seq in Hj. apply Set_has_In. apply Hbusy. lia. }
  pose proof (NoDup_incl_length Hnodup Hincl) as Hlen.
  unfold tried in Hlen. rewrite length_map, length_seq in Hlen. lia.
Qed.

Lemma resolveFilenameConflict_spec (result : RenameResult) (used : StringSet) :
  exists k : nat,
    let name := fst (parseFilename (filename result)) in
    let ext := snd (parseFilename (filename result)) in
    resolveFilenameConflict result used
    = Some {| filename := candidate name ext (1 + Z.of_nat k);
              success := success result;
              warnings :=
                Some ((match warnings result with Some w => w | None => [] end)
                      ++ ["Filename conflict resolved with numeric suffix"])%list |}
    /\ Set_has used (candidate name ext (1 + Z.of_nat k)) = false
    /\ forall j : nat, j < k ->
         Set_has used (candidate name ext (1 + Z.of_nat j)) = true.
Proof.
  unfold resolveFilenameConflict.
  destruct (parseFilename (filename result)) as [name ext]. cbn [fst snd].
  destruct (resolveFilenameConflict_loop (S (List.length used)) name ext used 1)
    as [found|] eqn:Hloop.
  - destruct (resolve_loop_found _ _ _ _ _ _ Hloop) as (k & _ & -> & Hfree & Hbusy).
    exists k. auto.
  - now apply resolve_loop_total in Hloop.
Qed.

Lemma Set_add_fresh (s : StringSet) (x : string) :
  Set_has s x = false -> Set_add s x = (s ++ [x])%list.
Proof. unfold Set_add. now intros ->. Qed.

Lemma Set_add_In (s : StringSet) (x y : string) :
  In y s -> In y (Set_add s x).
Proof.
  unfold Set_add. destruct (Set_has s x); [auto|]. intros Hy. apply in_or_app. now left.
Qed.

Lemma Set_add_In_new (s : StringSet) (x : string) : In x (Set_add s x).
Proof.
  unfold Set_add. destruct (Set_has s x) eqn:E.
  - now apply Set_has_In.
  - apply in_or_app. right. now left.
Qed.

(** The file names held by a result map. *)
Definition filenames (m : FileMap RenameResult) : list string :=
  List.map (fun entry => filename (snd entry)) m.

Lemma Map_set_filenames_cases (m : FileMap RenameResult) (key : File)
  (value : RenameResult) (x : string) :
  In x (filenames (Map_set m key value)) ->
  x = filename value \/ In x (filenames m).
Proof.
  induction m as [|[k v] m IH]; simpl.
  - intros [<- | []]. now left.
  - destruct (sameFile k key); simpl.
    + intros [<- | Hx]; [now left | right; now right].
    + intros [<- | Hx]; [right; now left|].
      destruct (IH Hx) as [-> | Hx']; [now left | right; now right].
Qed.

(** Storing a result whose file name is new keeps the file names of the
    map pairwise distinct, whether the key is new or already present. *)
Lemma Map_set_filenames (m : FileMap RenameResult) (key : File) (value : RenameResult) :
  ~ In (filename value) (filenames m) ->
  NoDup (filenames m) ->
  NoDup (filenames (Map_set m key value)).
Proof.
  induction m as [|[k v] m IH]; simpl; intros Hfresh Hnodup.
  - constructor; [intros [] | constructor].
  - inversion Hnodup as [|? ? Hv Hrest]; subst.
    destruct (sameFile k key); simpl.
    + constructor; [|exact Hrest]. intros Hin. apply Hfresh. now right.
    + constructor.
      * intros Hin. apply Map_set_filenames_cases in Hin.
        destruct Hin as [E | Hin]; [|now apply Hv].
        apply Hfresh. left. now rewrite E.
      * apply IH; [|exact Hrest]. intros Hin. apply Hfresh. now right.
Qed.

Section Batch.

Context {engine : JS.Engine}.

(** One iteration of [batchRename]: the generated result is stored as it
    is when its name is unused, and conflict-resolved otherwise; either
    way the stored name was unused. *)
Lemma batchRename_callback_spec (now : Date) (template : string)
  (exifDataMap : list (string * option ExifData)) (options : RenameOptions)
  (file : File) (index : nat) (state : BatchState) :
  let generated :=
    generateFilename now template (exifDataFor exifDataMap file) (fileName file)
      (withCounter options (counterFor options index)) in
  exists stored : RenameResult,
    batchRename_callback now template exifDataMap options file index state
    = Some {| results := Map_set (results state) file stored;
              usedFilenames := Set_add (usedFilenames state) (filename stored) |}
    /\ Set_has (usedFilenames state) (filename stored) = false
    /\ ((Set_has (usedFilenames state) (filename generated) = false /\ stored = generated)
        \/ (Set_has (usedFilenames state) (filename generated) = true
            /\ resolveFilenameConflict generated (usedFilenames state) = Some stored)).
Proof.
  intros generated. unfold batchRename_callback.
  fold (exifDataFor exifDataMap file). fold generated.
  destruct (Set_has (usedFilenames state) (filename generated)) eqn:Hhas.
  - destruct (resolveFilenameConflict_spec generated (usedFilenames state))
      as (k & Hres & Hfree & _).
    cbv zeta in Hres. rewrite Hres. eexists. split; [reflexivity|].
    split; [exact Hfree | right; split; reflexivity].
  - exists generated. split; [reflexivity|]. split; [exact Hhas | left; split; reflexivity].
Qed.

(** The invariant of the loop: every stored name is recorded as used, and
    the stored names are pairwise distinct. *)
Definition batchInvariant (state : BatchState) : Prop :=
  incl (filenames (results state)) (usedFilenames state)
  /\ NoDup (filenames (results state)).

Lemma batchRename_callback_invariant (now : Date) (template : string)
  (exifDataMap : list (string * option ExifData)) (options : RenameOptions)
  (file : File) (index : nat) (state : BatchState) :
  batchInvariant state ->
  exists state',
    batchRename_callback now template exifDataMap options file index state = Some state'
    /\ batchInvariant state'.
Proof.
  intros [Hincl Hnodup].
  destruct (batchRename_callback_spec now template exifDataMap options file index state)
    as (stored & -> & Hfree & _).
  eexists. split; [reflexivity|].
  assert (Hfresh : ~ In (filename stored) (filenames (results state))).
  { intros Hin. apply Hincl, Set_has_In in Hin. congruence. }
  split; cbn [results usedFilenames].
  - intros x Hx. apply Map_set_filenames_cases in Hx.
    destruct Hx as [-> | Hx]; [apply Set_add_In_new | apply Set_add_In, Hincl, Hx].
  - now apply Map_set_filenames.
Qed.

Lemma batchRename_forEach_invariant (clock : nat -> Date) (template : string)
  (exifDataMap : list (string * option ExifData)) (options : RenameOptions)
  (files : list File) (index : nat) (state : BatchState) :
  batchInvariant state ->
  exists state',
    batchRename_forEach clock template exifDataMap options files index state = Some state'
    /\ batchInvariant state'.
Proof.
  revert index state; induction files as [|file files IH]; intros index state Hinv; simpl.
  - now exists state.
  - destruct (batchRename_callback_invariant (clock index) template exifDataMap options
                file index state Hinv) as (state1 & -> & Hinv1).
    now apply IH.
Qed.

(** C1. [batchRename] returns, and the file names of the results it
    returns are pairwise distinct. *)
Theorem batchRename_filenames_distinct (clock : nat -> Date) (files : list File)
  (template : string) (exifDataMap : list (string * option ExifData))
  (options : RenameOptions) :
  exists renamed : FileMap RenameResult,
    batchRename clock files template exifDataMap options = Some renamed
    /\ NoDup (List.map (fun entry => filename (snd entry)) renamed).
Proof.
  unfold batchRename.
  destruct (batchRename_forEach_invariant clock template exifDataMap options files 0
              {| results := []; usedFilenames := [] |})
    as (final & -> & _ & Hnodup).
  - split; [intros x [] | constructor].
  - exists (results final). split; [reflexivity | exact Hnodup].
Qed.


Lemma sameFile_eq (a b : File) : sameFile a b = true <-> a = b.
Proof.
  unfold sameFile. destruct a as [ra na la], b as [rb nb lb]. cbn.
  rewrite !andb_true_iff, Nat.eqb_eq, String.eqb_eq, Z.eqb_eq.
  split; [intros [[-> ->] ->]; reflexivity | intros [= -> -> ->]; auto].
Qed.

Lemma Map_get_set_same {V : Type} (m : FileMap V) (key : File) (value : V) :
  Map_get (Map_set m key value) key = Some value.
Proof.
  induction m as [|[k v] m IH]; simpl.
  - now rewrite (proj2 (sameFile_eq key key) eq_refl).
  - destruct (sameFile k key) eqn:E; simpl; rewrite E; [reflexivity | exact IH].
Qed.

Lemma Map_get_set_other {V : Type} (m : FileMap V) (key other : File) (value : V) :
  key <> other -> Map_get (Map_set m key value) other = Map_get m other.
Proof.
  intros Hne. induction m as [|[k v] m IH]; simpl.
  - destruct (sameFile key other) eqn:E; [|reflexivity].
    now apply sameFile_eq in E.
  - destruct (sameFile k key) eqn:E; simpl.
    + apply sameFile_eq in E. subst k.
      destruct (sameFile key other) eqn:E'; [|reflexivity].
      now apply sameFile_eq in E'.
    + destruct (sameFile k other); [reflexivity | exact IH].
Qed.

Lemma batchRename_forEach_app (clock : nat -> Date) (template : string)
  (exifDataMap : list (string * option ExifData)) (options : RenameOptions)
  (done rest : list File) (index : nat) (state : BatchState) :
  batchRename_forEach clock template exifDataMap options (done ++ rest) index state
  = match batchRename_forEach clock template exifDataMap options done index state with
    | Some state' =>
        batchRename_forEach clock template exifDataMap options rest
          (index + List.length done) state'
    | None => None
    end.
Proof.
  revert index state; induction done as [|file done IH]; intros index state; simpl.
  - now rewrite Nat.add_0_r.
  - destruct (batchRename_callback (clock index) template exifDataMap options
                file index state) as [state1|]; [|reflexivity].
    rewrite IH. now replace (S index + List.length done) with (index + S (List.length done)) by lia.
Qed.

(** Iterations for other files leave the result stored for [file] alone. *)
Lemma batchRename_forEach_frame (clock : nat -> Date) (template : string)
  (exifDataMap : list (string * option ExifData)) (options : RenameOptions)
  (file : File) (rest : list File) (index : nat) (state final : BatchState) :
  ~ In file rest ->
  batchRename_forEach clock template exifDataMap options rest index state = Some final ->
  Map_get (results final) file = Map_get (results state) file.
Proof.
  revert index state; induction rest as [|other rest IH]; intros index state Hnotin; simpl.
  - now intros [= <-].
  - destruct (batchRename_callback_spec (clock index) template exifDataMap options
                other index state) as (stored & -> & _).
    intros Hrest. rewrite (IH _ _ (fun H => Hnotin (or_intror H)) Hrest).
    cbn [results]. apply Map_get_set_other. intros ->. apply Hnotin. now left.
Qed.

(** C2, as the code has it.  The file at position [i] of the input list is
    renamed with counter [start + i], a sum of binary64 numbers, where
    [start] is [options.startCounter] when that is supplied and truthy
    (neither 0 nor [NaN]), and 1 otherwise: the loop reaches position [i],
    generates the name with that counter from the file's own metadata
    entry, stores it (conflict-resolved if need be) and goes on with the
    rest of the list; unless the same [File] object occurs again later in
    the list, that result is the one [batchRename] returns for the file.
    When [start] is a positive integer [n] and [n + i] is below [2^53],
    the sum is exact: the counter is the integer [n + i] and prints as its
    decimal digits; so with [start] 1 the counters are 1, 2, 3, ... in
    input order. *)
Theorem batchRename_counter_assignment (clock : nat -> Date) (files : list File)
  (template : string) (exifDataMap : list (string * option ExifData))
  (options : RenameOptions) (i : nat) (file : File) :
  nth_error files i = Some file ->
  let start := match startCounter options with
               | Some s => if JS.truthyNumber s then s else 1%float
               | None => 1%float
               end in
  let counter := (start + JS.ofZNumber (Z.of_nat i))%float in
  let generated :=
    generateFilename (clock i) template (exifDataFor exifDataMap file) (fileName file)
      (withCounter options counter) in
  (exists (before : BatchState) (stored : RenameResult),
    batchRename_forEach clock template exifDataMap options (firstn i files) 0
      {| results := []; usedFilenames := [] |} = Some before
    /\ ((Set_has (usedFilenames before) (filename generated) = false
         /\ stored = generated)
        \/ (Set_has (usedFilenames before) (filename generated) = true
            /\ resolveFilenameConflict generated (usedFilenames before) = Some stored))
    /\ batchRename_forEach clock template exifDataMap options files 0
         {| results := []; usedFilenames := [] |}
       = batchRename_forEach clock template exifDataMap options (skipn (S i) files) (S i)
           {| results := Map_set (results before) file stored;
              usedFilenames := Set_add (usedFilenames before) (filename stored) |}
    /\ (~ In file (skipn (S i) files) ->
        exists renamed,
          batchRename clock files template exifDataMap options = Some renamed
          /\ Map_get renamed file = Some stored))
  /\ (forall n : Z,
        (0 < n)%Z -> (n + Z.of_nat i < 2 ^ 53)%Z -> start = JS.ofZNumber n ->
        counter = JS.ofZNumber (n + Z.of_nat i)
        /\ JS.Number_toString counter = JS.ofZ (n + Z.of_nat i)).
Proof.
  intros Hnth start counter generated.
  split.
  2:{ intros n Hn Hlt Hstart. unfold counter. rewrite Hstart.
      rewrite ofZNumber_add by lia. split; [reflexivity|].
      apply Number_toString_ofZNumber. lia. }
  set (init := {| results := []; usedFilenames := [] |}).
  assert (Hinit : batchInvariant init) by (split; [intros x [] | constructor]).
  assert (Hsplit : files = (firstn i files ++ file :: skipn (S i) files)%list).
  { clear - Hnth. revert i Hnth; induction files as [|f files IH]; intros [|i] Hnth;
      simpl in *; try discriminate.
    - now injection Hnth as ->.
    - f_equal. now apply IH. }
  assert (Hlen : List.length (firstn i files) = i).
  { apply firstn_length_le. apply Nat.lt_le_incl, nth_error_Some. congruence. }
  destruct (batchRename_forEach_invariant clock template exifDataMap options
              (firstn i files) 0 init Hinit) as (before & Hbefore & Hinv).
  destruct (batchRename_callback_spec (clock i) template exifDataMap options file i before)
    as (stored & Hcall & _ & Hstored).
  exists before, stored.
  assert (Hloop :
    batchRename_forEach clock template exifDataMap options files 0 init
    = batchRename_forEach clock template exifDataMap options (skipn (S i) files) (S i)
        {| results := Map_set (results before) file stored;
           usedFilenames := Set_add (usedFilenames before) (filename stored) |}).
  { rewrite Hsplit at 1. rewrite batchRename_forEach_app, Hbefore, Hlen.
    simpl. now rewrite Hcall. }
  split; [exact Hbefore|]. split; [|split; [exact Hloop|]].
  - unfold counterFor in Hstored. fold start in Hstored. fold counter in Hstored.
    fold generated in Hstored. exact Hstored.
  - intros Hlast. unfold batchRename. fold init. rewrite Hloop.
    destruct (batchRename_forEach clock template exifDataMap options (skipn (S i) files)
                (S i) _) as [final|] eqn:Hrest.
    + exists (results final). split; [reflexivity|].
      rewrite (batchRename_forEach_frame _ _ _ _ _ _ _ _ _ Hlast Hrest).
      cbn [results]. apply Map_get_set_same.
    + exfalso.
      destruct (batchRename_forEach_invariant clock template exifDataMap options files 0
                  init Hinit) as (final & Hfinal & _).
      rewrite Hloop in Hfinal. congruence.
Qed.

End Batch.

(** Sample batch: two files whose names both resolve to [shot.jpg]. *)
Definition sampleFirst : File :=
  {| fileRef := 11; fileName := "a.jpg"; lastModified := 0 |}.

Definition sampleSecond : File :=
  {| fileRef := 12; fileName := "b.jpg"; lastModified := 0 |}.


Definition zeroStart : RenameOptions :=
  {| counter := None; counterPadding := None; startCounter := Some 0%float;
     customText := None; fallbackDate := None; preserveExtension := None |}.


(** Two files that both resolve to [shot.jpg]: the second one becomes
    [shot_1.jpg] and carries the conflict warning. *)
Example batchRename_conflict_sample :
  batchRename (engine := sampleEngine) (fun _ => sampleDate) [sampleFirst; sampleSecond]
    "shot" [] noOptions
  = Some [ (sampleFirst,
            {| filename := "shot.jpg"; success := true; warnings := None |});
           (sampleSecond,
            {| filename := "shot_1.jpg"; success := true;
               warnings := Some ["Filename conflict resolved with numeric suffix"] |}) ].
Proof. vm_compute. reflexivity. Qed.

Lemma batchRename_counter_assignment_witness :
  (exists (before : BatchState) (stored : RenameResult),
     batchRename_forEach (engine := sampleEngine) (fun _ => sampleDate) "{counter}" []
       noOptions [sampleFirst] 0 {| results := []; usedFilenames := [] |} = Some before
     /\ batchRename_forEach (engine := sampleEngine) (fun _ => sampleDate) "{counter}" []
          noOptions [sampleFirst; sampleSecond] 0 {| results := []; usedFilenames := [] |}
        = batchRename_forEach (engine := sampleEngine) (fun _ => sampleDate) "{counter}" []
            noOptions [] 2
            {| results := Map_set (results before) sampleSecond stored;
               usedFilenames := Set_add (usedFilenames before) (filename stored) |})
  /\ @JS.Number_toString sampleEngine (1 + JS.ofZNumber 1)%float = "2".
Proof.
  destruct (batchRename_counter_assignment (engine := sampleEngine) (fun _ => sampleDate)
              [sampleFirst; sampleSecond] "{counter}" [] noOptions 1 sampleSecond eq_refl)
    as [(before & stored & Hbefore & _ & Hloop & _) Hexact].
  split.
  - exists before, stored. split; [exact Hbefore | exact Hloop].
  - exact (proj2 (Hexact 1%Z eq_refl eq_refl eq_refl)).
Defined.

(** C2 as the specification words it fails: a supplied [startCounter] of 0
    is not used.  The first file gets counter 1, not 0 + 0, and its name
    shows it. *)
Lemma startCounter_zero_ignored :
  counterFor zeroStart 0 <> (0 + JS.ofZNumber (Z.of_nat 0))%float
  /\ batchRename (engine := sampleEngine) (fun _ => sampleDate) [sampleFirst]
       "{counter}" [] zeroStart
     = Some [ (sampleFirst,
               {| filename := "001.jpg"; success := true; warnings := None |}) ]
  /\ filename (generateFilename (engine := sampleEngine) sampleDate "{counter}" None
                 "a.jpg" (withCounter zeroStart (0 + JS.ofZNumber (Z.of_nat 0))%float))
     = "000.jpg".
Proof.
  split; [|split].
  - intros H. apply (f_equal Prim2SF) in H. vm_compute in H. discriminate H.
  - vm_compute. reflexivity.
  - vm_compute. reflexivity.
Qed.

(** A start of [2^53]: adding 1 rounds back to [2^53], so the first two
    files are given the same counter and the second name needs a conflict
    suffix. *)
Definition hugeStart : RenameOptions :=
  {| counter := None; counterPadding := None;
     startCounter := Some 9007199254740992%float;
     customText := None; fallbackDate := None; preserveExtension := None |}.

Example counterFor_beyond_exact_integers :
  counterFor hugeStart 1 = counterFor hugeStart 0
  /\ batchRename (engine := sampleEngine) (fun _ => sampleDate) [sampleFirst; sampleSecond]
       "{counter}" [] hugeStart
     = Some [ (sampleFirst,
               {| filename := "9007199254740992.jpg"; success := true;
                  warnings := None |});
              (sampleSecond,
               {| filename := "9007199254740992_1.jpg"; success := true;
                  warnings := Some ["Filename conflict resolved with numeric suffix"] |}) ].
Proof.
  split.
  - apply Prim2SF_inj. vm_compute. reflexivity.
  - vm_compute. reflexivity.
Qed.

(** ** Tokens survive the replacement of other tokens *)

Lemma stripPrefix_Some (p s r : string) :
  JS.stripPrefix p s = Some r <-> s = p ++ r.
Proof.
  revert s; induction p as [|a p IH]; intros s; simpl.
  - split; [now intros [= ->] | now intros ->].
  - destruct s as [|b s]; [split; discriminate|].
    destruct (Ascii.eqb_spec a b) as [-> | Hne].
    + rewrite IH. split; [now intros -> | now intros [= ->]].
    + split; [discriminate | intros [= E _]; congruence].
Qed.

Lemma stripPrefix_append (p r : string) : JS.stripPrefix p (p ++ r) = Some r.
Proof. now apply stripPrefix_Some. Qed.

Lemma includes_spec (s p : string) :
  JS.includes s p = true <-> exists u v, s = u ++ p ++ v.
Proof.
  induction s as [|c s IH]; simpl.
  - destruct (JS.stripPrefix p "") as [r|] eqn:E.
    + apply stripPrefix_Some in E. split; [|reflexivity].
      intros _. exists "", r. exact E.
    + split; [discriminate|]. intros (u & v & Huv).
      destruct u; [|discriminate]. simpl in Huv.
      rewrite Huv, stripPrefix_append in E. discriminate.
  - destruct (JS.stripPrefix p (String c s)) as [r|] eqn:E.
    + apply stripPrefix_Some in E. split; [|reflexivity].
      intros _. exists "", r. exact E.
    + rewrite IH. split.
      * intros (u & v & ->). now exists (String c u), v.
      * intros (u & v & Huv). destruct u as [|d u].
        -- simpl in Huv. rewrite Huv, stripPrefix_append in E. discriminate.
        -- injection Huv as -> ->. now exists u, v.
Qed.

Lemma includes_append_r (x s p : string) :
  JS.includes s p = true -> JS.includes (x ++ s) p = true.
Proof.
  rewrite !includes_spec. intros (u & v & ->).
  exists (x ++ u), v. now rewrite append_assoc.
Qed.

(** Characters other than the two braces. *)
Definition notBrace (c : ascii) : bool :=
  negb (Ascii.eqb c "{") && negb (Ascii.eqb c "}").

(** A token text: an opening brace, a name without braces, a closing
    brace. *)
Definition isTokenText (t : string) : Prop :=
  exists name, t = "{" ++ name ++ "}" /\ JS.forallb notBrace name = true.

(** A string without an opening brace is a prefix of whatever precedes the
    next opening brace. *)
Lemma no_open_prefix (w a u t : string) :
  JS.forallb (fun c => negb (Ascii.eqb c "{")) w = true ->
  w ++ a = u ++ String "{" t ->
  exists u', u = w ++ u'.
Proof.
  revert u; induction w as [|x w IH]; intros u Hw E; simpl in *.
  - now exists u.
  - apply andb_true_iff in Hw. destruct Hw as [Hx Hw].
    destruct u as [|y u]; simpl in E.
    + injection E as -> _. now rewrite Ascii.eqb_refl in Hx.
    + injection E as -> E. destruct (IH u Hw E) as (u' & ->). now exists u'.
Qed.

(** Two brace-free names followed by a closing brace, read from the same
    position, are the same name. *)
Lemma same_name (n1 n2 a b : string) :
  JS.forallb notBrace n1 = true -> JS.forallb notBrace n2 = true ->
  n1 ++ String "}" a = n2 ++ String "}" b -> n1 = n2.
Proof.
  revert n2; induction n1 as [|x n1 IH]; intros [|y n2] H1 H2 E; simpl in *.
  - reflexivity.
  - injection E as <- _. unfold notBrace in H2. rewrite Ascii.eqb_refl in H2.
    now rewrite andb_false_r in H2.
  - injection E as -> _. unfold notBrace in H1. rewrite Ascii.eqb_refl in H1.
    now rewrite andb_false_r in H1.
  - apply andb_true_iff in H1, H2. destruct H1 as [_ H1], H2 as [_ H2].
    injection E as -> E. f_equal. now apply IH.
Qed.

Lemma notBrace_no_open (name : string) :
  JS.forallb notBrace name = true ->
  JS.forallb (fun c => negb (Ascii.eqb c "{")) (name ++ "}") = true.
Proof.
  induction name as [|x name IH]; simpl; [reflexivity|].
  intros [Hx Hn]%andb_true_iff. rewrite (IH Hn).
  unfold notBrace in Hx. apply andb_true_iff in Hx. now rewrite (proj1 Hx).
Qed.

(** An occurrence of a token that starts where another token text [P]
    matches is an occurrence of [P] itself; one that starts later starts
    after the match. *)
Lemma token_after_match (P T after u v : string) :
  isTokenText P -> isTokenText T -> P <> T ->
  P ++ after = u ++ T ++ v ->
  exists u', u = P ++ u'.
Proof.
  intros (n1 & -> & H1) (n2 & -> & H2) Hne E.
  destruct u as [|c u]; simpl in E.
  - exfalso. apply Hne. injection E as E.
    rewrite !append_assoc in E. simpl in E.
    now rewrite (same_name n1 n2 _ _ H1 H2 E).
  - injection E as <- E.
    destruct (no_open_prefix (n1 ++ "}") after u ((n2 ++ "}") ++ v)
                (notBrace_no_open n1 H1) E) as (u' & ->).
    exists u'. simpl. now rewrite append_assoc.
Qed.

Lemma literal_match (P s m : string) (caps : list string) :
  JS.literal P s = Some (m, caps) ->
  m = P /\ exists after, s = P ++ after.
Proof.
  unfold JS.literal. destruct P as [|c P]; [discriminate|].
  destruct (JS.stripPrefix (String c P) s) as [after|] eqn:E; [|discriminate].
  intros [= <- _]. split; [reflexivity|]. exists after. now apply stripPrefix_Some.
Qed.

(** The replace loop copies a stretch without an opening brace when the
    expression is a token text. *)
Lemma replaceFrom_copies (P : string)
  (fn : string -> list string -> string -> string -> string) (w : string) :
  isTokenText P ->
  JS.forallb (fun c => negb (Ascii.eqb c "{")) w = true ->
  forall before z,
    JS.replaceFrom (JS.literal P) fn before (w ++ z)
    = w ++ JS.replaceFrom (JS.literal P) fn (before ++ w) z.
Proof.
  intros HP. induction w as [|x w IH]; intros Hw before z.
  - simpl. now rewrite append_nil_r.
  - simpl in Hw. apply andb_true_iff in Hw. destruct Hw as [Hx Hw].
    rewrite replaceFrom_unfold. cbn [append].
    destruct (JS.literal P (String x (w ++ z))) as [[m caps]|] eqn:Hlit.
    + exfalso. destruct (literal_match _ _ _ _ Hlit) as (_ & after & E).
      destruct HP as (n & -> & _). simpl in E. injection E as ->.
      now rewrite Ascii.eqb_refl in Hx.
    + f_equal. rewrite (IH Hw). now rewrite append_assoc.
Qed.

(** Replacing every occurrence of one token text leaves the occurrences of
    a different token text in place, whatever is put in for the first. *)
Lemma replaceFrom_keeps_token (P T : string)
  (fn : string -> list string -> string -> string -> string) :
  isTokenText P -> isTokenText T -> P <> T ->
  forall rest before,
    JS.includes rest T = true ->
    JS.includes (JS.replaceFrom (JS.literal P) fn before rest) T = true.
Proof.
  intros HP HT Hne rest.
  induction rest as [rest IH] using string_length_ind. intros before Hinc.
  apply includes_spec in Hinc. destruct Hinc as (u & v & Hrest).
  rewrite replaceFrom_unfold.
  destruct (JS.literal P rest) as [[m caps]|] eqn:Hlit.
  - destruct (literal_match _ _ _ _ Hlit) as (-> & after & Hafter).
    assert (HPne : exists c P', P = String c P').
    { destruct HP as (n & -> & _). now eexists _, _. }
    destruct HPne as (c & P' & ->).
    destruct rest as [|d rest']; [discriminate|].
    simpl in Hafter. injection Hafter as -> Hrest'.
    assert (Hdrop : JS.drop (String.length P') rest' = after).
    { rewrite Hrest'. apply drop_append. }
    rewrite Hdrop. apply includes_append_r.
    destruct (token_after_match (String c P') T after u v HP HT Hne) as (u' & ->).
    { rewrite <- Hrest. simpl. now rewrite Hrest'. }
    apply IH.
    + rewrite Hrest'. simpl. rewrite length_append. lia.
    + apply includes_spec. exists u', v.
      simpl in Hrest. injection Hrest as Hrest. rewrite Hrest' in Hrest.
      rewrite append_assoc in Hrest. now apply append_inv_head in Hrest.
  - destruct rest as [|d rest'].
    + destruct u; [|discriminate]. destruct HT as (n & -> & _). discriminate.
    + destruct u as [|y u]; simpl in Hrest.
      * (* the token starts here: it is copied *)
        destruct HT as (n & -> & Hn). simpl in Hrest. injection Hrest as -> ->.
        rewrite (replaceFrom_copies P fn (n ++ "}") HP (notBrace_no_open n Hn)).
        apply includes_spec. exists "", (JS.replaceFrom (JS.literal P) fn
                                            ((before ++ "{") ++ n ++ "}") v).
        reflexivity.
      * injection Hrest as -> ->.
        apply (includes_append_r (String y "")).
        apply IH; [simpl; lia|]. apply includes_spec. now exists u, v.
Qed.

Lemma replace_keeps_token (P T replacement s : string) :
  isTokenText P -> isTokenText T -> P <> T ->
  JS.includes s T = true ->
  JS.includes (JS.replace (JS.literal P) replacement s) T = true.
Proof.
  intros HP HT Hne Hinc. unfold JS.replace.
  now apply replaceFrom_keeps_token.
Qed.

(** ** Strings without an opening brace *)

Definition noOpenBrace (s : string) : bool :=
  JS.forallb (fun c => negb (Ascii.eqb c "{")) s.

(** An expression that can only match at an opening brace. *)
Definition matchesAtBrace (re : JS.RegExp) : Prop :=
  forall x m caps, re x = Some (m, caps) -> exists r, x = String "{" r.

Lemma literal_matchesAtBrace (p : string) : matchesAtBrace (JS.literal (String "{" p)).
Proof.
  intros x m caps H. apply literal_match in H. destruct H as (_ & after & ->).
  now eexists.
Qed.

Lemma TOKEN_REGEX_matchesAtBrace : matchesAtBrace TOKEN_REGEX.
Proof.
  intros x m caps H. apply TOKEN_REGEX_prefix in H.
  destruct H as (name & after & -> & _ & _ & -> & _). now eexists.
Qed.

Lemma COUNTER_PADDING_REGEX_matchesAtBrace : matchesAtBrace COUNTER_PADDING_REGEX.
Proof.
  intros x m caps H. unfold COUNTER_PADDING_REGEX in H.
  destruct (JS.stripPrefix "{counter:" x) as [r|] eqn:E; [|discriminate].
  apply stripPrefix_Some in E. subst x. now eexists.
Qed.

Lemma no_match_without_brace (re : JS.RegExp) (s : string) :
  matchesAtBrace re -> noOpenBrace s = true -> re s = None.
Proof.
  intros Hre Hs. destruct (re s) as [[m caps]|] eqn:E; [|reflexivity].
  destruct (Hre _ _ _ E) as (r & ->). simpl in Hs. discriminate.
Qed.

(** Replacing in a string without an opening brace changes nothing. *)
Lemma replaceFrom_without_brace (re : JS.RegExp)
  (fn : string -> list string -> string -> string -> string) (s : string) :
  matchesAtBrace re -> noOpenBrace s = true ->
  forall before, JS.replaceFrom re fn before s = s.
Proof.
  intros Hre. induction s as [|c s IH]; intros Hs before; rewrite replaceFrom_unfold;
    rewrite (no_match_without_brace re _ Hre Hs); [reflexivity|].
  f_equal. apply IH. simpl in Hs. now apply andb_true_iff in Hs.
Qed.

Lemma replace_without_brace (re : JS.RegExp) (replacement s : string) :
  matchesAtBrace re -> noOpenBrace s = true -> JS.replace re replacement s = s.
Proof. intros Hre Hs. now apply replaceFrom_without_brace. Qed.

Lemma matchFrom_unfold_nil (re : JS.RegExp) (pos : nat) (c : ascii) (s : string) :
  re (String c s) = None ->
  JS.matchFrom re pos (String c s) = JS.matchFrom re (S pos) s.
Proof.
  intros Hnone. rewrite JS.matchFrom_equation_1.
  unfold JS.matchFrom_unfold_clause_1. now rewrite Hnone.
Qed.

Lemma matchAll_without_brace (re : JS.RegExp) (s : string) :
  matchesAtBrace re -> noOpenBrace s = true -> JS.matchAll re s = None.
Proof.
  intros Hre Hs. unfold JS.matchAll.
  assert (H : forall pos, JS.matchFrom re pos s = []).
  { induction s as [|c s IH]; intros pos.
    - rewrite JS.matchFrom_equation_1. unfold JS.matchFrom_unfold_clause_1.
      now rewrite (no_match_without_brace re "" Hre Hs).
    - rewrite (matchFrom_unfold_nil re pos c s (no_match_without_brace re _ Hre Hs)).
      apply IH. simpl in Hs. now apply andb_true_iff in Hs. }
  now rewrite H.
Qed.

Lemma includes_without_brace (s p : string) :
  noOpenBrace s = true -> JS.includes s (String "{" p) = false.
Proof.
  intros Hs. destruct (JS.includes s (String "{" p)) eqn:E; [|reflexivity].
  apply includes_spec in E. destruct E as (u & v & ->). exfalso.
  unfold noOpenBrace in Hs. clear - Hs.
  induction u as [|c u IH]; simpl in Hs; [discriminate|].
  apply andb_true_iff in Hs. now apply IH.
Qed.

Lemma forallb_append (P : ascii -> bool) (a b : string) :
  JS.forallb P (a ++ b) = JS.forallb P a && JS.forallb P b.
Proof.
  induction a as [|c a IH]; cbn [append JS.forallb]; [reflexivity|].
  now rewrite IH, andb_assoc.
Qed.

(** A replacement text without a dollar sign is inserted as it is. *)
Definition noDollar (s : string) : bool :=
  JS.forallb (fun c => negb (Ascii.eqb c "$")) s.

Lemma GetSubstitution_plain (matched before after replacement : string) :
  noDollar replacement = true ->
  JS.GetSubstitution matched before after replacement = replacement.
Proof.
  unfold noDollar. induction replacement as [|c r IH]; [reflexivity|].
  cbn [JS.forallb JS.GetSubstitution]. intros [Hc Hr]%andb_true_iff.
  apply negb_true_iff in Hc. rewrite Hc. f_equal. now apply IH.
Qed.

(** ** Templates whose only braces are the occurrences of one token *)

(** Every opening brace of [s] starts an occurrence of [tok]. *)
Fixpoint onlyToken (tok s : string) : Prop :=
  match s with
  | EmptyString => True
  | String c r => (c = "{"%char -> exists rest, s = tok ++ rest) /\ onlyToken tok r
  end.

Lemma onlyToken_plain (tok w z : string) :
  noOpenBrace w = true -> onlyToken tok z -> onlyToken tok (w ++ z).
Proof.
  unfold noOpenBrace. induction w as [|c w IH]; [intros _ Hz; exact Hz|].
  cbn [JS.forallb append onlyToken]. intros [Hc Hw]%andb_true_iff Hz.
  split; [|now apply IH].
  intros ->. discriminate Hc.
Qed.

Lemma onlyToken_token (name z : string) :
  JS.forallb notBrace name = true ->
  onlyToken ("{" ++ name ++ "}") z -> onlyToken ("{" ++ name ++ "}") (("{" ++ name ++ "}") ++ z).
Proof.
  intros Hname Hz. cbn [append onlyToken]. split.
  - intros _. exists z. reflexivity.
  - apply (onlyToken_plain ("{" ++ name ++ "}") (name ++ "}") z); [|exact Hz].
    now apply notBrace_no_open.
Qed.

Lemma onlyToken_join (name : string) (parts : list string) :
  JS.forallb notBrace name = true ->
  Forall (fun p => noOpenBrace p = true) parts ->
  onlyToken ("{" ++ name ++ "}") (JS.join ("{" ++ name ++ "}") parts).
Proof.
  intros Hname Hparts. induction Hparts as [|p rest Hp Hrest IH]; [exact I|].
  destruct rest as [|q rest].
  - cbn [JS.join]. rewrite <- (append_nil_r p).
    now apply onlyToken_plain.
  - change (JS.join ("{" ++ name ++ "}") (p :: q :: rest))
      with (p ++ ("{" ++ name ++ "}") ++ JS.join ("{" ++ name ++ "}") (q :: rest)).
    apply onlyToken_plain; [exact Hp|]. now apply onlyToken_token.
Qed.

(** An expression that matches only at an opening brace, and not where
    [tok] starts, matches nowhere in such a string. *)
Lemma onlyToken_no_match (re : JS.RegExp) (tok s : string) :
  matchesAtBrace re -> (forall rest, re (tok ++ rest) = None) ->
  onlyToken tok s -> re s = None.
Proof.
  intros Hre Htok Hs. destruct (re s) as [[m caps]|] eqn:E; [|reflexivity].
  destruct (Hre _ _ _ E) as (r & ->). cbn [onlyToken] in Hs.
  destruct Hs as [Hhead _]. destruct (Hhead eq_refl) as (rest & Hrest).
  rewrite Hrest, Htok in E. discriminate E.
Qed.

Lemma onlyToken_replaceFrom (re : JS.RegExp) (tok : string)
  (fn : string -> list string -> string -> string -> string) (s : string) :
  matchesAtBrace re -> (forall rest, re (tok ++ rest) = None) ->
  onlyToken tok s -> forall before, JS.replaceFrom re fn before s = s.
Proof.
  intros Hre Htok. induction s as [|c s IH]; intros Hs before; rewrite replaceFrom_unfold;
    rewrite (onlyToken_no_match re tok _ Hre Htok Hs); [reflexivity|].
  f_equal. apply IH. exact (proj2 Hs).
Qed.

Lemma onlyToken_replace (U tok replacement s : string) :
  (forall rest, JS.literal (String "{" U) (tok ++ rest) = None) ->
  onlyToken tok s -> JS.replace (JS.literal (String "{" U)) replacement s = s.
Proof.
  intros Htok Hs. unfold JS.replace.
  now apply (onlyToken_replaceFrom _ tok); [apply literal_matchesAtBrace | |].
Qed.

Lemma onlyToken_includes (U tok s : string) :
  (forall rest, JS.literal (String "{" U) (tok ++ rest) = None) ->
  onlyToken tok s -> JS.includes s (String "{" U) = false.
Proof.
  intros Htok. induction s as [|c s IH]; intros Hs.
  - reflexivity.
  - cbn [JS.includes].
    pose proof (onlyToken_no_match _ tok _ (literal_matchesAtBrace U) Htok Hs) as Hnone.
    unfold JS.literal in Hnone.
    destruct (JS.stripPrefix (String "{" U) (String c s)); [discriminate Hnone|].
    apply IH. exact (proj2 Hs).
Qed.

Lemma noOpenBrace_join (r : string) (parts : list string) :
  noOpenBrace r = true -> Forall (fun p => noOpenBrace p = true) parts ->
  noOpenBrace (JS.join r parts) = true.
Proof.
  intros Hr Hparts. induction Hparts as [|p rest Hp Hrest IH]; [reflexivity|].
  destruct rest as [|q rest]; [exact Hp|].
  change (JS.join r (p :: q :: rest)) with (p ++ r ++ JS.join r (q :: rest)).
  unfold noOpenBrace in *. rewrite !forallb_append, Hp, Hr. exact IH.
Qed.

(** Replacing the token of such a template puts the replacement text
    between the parts. *)
Lemma replaceFrom_join (name : string)
  (fn : string -> list string -> string -> string -> string) (r : string)
  (parts : list string) :
  JS.forallb notBrace name = true ->
  (forall m caps before after, fn m caps before after = r) ->
  Forall (fun p => noOpenBrace p = true) parts ->
  forall before,
    JS.replaceFrom (JS.literal ("{" ++ name ++ "}")) fn before
      (JS.join ("{" ++ name ++ "}") parts)
    = JS.join r parts.
Proof.
  intros Hname Hfn Hparts.
  assert (Htok : isTokenText ("{" ++ name ++ "}")) by (now exists name).
  induction Hparts as [|p rest Hp Hrest IH]; intros before.
  - now rewrite replaceFrom_unfold.
  - destruct rest as [|q rest].
    + cbn [JS.join]. apply replaceFrom_without_brace; [|exact Hp].
      apply literal_matchesAtBrace.
    + change (JS.join ("{" ++ name ++ "}") (p :: q :: rest))
        with (p ++ ("{" ++ name ++ "}") ++ JS.join ("{" ++ name ++ "}") (q :: rest)).
      change (JS.join r (p :: q :: rest)) with (p ++ r ++ JS.join r (q :: rest)).
      rewrite (replaceFrom_copies _ fn p Htok Hp). f_equal.
      rewrite replaceFrom_unfold.
      assert (Hlit : JS.literal ("{" ++ name ++ "}")
                       (("{" ++ name ++ "}")
                        ++ JS.join ("{" ++ name ++ "}") (q :: rest))
                     = Some ("{" ++ name ++ "}", [])).
      { unfold JS.literal. cbn [append]. 
        change (String "{" ((name ++ "}") ++ JS.join (String "{" (name ++ "}")) (q :: rest)))
          with (String "{" (name ++ "}") ++ JS.join (String "{" (name ++ "}")) (q :: rest)).
        now rewrite stripPrefix_append. }
      rewrite Hlit. cbn [append]. rewrite Hfn, drop_append. f_equal. apply IH.
Qed.

Lemma replace_join (name replacement : string) (parts : list string) :
  JS.forallb notBrace name = true ->
  noDollar replacement = true ->
  Forall (fun p => noOpenBrace p = true) parts ->
  JS.replace (JS.literal ("{" ++ name ++ "}")) replacement
    (JS.join ("{" ++ name ++ "}") parts)
  = JS.join replacement parts.
Proof.
  intros Hname Hr Hparts. unfold JS.replace.
  apply replaceFrom_join; [exact Hname | | exact Hparts].
  intros m caps before after. now apply GetSubstitution_plain.
Qed.

Lemma includes_join (tok : string) (parts : list string) :
  2 <= List.length parts -> JS.includes (JS.join tok parts) tok = true.
Proof.
  destruct parts as [|p [|q rest]]; cbn [List.length]; try lia. intros _.
  apply includes_spec. exists p, (JS.join tok (q :: rest)). reflexivity.
Qed.

(** Two texts that differ at a position both of them have. *)
Fixpoint clash (p s : string) : bool :=
  match p, s with
  | String a p', String b s' => if Ascii.eqb a b then clash p' s' else true
  | _, _ => false
  end.

Lemma clash_literal (U tok : string) :
  clash (String "{" U) tok = true ->
  forall rest, JS.literal (String "{" U) (tok ++ rest) = None.
Proof.
  intros Hc rest. unfold JS.literal.
  assert (H : forall p s, clash p s = true -> JS.stripPrefix p (s ++ rest) = None).
  { induction p as [|a p IH]; intros [|b s] Hps; cbn [clash] in Hps;
      try discriminate Hps.
    cbn [append JS.stripPrefix].
    destruct (Ascii.eqb a b); [now apply IH | reflexivity]. }
  now rewrite (H _ _ Hc).
Qed.

(** The date tokens, in the order [replaceDateTokens] replaces them. *)
Definition dateTokenTexts : list string :=
  ["{YYYY}"; "{YY}"; "{MM}"; "{DD}"; "{HH}"; "{mm}"; "{ss}";
   "{date}"; "{datetime}"; "{timestamp}"].

Lemma replaceDateTokens_other_token (tok s : string) (date : Date) :
  forallb (fun P => clash P tok) dateTokenTexts = true ->
  onlyToken tok s -> replaceDateTokens s date = s.
Proof.
  intros Hall Hs. cbn [forallb dateTokenTexts] in Hall.
  repeat (apply andb_true_iff in Hall; destruct Hall as [? Hall]).
  unfold replaceDateTokens. cbv zeta.
  repeat match goal with
         | Hc : clash (String "{" ?U) tok = true |- _ =>
             rewrite (onlyToken_replace U tok _ s (clash_literal U tok Hc) Hs)
         end.
  reflexivity.
Qed.

(** ** Missing metadata: empty substitution and one warning *)

(** How often a warning occurs in a list of warnings. *)
Definition occurrences (m : string) (l : list string) : nat :=
  List.length (List.filter (String.eqb m) l).

Lemma occurrences_app (m : string) (a b : list string) :
  occurrences m (a ++ b) = occurrences m a + occurrences m b.
Proof. unfold occurrences. now rewrite filter_app, length_app. Qed.

(** The warnings a [generateFilename] result carries ([undefined] is the
    empty list). *)
Definition warningsOf (r : RenameResult) : list string :=
  match warnings r with
  | Some w => w
  | None => []
  end.

(** One block of the resolver: the token it replaces, the warning it may
    push, and the block itself. *)
Record Block := {
  blockToken : string;
  blockWarning : option string;
  runBlock : string -> option ExifData -> Warn string
}.

(** Running blocks in sequence, each on the result of the one before. *)
Fixpoint runBlocks (blocks : list Block) (result : string) (exifData : option ExifData)
  : Warn string :=
  match blocks with
  | [] => ret result
  | b :: rest => result <- runBlock b result exifData ;; runBlocks rest result exifData
  end.

(** What every block of the resolver does: nothing when its token does not
    occur; otherwise it replaces every occurrence of its token by one
    text, and pushes either nothing or its own warning. *)
Definition wellFormedBlock (b : Block) : Prop :=
  isTokenText (blockToken b)
  /\ forall s e w,
       (JS.includes s (blockToken b) = false /\ runBlock b s e w = (s, w))
       \/ (JS.includes s (blockToken b) = true
           /\ exists r,
                runBlock b s e w = (JS.replace (JS.literal (blockToken b)) r s, w)
                \/ exists m, blockWarning b = Some m
                     /\ runBlock b s e w
                        = (JS.replace (JS.literal (blockToken b)) r s, (w ++ [m])%list)).

Lemma runBlocks_app (a b : list Block) (s : string) (e : option ExifData)
  (w : list string) :
  runBlocks (a ++ b) s e w
  = let (r, w') := runBlocks a s e w in runBlocks b r e w'.
Proof.
  revert s w; induction a as [|x a IH]; intros s w; simpl; [reflexivity|].
  unfold bind. destruct (runBlock x s e w) as [r w']. apply IH.
Qed.

Lemma runBlocks_keeps_token (T : string) (blocks : list Block) :
  isTokenText T ->
  Forall (fun b => wellFormedBlock b /\ blockToken b <> T) blocks ->
  forall s e w,
    JS.includes s T = true ->
    JS.includes (fst (runBlocks blocks s e w)) T = true.
Proof.
  intros HT Hall. induction Hall as [|b blocks [[Htok Hshape] Hne] _ IH];
    intros s e w Hinc; simpl; [exact Hinc|].
  unfold bind. destruct (runBlock b s e w) as [r w'] eqn:Hrun.
  apply IH.
  destruct (Hshape s e w) as [[_ E] | [_ (x & [E | (m & _ & E)])]];
    rewrite Hrun in E; injection E as -> _; auto using replace_keeps_token.
Qed.

Lemma runBlocks_silent (m : string) (blocks : list Block) :
  Forall (fun b => wellFormedBlock b /\ blockWarning b <> Some m) blocks ->
  forall s e w,
    occurrences m (snd (runBlocks blocks s e w)) = occurrences m w.
Proof.
  intros Hall. induction Hall as [|b blocks [[Htok Hshape] Hne] _ IH];
    intros s e w; simpl; [reflexivity|].
  unfold bind. destruct (runBlock b s e w) as [r w'] eqn:Hrun.
  rewrite IH.
  destruct (Hshape s e w) as [[_ E] | [_ (x & [E | (m' & Hm' & E)])]];
    rewrite Hrun in E; injection E as _ ->; try reflexivity.
  rewrite occurrences_app. unfold occurrences at 2. simpl.
  destruct (String.eqb_spec m m') as [-> | _]; [congruence | simpl; lia].
Qed.

Section MissingData.

Context {engine : JS.Engine}.

(** The blocks of [replaceCameraTokens], [replaceImageTokens] and
    [replaceGPSTokens], in the order [generateFilename] runs them. *)

Definition makeBlock : Block :=
  {| blockToken := "{make}";
     blockWarning := Some "Camera make not available in EXIF data";
     runBlock := replaceMake |}.

Definition modelBlock : Block :=
  {| blockToken := "{model}";
     blockWarning := Some "Camera model not available in EXIF data";
     runBlock := replaceModel |}.

Definition lensBlock : Block :=
  {| blockToken := "{lens}";
     blockWarning := Some "Lens model not available in EXIF data";
     runBlock := replaceLens |}.

Definition isoBlock : Block :=
  {| blockToken := "{iso}";
     blockWarning := Some "ISO not available in EXIF data";
     runBlock := replaceIso |}.

Definition apertureBlock : Block :=
  {| blockToken := "{aperture}";
     blockWarning := Some "Aperture not available in EXIF data";
     runBlock := replaceAperture |}.

Definition shutterBlock : Block :=
  {| blockToken := "{shutter}";
     blockWarning := Some "Shutter speed not available in EXIF data";
     runBlock := replaceShutter |}.

Definition focalBlock : Block :=
  {| blockToken := "{focal}";
     blockWarning := Some "Focal length not available in EXIF data";
     runBlock := replaceFocal |}.

Definition widthBlock : Block :=
  {| blockToken := "{width}";
     blockWarning := Some "Image width not available";
     runBlock := replaceWidth |}.

Definition heightBlock : Block :=
  {| blockToken := "{height}";
     blockWarning := Some "Image height not available";
     runBlock := replaceHeight |}.

Definition dimensionsBlock : Block :=
  {| blockToken := "{dimensions}";
     blockWarning := Some "Image dimensions not available";
     runBlock := replaceDimensions |}.

Definition orientationBlock : Block :=
  {| blockToken := "{orientation}";
     blockWarning := None;
     runBlock := replaceOrientation |}.

Definition latBlock : Block :=
  {| blockToken := "{lat}";
     blockWarning := Some "GPS latitude not available";
     runBlock := replaceLat |}.

Definition lngBlock : Block :=
  {| blockToken := "{lng}";
     blockWarning := Some "GPS longitude not available";
     runBlock := replaceLng |}.

Definition gpsBlock : Block :=
  {| blockToken := "{gps}";
     blockWarning := Some "GPS coordinates not available";
     runBlock := replaceGps |}.

Definition cameraBlocks : list Block :=
  [makeBlock; modelBlock; lensBlock; isoBlock; apertureBlock; shutterBlock; focalBlock].

Definition imageBlocks : list Block :=
  [widthBlock; heightBlock; dimensionsBlock; orientationBlock].

Definition gpsBlocks : list Block := [latBlock; lngBlock; gpsBlock].

Ltac token_text name := exists name; split; reflexivity.

Ltac date_token_text :=
  first [ token_text "YYYY" | token_text "YY" | token_text "MM" | token_text "DD"
        | token_text "HH" | token_text "mm" | token_text "ss" | token_text "date"
        | token_text "datetime" | token_text "timestamp" ].

Ltac block_shape :=
  intros s e w;
  cbv delta [makeBlock modelBlock lensBlock isoBlock apertureBlock shutterBlock
             focalBlock widthBlock heightBlock dimensionsBlock orientationBlock
             latBlock lngBlock gpsBlock];
  cbn [blockToken runBlock blockWarning];
  cbv delta [replaceMake replaceModel replaceLens replaceIso replaceAperture
             replaceShutter replaceFocal replaceWidth replaceHeight
             replaceDimensions replaceOrientation replaceLat replaceLng replaceGps];
  cbv beta;
  match goal with
  | |- (JS.includes s ?P = false /\ _) \/ _ =>
      destruct (JS.includes s P);
      [ right; split; [reflexivity|] | left; split; reflexivity ]
  end;
  repeat match goal with
         | |- context [match ?x with Some _ => _ | None => _ end] => destruct x
         end;
  first [ eexists; left; reflexivity
        | eexists; right; eexists; split; reflexivity ].

Lemma makeBlock_ok : wellFormedBlock makeBlock.
Proof. split; [token_text "make" | block_shape]. Qed.

Lemma modelBlock_ok : wellFormedBlock modelBlock.
Proof. split; [token_text "model" | block_shape]. Qed.

Lemma lensBlock_ok : wellFormedBlock lensBlock.
Proof. split; [token_text "lens" | block_shape]. Qed.

Lemma isoBlock_ok : wellFormedBlock isoBlock.
Proof. split; [token_text "iso" | block_shape]. Qed.

Lemma apertureBlock_ok : wellFormedBlock apertureBlock.
Proof. split; [token_text "aperture" | block_shape]. Qed.

Lemma shutterBlock_ok : wellFormedBlock shutterBlock.
Proof. split; [token_text "shutter" | block_shape]. Qed.

Lemma focalBlock_ok : wellFormedBlock focalBlock.
Proof. split; [token_text "focal" | block_shape]. Qed.

Lemma widthBlock_ok : wellFormedBlock widthBlock.
Proof. split; [token_text "width" | block_shape]. Qed.

Lemma heightBlock_ok : wellFormedBlock heightBlock.
Proof. split; [token_text "height" | block_shape]. Qed.

Lemma dimensionsBlock_ok : wellFormedBlock dimensionsBlock.
Proof. split; [token_text "dimensions" | block_shape]. Qed.

Lemma orientationBlock_ok : wellFormedBlock orientationBlock.
Proof. split; [token_text "orientation" | block_shape]. Qed.

Lemma latBlock_ok : wellFormedBlock latBlock.
Proof. split; [token_text "lat" | block_shape]. Qed.

Lemma lngBlock_ok : wellFormedBlock lngBlock.
Proof. split; [token_text "lng" | block_shape]. Qed.

Lemma gpsBlock_ok : wellFormedBlock gpsBlock.
Proof. split; [token_text "gps" | block_shape]. Qed.

Create HintDb blocks.

#[local] Hint Resolve makeBlock_ok modelBlock_ok lensBlock_ok isoBlock_ok
  apertureBlock_ok shutterBlock_ok focalBlock_ok widthBlock_ok heightBlock_ok
  dimensionsBlock_ok orientationBlock_ok latBlock_ok lngBlock_ok gpsBlock_ok : blocks.

Lemma replaceCameraTokens_blocks (s : string) (e : option ExifData) :
  replaceCameraTokens s e = runBlocks cameraBlocks s e.
Proof. reflexivity. Qed.

Lemma replaceImageTokens_blocks (s : string) (e : option ExifData) :
  replaceImageTokens s e = runBlocks imageBlocks s e.
Proof. reflexivity. Qed.

Lemma replaceGPSTokens_blocks (s : string) (e : option ExifData) :
  replaceGPSTokens s e = runBlocks gpsBlocks s e.
Proof. reflexivity. Qed.

(** The warnings of [substituteTokens] are those of the camera, image and
    GPS blocks, followed at most by the warning about unresolved tokens. *)
Lemma substituteTokens_warnings (template : string) (e : option ExifData) (date : Date)
  (counter counterPadding : float) (customText originalName originalExt : string) :
  exists tail,
    snd (substituteTokens template e date counter counterPadding customText
           originalName originalExt [])
    = (snd (runBlocks (cameraBlocks ++ imageBlocks ++ gpsBlocks)
              (replaceDateTokens template date) e []) ++ tail)%list
    /\ (tail = [] \/ exists x, tail = [String "U" x]).
Proof.
  unfold substituteTokens. cbv zeta.
  rewrite replaceCameraTokens_blocks.
  rewrite runBlocks_app. unfold bind.
  destruct (runBlocks cameraBlocks (replaceDateTokens template date) e []) as [r1 w1].
  rewrite replaceImageTokens_blocks, runBlocks_app.
  destruct (runBlocks imageBlocks r1 e w1) as [r2 w2].
  rewrite replaceGPSTokens_blocks.
  destruct (runBlocks gpsBlocks r2 e w2) as [r3 w3].
  destruct (JS.matchAll TOKEN_REGEX _) as [unresolved|].
  - eexists. split; [reflexivity|]. right. eexists. reflexivity.
  - exists []. split; [now rewrite app_nil_r | now left].
Qed.

(** The camera and settings tokens. *)
Inductive CameraToken :=
| TokenMake | TokenModel | TokenLens | TokenIso | TokenAperture | TokenShutter | TokenFocal.

Definition cameraBlockOf (tok : CameraToken) : Block :=
  match tok with
  | TokenMake => makeBlock
  | TokenModel => modelBlock
  | TokenLens => lensBlock
  | TokenIso => isoBlock
  | TokenAperture => apertureBlock
  | TokenShutter => shutterBlock
  | TokenFocal => focalBlock
  end.

(** The blocks that run before, and after, the block of a camera token. *)
Definition earlierBlocks (tok : CameraToken) : list Block :=
  match tok with
  | TokenMake => []
  | TokenModel => [makeBlock]
  | TokenLens => [makeBlock; modelBlock]
  | TokenIso => [makeBlock; modelBlock; lensBlock]
  | TokenAperture => [makeBlock; modelBlock; lensBlock; isoBlock]
  | TokenShutter => [makeBlock; modelBlock; lensBlock; isoBlock; apertureBlock]
  | TokenFocal => [makeBlock; modelBlock; lensBlock; isoBlock; apertureBlock; shutterBlock]
  end.

Definition laterBlocks (tok : CameraToken) : list Block :=
  match tok with
  | TokenMake => [modelBlock; lensBlock; isoBlock; apertureBlock; shutterBlock; focalBlock]
  | TokenModel => [lensBlock; isoBlock; apertureBlock; shutterBlock; focalBlock]
  | TokenLens => [isoBlock; apertureBlock; shutterBlock; focalBlock]
  | TokenIso => [apertureBlock; shutterBlock; focalBlock]
  | TokenAperture => [shutterBlock; focalBlock]
  | TokenShutter => [focalBlock]
  | TokenFocal => []
  end.

(** The metadata record is absent, or the field of the token is null. *)
Definition fieldAbsent (tok : CameraToken) (exifData : option ExifData) : Prop :=
  match exifData with
  | None => True
  | Some e =>
      match tok with
      | TokenMake => make e = None
      | TokenModel => model e = None
      | TokenLens => lensModel e = None
      | TokenIso => iso e = None
      | TokenAperture => fNumber e = None
      | TokenShutter => exposureTime e = None
      | TokenFocal => focalLength e = None
      end
  end.

(** The text of the warning of a camera token. *)
Definition cameraWarning (tok : CameraToken) : string :=
  match blockWarning (cameraBlockOf tok) with
  | Some m => m
  | None => ""
  end.

Lemma cameraBlocks_split (tok : CameraToken) :
  cameraBlocks = (earlierBlocks tok ++ cameraBlockOf tok :: laterBlocks tok)%list.
Proof. destruct tok; reflexivity. Qed.

Lemma cameraBlock_missing (tok : CameraToken) (s : string) (exifData : option ExifData)
  (w : list string) :
  fieldAbsent tok exifData ->
  JS.includes s (blockToken (cameraBlockOf tok)) = true ->
  runBlock (cameraBlockOf tok) s exifData w
  = (JS.replace (JS.literal (blockToken (cameraBlockOf tok))) "" s,
     (w ++ [cameraWarning tok])%list).
Proof.
  intros Habsent Hinc.
  destruct tok; cbn in Hinc |- *;
    cbv delta [replaceMake replaceModel replaceLens replaceIso replaceAperture
               replaceShutter replaceFocal]; cbv beta;
    rewrite Hinc; destruct exifData as [e|]; cbn in Habsent |- *;
    try rewrite Habsent; reflexivity.
Qed.

Lemma replaceDateTokens_keeps (T template : string) (date : Date) :
  isTokenText T ->
  ~ In T ["{YYYY}"; "{YY}"; "{MM}"; "{DD}"; "{HH}"; "{mm}"; "{ss}";
          "{date}"; "{datetime}"; "{timestamp}"] ->
  JS.includes template T = true ->
  JS.includes (replaceDateTokens template date) T = true.
Proof.
  intros HT Hnot Hinc. unfold replaceDateTokens. cbv zeta.
  repeat (apply replace_keeps_token;
          [ date_token_text
          | exact HT
          | intros <-; apply Hnot; simpl; tauto
          | ]).
  exact Hinc.
Qed.

Lemma cameraBlockOf_token (tok : CameraToken) :
  isTokenText (blockToken (cameraBlockOf tok))
  /\ ~ In (blockToken (cameraBlockOf tok))
         ["{YYYY}"; "{YY}"; "{MM}"; "{DD}"; "{HH}"; "{mm}"; "{ss}";
          "{date}"; "{datetime}"; "{timestamp}"].
Proof.
  split.
  - destruct tok; cbn;
      first [ token_text "make" | token_text "model" | token_text "lens"
            | token_text "iso" | token_text "aperture" | token_text "shutter"
            | token_text "focal" ].
  - destruct tok; cbn; intros H;
      repeat (destruct H as [H | H]; [discriminate H|]); exact H.
Qed.

Ltac all_blocks :=
  repeat first [ apply Forall_nil
               | apply Forall_cons; [split; [auto with blocks | cbn; discriminate]|] ].

Lemma earlierBlocks_other (tok : CameraToken) :
  Forall (fun b => wellFormedBlock b /\ blockToken b <> blockToken (cameraBlockOf tok))
    (earlierBlocks tok).
Proof. destruct tok; cbn [earlierBlocks]; all_blocks. Qed.

Lemma earlierBlocks_silent (tok : CameraToken) :
  Forall (fun b => wellFormedBlock b /\ blockWarning b <> Some (cameraWarning tok))
    (earlierBlocks tok).
Proof. destruct tok; cbn [earlierBlocks]; all_blocks. Qed.

Lemma laterBlocks_silent (tok : CameraToken) :
  Forall (fun b => wellFormedBlock b /\ blockWarning b <> Some (cameraWarning tok))
    (laterBlocks tok ++ imageBlocks ++ gpsBlocks).
Proof. destruct tok; cbn [laterBlocks imageBlocks gpsBlocks app]; all_blocks. Qed.

(** All the metadata blocks, in the order [generateFilename] runs them. *)
Definition allBlocks : list Block := cameraBlocks ++ imageBlocks ++ gpsBlocks.

Lemma allBlocks_ok : Forall wellFormedBlock allBlocks.
Proof.
  cbn [allBlocks cameraBlocks imageBlocks gpsBlocks app].
  repeat first [ apply Forall_nil | apply Forall_cons; [auto with blocks|] ].
Qed.

(** No block touches a string without an opening brace. *)
Lemma runBlocks_without_brace (blocks : list Block) (s : string)
  (e : option ExifData) (w : list string) :
  Forall wellFormedBlock blocks -> noOpenBrace s = true ->
  runBlocks blocks s e w = (s, w).
Proof.
  intros Hall Hs. induction Hall as [|b blocks [Htok Hshape] _ IH]; [reflexivity|].
  cbn [runBlocks]. unfold bind.
  destruct Htok as (name & Hname & _).
  destruct (Hshape s e w) as [[_ E] | [Hinc _]].
  - rewrite E. exact IH.
  - rewrite Hname in Hinc. cbn [append] in Hinc.
    rewrite (includes_without_brace s _ Hs) in Hinc. discriminate Hinc.
Qed.

(** The blocks of other tokens leave a one-token template alone. *)
Lemma runBlocks_other_tokens (tok : string) (blocks : list Block) (s : string)
  (e : option ExifData) (w : list string) :
  Forall (fun b => wellFormedBlock b /\ clash (blockToken b) tok = true) blocks ->
  onlyToken tok s -> runBlocks blocks s e w = (s, w).
Proof.
  intros Hall Hs. induction Hall as [|b blocks [[Htok Hshape] Hclash] _ IH]; [reflexivity|].
  cbn [runBlocks]. unfold bind.
  destruct Htok as (name & Hname & _).
  destruct (Hshape s e w) as [[_ E] | [Hinc _]].
  - rewrite E. exact IH.
  - rewrite Hname in Hinc, Hclash. cbn [append] in Hinc, Hclash.
    rewrite (onlyToken_includes _ tok s (clash_literal _ _ Hclash) Hs) in Hinc.
    discriminate Hinc.
Qed.

(** When the blocks leave no opening brace, the rest of [substituteTokens]
    changes and reports nothing. *)
Lemma substituteTokens_blocks_plain (template : string) (e : option ExifData)
  (date : Date) (counter counterPadding : float)
  (customText originalName originalExt : string) (w : list string)
  (s : string) (w' : list string) :
  runBlocks allBlocks (replaceDateTokens template date) e w = (s, w') ->
  noOpenBrace s = true ->
  substituteTokens template e date counter counterPadding customText
    originalName originalExt w
  = (s, w').
Proof.
  intros Hrun Hs. unfold allBlocks in Hrun.
  unfold substituteTokens. cbv zeta. unfold bind.
  rewrite replaceCameraTokens_blocks. rewrite runBlocks_app in Hrun.
  destruct (runBlocks cameraBlocks (replaceDateTokens template date) e w) as [r1 w1].
  rewrite replaceImageTokens_blocks. rewrite runBlocks_app in Hrun.
  destruct (runBlocks imageBlocks r1 e w1) as [r2 w2].
  rewrite replaceGPSTokens_blocks, Hrun.
  assert (Hlit : forall p r, JS.replace (JS.literal (String "{" p)) r s = s).
  { intros p r. apply replace_without_brace; [apply literal_matchesAtBrace | exact Hs]. }
  unfold replaceCounterTokens, JS.replaceWith.
  rewrite (replaceFrom_without_brace COUNTER_PADDING_REGEX _ s
             COUNTER_PADDING_REGEX_matchesAtBrace Hs).
  repeat rewrite Hlit.
  now rewrite (matchAll_without_brace TOKEN_REGEX s TOKEN_REGEX_matchesAtBrace Hs).
Qed.

(** Lines 119-142 of [generateFilename]: what follows the metadata blocks,
    from the counter tokens to the returned record, on the working copy
    [filename] of the template and the warnings pushed so far (with the
    defaults of the options and the split of the original name, lines
    97-108, which it uses). *)
Definition finishFilename (filename : string) (warnings : list string)
  (originalFilename : string) (options : RenameOptions) : RenameResult :=
  let counter := match counter options with Some c => c | None => 1%float end in
  let counterPadding := match counterPadding options with Some p => p | None => 3%float end in
  let customText := match customText options with Some t => t | None => "" end in
  let preserveExtension := match preserveExtension options with Some b => b | None => true end in
  let '(originalName, originalExt) := parseFilename originalFilename in
  let filename := replaceCounterTokens filename counter counterPadding in
  let filename := JS.replace (JS.literal "{original}") originalName filename in
  let filename := JS.replace (JS.literal "{ext}") originalExt filename in
  let filename := JS.replace (JS.literal "{custom}") customText filename in
  let '(filename, warnings) :=
    match JS.matchAll TOKEN_REGEX filename with
    | Some unresolvedTokens =>
        (JS.replace TOKEN_REGEX "" filename,
         (warnings
          ++ [("Unresolved tokens: " ++ JS.join ", " unresolvedTokens)%string])%list)
    | None => (filename, warnings)
    end in
  let filename := sanitizeForFilename (Some filename) in
  let filename :=
    if preserveExtension && JS.truthyString originalExt
    then filename ++ "." ++ originalExt
    else filename in
  {| filename := filename;
     success := true;
     warnings := match warnings with [] => None | _ :: _ => Some warnings end |}.

(** [generateFilename] in two stages: the date tokens and the metadata
    blocks, then the rest. *)
Lemma generateFilename_stages (now : Date) (template : string)
  (exifData : option ExifData) (originalFilename : string) (options : RenameOptions) :
  generateFilename now template exifData originalFilename options
  = (let date := match field exifData dateTaken with
                 | Some d => d
                 | None => match fallbackDate options with Some d => d | None => now end
                 end in
     let '(s, w) := runBlocks allBlocks (replaceDateTokens template date) exifData [] in
     finishFilename s w originalFilename options).
Proof.
  cbv zeta. unfold generateFilename, finishFilename, substituteTokens, allBlocks.
  cbv zeta. unfold bind.
  destruct (parseFilename originalFilename) as [originalName originalExt].
  rewrite replaceCameraTokens_blocks, runBlocks_app.
  destruct (runBlocks cameraBlocks _ exifData []) as [r1 w1].
  rewrite replaceImageTokens_blocks, runBlocks_app.
  destruct (runBlocks imageBlocks r1 exifData w1) as [r2 w2].
  rewrite replaceGPSTokens_blocks.
  destruct (runBlocks gpsBlocks r2 exifData w2) as [r3 w3].
  destruct (JS.matchAll TOKEN_REGEX _) as [unresolved|]; reflexivity.
Qed.

Lemma finishFilename_warnings (s : string) (w : list string)
  (originalFilename : string) (options : RenameOptions) :
  exists tail,
    warningsOf (finishFilename s w originalFilename options) = (w ++ tail)%list
    /\ (tail = [] \/ exists x, tail = [String "U" x]).
Proof.
  unfold finishFilename, warningsOf. cbv zeta.
  destruct (parseFilename originalFilename) as [originalName originalExt].
  destruct (JS.matchAll TOKEN_REGEX _) as [unresolved|]; cbn [warnings].
  - exists [("Unresolved tokens: " ++ JS.join ", " unresolved)%string].
    split; [|right; eexists; reflexivity].
    destruct (w ++ _)%list; reflexivity.
  - exists []. split; [|now left]. rewrite app_nil_r. now destruct w.
Qed.

(** A template in which the token of a block occurs, when that block puts
    in the text [r] and pushes the warnings [ws]: the token reaches the
    block, and the result is what the later blocks and the rest of
    [generateFilename] make of the string in which the block replaced
    every occurrence. *)
Lemma generateFilename_through_block (earlier later : list Block) (b : Block)
  (r : string) (ws : list string) (now : Date) (template : string)
  (e : option ExifData) (originalFilename : string) (options : RenameOptions) :
  allBlocks = (earlier ++ b :: later)%list ->
  ~ In (blockToken b) dateTokenTexts ->
  Forall (fun x => blockToken x <> blockToken b) earlier ->
  (forall s w, JS.includes s (blockToken b) = true ->
     runBlock b s e w = (JS.replace (JS.literal (blockToken b)) r s, (w ++ ws)%list)) ->
  JS.includes template (blockToken b) = true ->
  let date := match field e dateTaken with
              | Some d => d
              | None => match fallbackDate options with Some d => d | None => now end
              end in
  let reached := runBlocks earlier (replaceDateTokens template date) e [] in
  JS.includes (fst reached) (blockToken b) = true
  /\ generateFilename now template e originalFilename options
     = (let '(s, w) := runBlocks later
                         (JS.replace (JS.literal (blockToken b)) r (fst reached))
                         e (snd reached ++ ws)%list in
        finishFilename s w originalFilename options).
Proof.
  intros Hsplit Hnodate Hdistinct Hrun Hinc date reached.
  pose proof allBlocks_ok as Hok. rewrite Hsplit in Hok.
  apply Forall_app in Hok. destruct Hok as [Hearlier Hrest].
  apply Forall_cons_iff in Hrest. destruct Hrest as [[Htext _] _].
  assert (Hother : Forall (fun x => wellFormedBlock x /\ blockToken x <> blockToken b)
                     earlier).
  { rewrite Forall_forall in Hearlier, Hdistinct |- *.
    intros x Hx. split; [now apply Hearlier | now apply Hdistinct]. }
  assert (Hreached : JS.includes (fst reached) (blockToken b) = true).
  { unfold reached. apply runBlocks_keeps_token; [exact Htext | exact Hother |].
    now apply replaceDateTokens_keeps. }
  split; [exact Hreached|].
  rewrite generateFilename_stages. cbv zeta. fold date.
  rewrite Hsplit, runBlocks_app. fold reached.
  destruct reached as [r1 w1]. cbn [fst snd] in Hreached |- *.
  cbn [runBlocks]. unfold bind. now rewrite (Hrun r1 w1 Hreached).
Qed.

(** The warning of such a block occurs exactly once in the result, when no
    other block has the same warning. *)
Lemma generateFilename_block_warns_once (earlier later : list Block) (b : Block)
  (r m : string) (now : Date) (template : string)
  (e : option ExifData) (originalFilename : string) (options : RenameOptions) :
  allBlocks = (earlier ++ b :: later)%list ->
  ~ In (blockToken b) dateTokenTexts ->
  Forall (fun x => blockToken x <> blockToken b) earlier ->
  Forall (fun x => blockWarning x <> Some m) (earlier ++ later) ->
  (forall x, m <> String "U" x) ->
  (forall s w, JS.includes s (blockToken b) = true ->
     runBlock b s e w = (JS.replace (JS.literal (blockToken b)) r s, (w ++ [m])%list)) ->
  JS.includes template (blockToken b) = true ->
  occurrences m (warningsOf (generateFilename now template e originalFilename options))
  = 1.
Proof.
  intros Hsplit Hnodate Hdistinct Hsilent Hm Hrun Hinc.
  destruct (generateFilename_through_block earlier later b r [m] now template e
              originalFilename options Hsplit Hnodate Hdistinct Hrun Hinc)
    as [_ Heq].
  cbv zeta in Heq. rewrite Heq. clear Heq.
  pose proof allBlocks_ok as Hok. rewrite Hsplit in Hok.
  apply Forall_app in Hok. destruct Hok as [Hearlier Hrest].
  apply Forall_cons_iff in Hrest. destruct Hrest as [_ Hlater].
  apply Forall_app in Hsilent. destruct Hsilent as [Hs1 Hs2].
  assert (Hquiet : forall l, Forall wellFormedBlock l ->
                     Forall (fun x => blockWarning x <> Some m) l ->
                     Forall (fun x => wellFormedBlock x /\ blockWarning x <> Some m) l).
  { intros l H1 H2. rewrite Forall_forall in H1, H2 |- *.
    intros x Hx. split; [now apply H1 | now apply H2]. }
  match goal with
  | |- context [runBlocks later ?s0 e ?w0] =>
      pose proof (runBlocks_silent m later (Hquiet _ Hlater Hs2) s0 e w0) as Hcount;
      destruct (runBlocks later s0 e w0) as [s w]
  end.
  cbn [snd] in Hcount.
  destruct (finishFilename_warnings s w originalFilename options)
    as (tail & -> & Htail).
  rewrite occurrences_app, Hcount, occurrences_app.
  rewrite (runBlocks_silent m earlier (Hquiet _ Hearlier Hs1)).
  assert (Htail0 : occurrences m tail = 0).
  { destruct Htail as [-> | (x & ->)]; [reflexivity|].
    unfold occurrences. cbn [filter].
    destruct (String.eqb_spec m (String "U" x)) as [E|_]; [|reflexivity].
    now apply Hm in E. }
  rewrite Htail0. unfold occurrences. cbn [filter]. now rewrite String.eqb_refl.
Qed.

(** A template made of plain parts joined by one metadata token: the
    generated name is the parts joined by what the token's block puts in,
    and the warnings are those of that block. *)
Lemma generateFilename_one_token (earlier later : list Block) (b : Block)
  (name r : string) (ws : list string) (now : Date) (parts : list string)
  (e : option ExifData) (originalFilename : string) (options : RenameOptions) :
  allBlocks = (earlier ++ b :: later)%list ->
  blockToken b = "{" ++ name ++ "}" ->
  JS.forallb notBrace name = true ->
  forallb (fun P => clash P (blockToken b)) dateTokenTexts = true ->
  forallb (fun x => clash (blockToken x) (blockToken b)) earlier = true ->
  (forall s w, JS.includes s (blockToken b) = true ->
     runBlock b s e w = (JS.replace (JS.literal (blockToken b)) r s, (w ++ ws)%list)) ->
  noOpenBrace r = true -> noDollar r = true ->
  Forall (fun p => noOpenBrace p = true) parts ->
  2 <= List.length parts ->
  generateFilename now (JS.join (blockToken b) parts) e originalFilename options
  = {| filename :=
         (let ext := snd (parseFilename originalFilename) in
          if match preserveExtension options with Some p => p | None => true end
             && JS.truthyString ext
          then sanitizeForFilename (Some (JS.join r parts)) ++ "." ++ ext
          else sanitizeForFilename (Some (JS.join r parts)));
       success := true;
       warnings := match ws with [] => None | _ :: _ => Some ws end |}.
Proof.
  intros Hsplit Htok Hname Hdates Hclash Hrun Hr Hd Hparts Hlen.
  pose proof allBlocks_ok as Hok. rewrite Hsplit in Hok.
  apply Forall_app in Hok. destruct Hok as [Hearlier Hrest].
  apply Forall_cons_iff in Hrest. destruct Hrest as [_ Hlater].
  assert (Hother : Forall (fun x => wellFormedBlock x
                                    /\ clash (blockToken x) (blockToken b) = true)
                     earlier).
  { rewrite forallb_forall in Hclash. rewrite Forall_forall in Hearlier |- *.
    intros x Hx. split; [now apply Hearlier | now apply Hclash]. }
  assert (Honly : onlyToken (blockToken b) (JS.join (blockToken b) parts)).
  { rewrite Htok. now apply onlyToken_join. }
  assert (Hblocks : forall date,
             runBlocks allBlocks (replaceDateTokens (JS.join (blockToken b) parts) date)
               e []
             = (JS.join r parts, ws)).
  { intros date.
    rewrite (replaceDateTokens_other_token _ _ date Hdates Honly).
    rewrite Hsplit, runBlocks_app.
    rewrite (runBlocks_other_tokens _ _ _ e [] Hother Honly).
    cbn [runBlocks]. unfold bind.
    rewrite (Hrun _ [] (includes_join _ _ Hlen)). cbn [app].
    assert (Hjoin : JS.replace (JS.literal (blockToken b)) r
                      (JS.join (blockToken b) parts)
                    = JS.join r parts).
    { rewrite Htok. now apply replace_join. }
    rewrite Hjoin.
    apply runBlocks_without_brace; [exact Hlater | now apply noOpenBrace_join]. }
  unfold generateFilename.
  destruct (parseFilename originalFilename) as [originalName originalExt].
  cbn [snd].
  rewrite (substituteTokens_blocks_plain _ _ _ _ _ _ _ _ _ _ _ (Hblocks _)
             (noOpenBrace_join r parts Hr Hparts)).
  reflexivity.
Qed.

Ltac one_token n name r ws :=
  apply (generateFilename_one_token (firstn n allBlocks) (skipn (S n) allBlocks)
           _ name r ws);
  [ reflexivity | reflexivity | reflexivity | reflexivity | reflexivity
  | | reflexivity | reflexivity | assumption | assumption ].

(** C3. For each of the tokens make, model, lens, iso, aperture, shutter
    and focal, when the metadata record is absent or the token's field is
    null:

    - in a template where the token occurs, the token still occurs in the
      string that reaches its block, the block replaces every occurrence
      by the empty string and pushes the token's warning (of the form
      "... not available in EXIF data"), that warning occurs exactly
      once among the warnings of the result of [generateFilename], and
      that result is what the later blocks and the rest of
      [generateFilename] make of the string with the occurrences replaced
      and of the warnings with the token's warning appended;
    - for a template made of texts without an opening brace joined by the
      token (so the token occurs once or more, and nothing else is read
      as a token), [generateFilename] returns the sanitized concatenation
      of the texts, followed by the original extension when that is to be
      preserved, and the token's warning as its only warning.

    The orientation block puts in 1 when the field is absent and never
    pushes a warning; the result of [generateFilename] for a template in
    which the orientation token occurs is, whatever the metadata, what the
    GPS blocks and the rest of [generateFilename] make of the string with
    the occurrences replaced (by 1 unless the field holds a number other
    than 0) and of the warnings as they were; for a template made of such
    texts joined by the orientation token, [generateFilename] returns the
    sanitized texts joined by 1 when the field is absent, joined by the
    number's text when the field holds a number (whose text has no opening
    brace and no dollar sign), and in both cases no warnings at all. *)
Theorem missing_camera_field_warns_once :
  (forall (tok : CameraToken) (now : Date) (template : string)
          (exifData : option ExifData) (originalFilename : string)
          (options : RenameOptions),
      fieldAbsent tok exifData ->
      JS.includes template (blockToken (cameraBlockOf tok)) = true ->
      let date := match field exifData dateTaken with
                  | Some d => d
                  | None => match fallbackDate options with Some d => d | None => now end
                  end in
      let reached :=
        runBlocks (earlierBlocks tok) (replaceDateTokens template date) exifData [] in
      JS.includes (fst reached) (blockToken (cameraBlockOf tok)) = true
      /\ runBlock (cameraBlockOf tok) (fst reached) exifData (snd reached)
         = (JS.replace (JS.literal (blockToken (cameraBlockOf tok))) "" (fst reached),
            (snd reached ++ [cameraWarning tok])%list)
      /\ occurrences (cameraWarning tok)
           (warningsOf (generateFilename now template exifData originalFilename options))
         = 1
      /\ generateFilename now template exifData originalFilename options
         = (let '(s, w) :=
              runBlocks (laterBlocks tok ++ imageBlocks ++ gpsBlocks)
                (JS.replace (JS.literal (blockToken (cameraBlockOf tok))) "" (fst reached))
                exifData (snd reached ++ [cameraWarning tok])%list in
            finishFilename s w originalFilename options))
  /\ (forall (tok : CameraToken) (now : Date) (parts : list string)
             (exifData : option ExifData) (originalFilename : string)
             (options : RenameOptions),
         fieldAbsent tok exifData ->
         Forall (fun p => noOpenBrace p = true) parts ->
         2 <= List.length parts ->
         generateFilename now (JS.join (blockToken (cameraBlockOf tok)) parts) exifData
           originalFilename options
         = {| filename :=
                (let ext := snd (parseFilename originalFilename) in
                 if match preserveExtension options with Some p => p | None => true end
                    && JS.truthyString ext
                 then sanitizeForFilename (Some (JS.join "" parts)) ++ "." ++ ext
                 else sanitizeForFilename (Some (JS.join "" parts)));
              success := true;
              warnings := Some [cameraWarning tok] |})
  /\ (forall (result : string) (exifData : option ExifData) (w : list string),
         field exifData orientation = None ->
         JS.includes result "{orientation}" = true ->
         replaceOrientation result exifData w
         = (JS.replace (JS.literal "{orientation}") "1" result, w))
  /\ (forall (result : string) (exifData : option ExifData) (w : list string),
         snd (replaceOrientation result exifData w) = w)
  /\ (forall (now : Date) (template : string) (exifData : option ExifData)
             (originalFilename : string) (options : RenameOptions),
         JS.includes template "{orientation}" = true ->
         let date := match field exifData dateTaken with
                     | Some d => d
                     | None => match fallbackDate options with Some d => d | None => now end
                     end in
         let reached :=
           runBlocks (cameraBlocks ++ [widthBlock; heightBlock; dimensionsBlock])
             (replaceDateTokens template date) exifData [] in
         let text := match JS.truthyNum (field exifData orientation) with
                     | Some value => JS.Number_toString value
                     | None => "1"
                     end in
         JS.includes (fst reached) "{orientation}" = true
         /\ generateFilename now template exifData originalFilename options
            = (let '(s, w) :=
                 runBlocks gpsBlocks
                   (JS.replace (JS.literal "{orientation}") text (fst reached))
                   exifData (snd reached) in
               finishFilename s w originalFilename options))
  /\ (forall (now : Date) (parts : list string) (exifData : option ExifData)
             (originalFilename : string) (options : RenameOptions),
         field exifData orientation = None ->
         Forall (fun p => noOpenBrace p = true) parts ->
         2 <= List.length parts ->
         generateFilename now (JS.join "{orientation}" parts) exifData
           originalFilename options
         = {| filename :=
                (let ext := snd (parseFilename originalFilename) in
                 if match preserveExtension options with Some p => p | None => true end
                    && JS.truthyString ext
                 then sanitizeForFilename (Some (JS.join "1" parts)) ++ "." ++ ext
                 else sanitizeForFilename (Some (JS.join "1" parts)));
              success := true;
              warnings := None |})
  /\ (forall (now : Date) (parts : list string) (exifData : option ExifData)
             (value : float) (originalFilename : string) (options : RenameOptions),
         JS.truthyNum (field exifData orientation) = Some value ->
         noOpenBrace (JS.Number_toString value) = true ->
         noDollar (JS.Number_toString value) = true ->
         Forall (fun p => noOpenBrace p = true) parts ->
         2 <= List.length parts ->
         generateFilename now (JS.join "{orientation}" parts) exifData
           originalFilename options
         = {| filename :=
                (let ext := snd (parseFilename originalFilename) in
                 if match preserveExtension options with Some p => p | None => true end
                    && JS.truthyString ext
                 then sanitizeForFilename (Some (JS.join (JS.Number_toString value) parts))
                      ++ "." ++ ext
                 else sanitizeForFilename (Some (JS.join (JS.Number_toString value) parts)));
              success := true;
              warnings := None |}).
Proof.
  split; [|split; [|split; [|split; [|split; [|split]]]]].
  - intros tok now template exifData originalFilename options Habsent Hinc date reached.
    destruct (cameraBlockOf_token tok) as [Htext Hnodate].
    assert (Hreached : JS.includes (fst reached) (blockToken (cameraBlockOf tok)) = true).
    { unfold reached. apply runBlocks_keeps_token;
        [exact Htext | apply earlierBlocks_other |].
      now apply replaceDateTokens_keeps. }
    assert (Hblock := cameraBlock_missing tok (fst reached) exifData (snd reached)
                        Habsent Hreached).
    assert (Hsplit : allBlocks
                     = (earlierBlocks tok
                        ++ cameraBlockOf tok :: laterBlocks tok ++ imageBlocks ++ gpsBlocks)%list).
    { unfold allBlocks. now rewrite (cameraBlocks_split tok), <- app_assoc. }
    assert (Hdistinct : Forall (fun x => blockToken x <> blockToken (cameraBlockOf tok))
                          (earlierBlocks tok)).
    { apply (Forall_impl _ (fun x H => proj2 H) (earlierBlocks_other tok)). }
    assert (Hpipe := proj2 (generateFilename_through_block (earlierBlocks tok)
                              (laterBlocks tok ++ imageBlocks ++ gpsBlocks)
                              (cameraBlockOf tok) "" [cameraWarning tok] now template
                              exifData originalFilename options Hsplit Hnodate Hdistinct
                              (fun s w => cameraBlock_missing tok s exifData w Habsent)
                              Hinc)).
    split; [exact Hreached | split; [exact Hblock | split; [|exact Hpipe]]].
    (* the warnings of the result *)
    assert (Hws : warningsOf (generateFilename now template exifData originalFilename
                                options)
                  = snd (substituteTokens template exifData date
                           (match counter options with Some c => c | None => 1%float end)
                           (match counterPadding options with Some p => p | None => 3%float end)
                           (match customText options with Some t => t | None => "" end)
                           (fst (parseFilename originalFilename))
                           (snd (parseFilename originalFilename)) [])).
    { unfold warningsOf, generateFilename. fold date.
      destruct (parseFilename originalFilename) as [originalName originalExt].
      cbn [fst snd].
      destruct (substituteTokens _ _ _ _ _ _ _ _ _) as [name [|x ws]]; reflexivity. }
    rewrite Hws.
    destruct (substituteTokens_warnings template exifData date
                (match counter options with Some c => c | None => 1%float end)
                (match counterPadding options with Some p => p | None => 3%float end)
                (match customText options with Some t => t | None => "" end)
                (fst (parseFilename originalFilename))
                (snd (parseFilename originalFilename))) as (tail & -> & Htail).
    rewrite occurrences_app.
    assert (Htail0 : occurrences (cameraWarning tok) tail = 0).
    { destruct Htail as [-> | (x & ->)]; [reflexivity|]. now destruct tok. }
    rewrite Htail0, Nat.add_0_r.
    rewrite (cameraBlocks_split tok), <- app_assoc, runBlocks_app.
    fold reached. destruct reached as [r1 w1] eqn:Ereached.
    cbn [fst snd] in Hblock. cbn [app runBlocks]. unfold bind at 1.
    rewrite Hblock.
    rewrite (runBlocks_silent _ _ (laterBlocks_silent tok)).
    rewrite occurrences_app.
    assert (Hw1 : occurrences (cameraWarning tok) w1 = 0).
    { change w1 with (snd (r1, w1)). rewrite <- Ereached. unfold reached.
      now rewrite (runBlocks_silent _ _ (earlierBlocks_silent tok)). }
    rewrite Hw1. now destruct tok.
  - intros tok now parts exifData originalFilename options Habsent Hparts Hlen.
    assert (Hblock := fun s w => cameraBlock_missing tok s exifData w Habsent).
    destruct tok;
      [ one_token 0 "make" "" ["Camera make not available in EXIF data"]
      | one_token 1 "model" "" ["Camera model not available in EXIF data"]
      | one_token 2 "lens" "" ["Lens model not available in EXIF data"]
      | one_token 3 "iso" "" ["ISO not available in EXIF data"]
      | one_token 4 "aperture" "" ["Aperture not available in EXIF data"]
      | one_token 5 "shutter" "" ["Shutter speed not available in EXIF data"]
      | one_token 6 "focal" "" ["Focal length not available in EXIF data"] ];
      exact Hblock.
  - intros result exifData w Habsent Hinc. unfold replaceOrientation.
    now rewrite Hinc, Habsent.
  - intros result exifData w. unfold replaceOrientation.
    destruct (JS.includes result "{orientation}"); [|reflexivity].
    destruct (JS.truthyNum (field exifData orientation)); reflexivity.
  - intros now template exifData originalFilename options Hinc date reached text.
    assert (Hblock : forall s w, JS.includes s (blockToken orientationBlock) = true ->
                       runBlock orientationBlock s exifData w
                       = (JS.replace (JS.literal (blockToken orientationBlock)) text s,
                          (w ++ [])%list)).
    { intros s w Hs. cbn [runBlock orientationBlock blockToken] in Hs |- *.
      unfold replaceOrientation, text. rewrite Hs.
      destruct (JS.truthyNum (field exifData orientation));
        unfold ret; now rewrite app_nil_r. }
    destruct (generateFilename_through_block
                (cameraBlocks ++ [widthBlock; heightBlock; dimensionsBlock])
                gpsBlocks orientationBlock text [] now template exifData
                originalFilename options eq_refl) as [Hreached Hpipe];
      [ cbn; intros H; repeat (destruct H as [H | H]; [discriminate H|]); exact H
      | cbv [cameraBlocks app];
        repeat first [ apply Forall_nil | apply Forall_cons; [cbn; discriminate|] ]
      | exact Hblock
      | exact Hinc
      | ].
    cbv zeta in Hreached, Hpipe. fold date in Hreached, Hpipe.
    fold reached in Hreached, Hpipe. rewrite app_nil_r in Hpipe.
    split; [exact Hreached | exact Hpipe].
  - intros now parts exifData originalFilename options Habsent Hparts Hlen.
    change "{orientation}" with (blockToken orientationBlock).
    one_token 10 "orientation" "1" (@nil string).
    intros s w Hinc. cbn [runBlock orientationBlock blockToken] in Hinc |- *.
    unfold replaceOrientation. rewrite Hinc, Habsent. cbn [JS.truthyNum].
    unfold ret. now rewrite app_nil_r.
  - intros now parts exifData value originalFilename options Hvalue Hopen Hdollar
      Hparts Hlen.
    change "{orientation}" with (blockToken orientationBlock).
    apply (generateFilename_one_token (firstn 10 allBlocks) (skipn 11 allBlocks)
             _ "orientation" (JS.Number_toString value) (@nil string));
      [ reflexivity | reflexivity | reflexivity | reflexivity | reflexivity
      | | exact Hopen | exact Hdollar | exact Hparts | exact Hlen ].
    intros s w Hinc. cbn [runBlock orientationBlock blockToken] in Hinc |- *.
    unfold replaceOrientation. rewrite Hinc, Hvalue.
    unfold ret. now rewrite app_nil_r.
Qed.

End MissingData.

Lemma missing_camera_field_warns_once_witness :
  fieldAbsent TokenModel (Some sampleExif)
  /\ Forall (fun p => noOpenBrace p = true) ["shot <"; "> "; "_x"]
  /\ 2 <= List.length ["shot <"; "> "; "_x"]
  /\ generateFilename (engine := sampleEngine) sampleDate "shot <{model}> {model}_x"
       (Some sampleExif) "IMG_0001.JPG" noOptions
     = {| filename := "shot_x.JPG"; success := true;
          warnings := Some ["Camera model not available in EXIF data"] |}.
Proof.
  assert (Hparts : Forall (fun p => noOpenBrace p = true) ["shot <"; "> "; "_x"]).
  { repeat constructor. }
  assert (Hlen : 2 <= List.length ["shot <"; "> "; "_x"]).
  { cbn [List.length]. lia. }
  split; [reflexivity | split; [exact Hparts | split; [exact Hlen|]]].
  exact (proj1 (proj2 (missing_camera_field_warns_once (engine := sampleEngine)))
           TokenModel sampleDate ["shot <"; "> "; "_x"] (Some sampleExif)
           "IMG_0001.JPG" noOptions eq_refl Hparts Hlen).
Defined.

(** A template whose model token finds no model: empty substitution and
    the warning. *)
Example generateFilename_missing_model_sample :
  generateFilename (engine := sampleEngine) sampleDate "{model}_{counter}"
    (Some sampleExif) "IMG_0001.JPG" noOptions
  = {| filename := "_001.JPG"; success := true;
       warnings := Some ["Camera model not available in EXIF data"] |}.
Proof. vm_compute. reflexivity. Qed.

(** The orientation token: 1 when the field is absent, the number when it
    is there, and no warning either way. *)
Definition sampleRotated : ExifData :=
  {| make := None; model := None; lensModel := None; dateTaken := None;
     exposureTime := None; fNumber := None; iso := None; focalLength := None;
     width := None; height := None; orientation := Some 6%float; gps := None |}.

Example generateFilename_orientation_sample :
  generateFilename (engine := sampleEngine) sampleDate "rot{orientation}"
    (Some sampleExif) "IMG_0001.JPG" noOptions
  = {| filename := "rot1.JPG"; success := true; warnings := None |}
  /\ generateFilename (engine := sampleEngine) sampleDate "rot{orientation}"
       (Some sampleRotated) "IMG_0001.JPG" noOptions
     = {| filename := "rot6.JPG"; success := true; warnings := None |}.
Proof. split; vm_compute; reflexivity. Qed.

(** ** A numeric field that is 0 counts as absent *)

(** A nullable number, made absent when it equals 0. *)
Definition nonZero (v : option float) : option float :=
  match v with
  | Some x => if PrimFloat.is_zero x then None else Some x
  | None => None
  end.

Definition nonZeroExposure (v : option ExposureTime) : option ExposureTime :=
  match v with
  | Some (ExposureNumber x) => if PrimFloat.is_zero x then None else v
  | _ => v
  end.

(** The record with every nullable numeric field that equals 0 made
    absent.  (The latitude and longitude of [GPSData] are not nullable.) *)
Definition absentWhereZero (e : ExifData) : ExifData :=
  {| make := make e;
     model := model e;
     lensModel := lensModel e;
     dateTaken := dateTaken e;
     exposureTime := nonZeroExposure (exposureTime e);
     fNumber := nonZero (fNumber e);
     iso := nonZero (iso e);
     focalLength := nonZero (focalLength e);
     width := nonZero (width e);
     height := nonZero (height e);
     orientation := orientation e;
     gps := gps e |}.

Lemma truthyNum_nonZero (v : option float) : JS.truthyNum (nonZero v) = JS.truthyNum v.
Proof.
  destruct v as [x|]; [|reflexivity]. unfold nonZero.
  destruct (PrimFloat.is_zero x) eqn:E; [|reflexivity].
  unfold JS.truthyNum, JS.truthyNumber. now rewrite E, orb_true_r.
Qed.

Lemma runBlocks_ext (e1 e2 : option ExifData) (blocks : list Block) :
  Forall (fun b => forall s w, runBlock b s e1 w = runBlock b s e2 w) blocks ->
  forall s w, runBlocks blocks s e1 w = runBlocks blocks s e2 w.
Proof.
  intros Hall. induction Hall as [|b blocks Hb _ IH]; intros s w; simpl; [reflexivity|].
  unfold bind. rewrite Hb. destruct (runBlock b s e2 w) as [r w']. apply IH.
Qed.

Section ZeroIsAbsent.

Context {engine : JS.Engine}.

Lemma truthyExposure_nonZero (v : option ExposureTime) :
  truthyExposure (nonZeroExposure v) = truthyExposure v.
Proof.
  destruct v as [[x|s]|]; try reflexivity. unfold nonZeroExposure.
  destruct (PrimFloat.is_zero x) eqn:E; [|reflexivity].
  unfold truthyExposure, JS.truthyNumber. now rewrite E, orb_true_r.
Qed.

Ltac same_block :=
  intros s w;
  cbv delta [makeBlock modelBlock lensBlock isoBlock apertureBlock shutterBlock
             focalBlock widthBlock heightBlock dimensionsBlock orientationBlock
             latBlock lngBlock gpsBlock];
  cbn [runBlock];
  cbv delta [replaceMake replaceModel replaceLens replaceIso replaceAperture
             replaceShutter replaceFocal replaceWidth replaceHeight
             replaceDimensions replaceOrientation replaceLat replaceLng replaceGps
             gpsLat gpsLng];
  cbv beta;
  cbn [field absentWhereZero make model lensModel dateTaken exposureTime fNumber iso
       focalLength width height orientation gps];
  rewrite ?truthyNum_nonZero, ?truthyExposure_nonZero; reflexivity.

Lemma blocks_ignore_zero (e : ExifData) :
  Forall (fun b => forall s w,
              runBlock b s (Some e) w = runBlock b s (Some (absentWhereZero e)) w)
    (cameraBlocks ++ imageBlocks ++ gpsBlocks).
Proof.
  cbn [cameraBlocks imageBlocks gpsBlocks app].
  repeat first [ apply Forall_nil | apply Forall_cons; [same_block|] ].
Qed.

Lemma substituteTokens_ignores_zero (template : string) (e : ExifData) (date : Date)
  (counter counterPadding : float) (customText originalName originalExt : string)
  (w : list string) :
  substituteTokens template (Some e) date counter counterPadding customText
    originalName originalExt w
  = substituteTokens template (Some (absentWhereZero e)) date counter counterPadding
      customText originalName originalExt w.
Proof.
  pose proof (blocks_ignore_zero e) as Hall.
  apply Forall_app in Hall. destruct Hall as [Hcam Hrest].
  apply Forall_app in Hrest. destruct Hrest as [Himg Hgps].
  unfold substituteTokens. cbv zeta. unfold bind.
  rewrite !replaceCameraTokens_blocks, (runBlocks_ext _ _ _ Hcam).
  destruct (runBlocks cameraBlocks _ _ w) as [r1 w1].
  rewrite !replaceImageTokens_blocks, (runBlocks_ext _ _ _ Himg).
  destruct (runBlocks imageBlocks _ _ w1) as [r2 w2].
  rewrite !replaceGPSTokens_blocks, (runBlocks_ext _ _ _ Hgps).
  reflexivity.
Qed.

(** The tokens that read a numeric metadata field. *)
Inductive NumericToken :=
| NumIso | NumAperture | NumFocal | NumWidth | NumHeight | NumLat | NumLng | NumShutter.

Definition numericBlockOf (tok : NumericToken) : Block :=
  match tok with
  | NumIso => isoBlock
  | NumAperture => apertureBlock
  | NumFocal => focalBlock
  | NumWidth => widthBlock
  | NumHeight => heightBlock
  | NumLat => latBlock
  | NumLng => lngBlock
  | NumShutter => shutterBlock
  end.

Definition numericWarning (tok : NumericToken) : string :=
  match blockWarning (numericBlockOf tok) with
  | Some m => m
  | None => ""
  end.

(** The field of the token is present and equal to 0. *)
Definition fieldZero (tok : NumericToken) (e : ExifData) : Prop :=
  match tok with
  | NumIso => iso e = Some 0%float
  | NumAperture => fNumber e = Some 0%float
  | NumFocal => focalLength e = Some 0%float
  | NumWidth => width e = Some 0%float
  | NumHeight => height e = Some 0%float
  | NumLat => exists g, gps e = Some g /\ lat g = 0%float
  | NumLng => exists g, gps e = Some g /\ lng g = 0%float
  | NumShutter => exposureTime e = Some (ExposureNumber 0%float)
  end.

(** The position of the token's block among the metadata blocks. *)
Definition numericPosition (tok : NumericToken) : nat :=
  match tok with
  | NumIso => 3
  | NumAperture => 4
  | NumShutter => 5
  | NumFocal => 6
  | NumWidth => 7
  | NumHeight => 8
  | NumLat => 11
  | NumLng => 12
  end.

Lemma numericPosition_block (tok : NumericToken) :
  allBlocks
  = (firstn (numericPosition tok) allBlocks
     ++ numericBlockOf tok :: skipn (S (numericPosition tok)) allBlocks)%list.
Proof. destruct tok; reflexivity. Qed.

Lemma numericBlockOf_no_date (tok : NumericToken) :
  ~ In (blockToken (numericBlockOf tok)) dateTokenTexts.
Proof.
  destruct tok; cbn; intros H;
    repeat (destruct H as [H | H]; [discriminate H|]); exact H.
Qed.

Lemma numericBlock_distinct (tok : NumericToken) :
  Forall (fun x => blockToken x <> blockToken (numericBlockOf tok))
    (firstn (numericPosition tok) allBlocks).
Proof.
  destruct tok;
    cbv [numericPosition firstn allBlocks cameraBlocks imageBlocks gpsBlocks app];
    repeat first [ apply Forall_nil | apply Forall_cons; [cbn; discriminate|] ].
Qed.

Lemma numericBlock_only_warning (tok : NumericToken) :
  Forall (fun x => blockWarning x <> Some (numericWarning tok))
    (firstn (numericPosition tok) allBlocks
     ++ skipn (S (numericPosition tok)) allBlocks).
Proof.
  destruct tok;
    cbv [numericPosition firstn skipn allBlocks cameraBlocks imageBlocks gpsBlocks app];
    repeat first [ apply Forall_nil | apply Forall_cons; [cbn; discriminate|] ].
Qed.

Lemma numericBlock_zero (tok : NumericToken) (result : string) (e : ExifData)
  (w : list string) :
  fieldZero tok e ->
  JS.includes result (blockToken (numericBlockOf tok)) = true ->
  runBlock (numericBlockOf tok) result (Some e) w
  = (JS.replace (JS.literal (blockToken (numericBlockOf tok))) "" result,
     (w ++ [numericWarning tok])%list).
Proof.
  intros Hzero Hinc.
  destruct tok; cbn in Hinc, Hzero |- *;
    cbv delta [replaceIso replaceAperture replaceFocal replaceWidth replaceHeight
               replaceLat replaceLng replaceShutter gpsLat gpsLng]; cbv beta;
    rewrite Hinc; cbn [field];
    try (destruct Hzero as (g & Hg & Hzero); rewrite Hg; cbn [option_map]);
    rewrite Hzero; reflexivity.
Qed.

Lemma numericBlock_no_record (tok : NumericToken) (result : string) (w : list string) :
  JS.includes result (blockToken (numericBlockOf tok)) = true ->
  runBlock (numericBlockOf tok) result None w
  = (JS.replace (JS.literal (blockToken (numericBlockOf tok))) "" result,
     (w ++ [numericWarning tok])%list).
Proof.
  intros Hinc.
  destruct tok; cbn in Hinc |- *;
    cbv delta [replaceIso replaceAperture replaceFocal replaceWidth replaceHeight
               replaceLat replaceLng replaceShutter gpsLat gpsLng]; cbv beta;
    rewrite Hinc; reflexivity.
Qed.

(** A template made of plain texts joined by a numeric token whose block
    puts in the empty string and pushes the token's warning. *)
Lemma generateFilename_numeric_token (tok : NumericToken) (now : Date)
  (parts : list string) (exifData : option ExifData) (originalFilename : string)
  (options : RenameOptions) :
  (forall s w, JS.includes s (blockToken (numericBlockOf tok)) = true ->
     runBlock (numericBlockOf tok) s exifData w
     = (JS.replace (JS.literal (blockToken (numericBlockOf tok))) "" s,
        (w ++ [numericWarning tok])%list)) ->
  Forall (fun p => noOpenBrace p = true) parts ->
  2 <= List.length parts ->
  generateFilename now (JS.join (blockToken (numericBlockOf tok)) parts) exifData
    originalFilename options
  = {| filename :=
         (let ext := snd (parseFilename originalFilename) in
          if match preserveExtension options with Some p => p | None => true end
             && JS.truthyString ext
          then sanitizeForFilename (Some (JS.join "" parts)) ++ "." ++ ext
          else sanitizeForFilename (Some (JS.join "" parts)));
       success := true;
       warnings := Some [numericWarning tok] |}.
Proof.
  intros Hblock Hparts Hlen.
  destruct tok;
    [ apply (generateFilename_one_token (firstn 3 allBlocks) (skipn 4 allBlocks)
               _ "iso" "" ["ISO not available in EXIF data"])
    | apply (generateFilename_one_token (firstn 4 allBlocks) (skipn 5 allBlocks)
               _ "aperture" "" ["Aperture not available in EXIF data"])
    | apply (generateFilename_one_token (firstn 6 allBlocks) (skipn 7 allBlocks)
               _ "focal" "" ["Focal length not available in EXIF data"])
    | apply (generateFilename_one_token (firstn 7 allBlocks) (skipn 8 allBlocks)
               _ "width" "" ["Image width not available"])
    | apply (generateFilename_one_token (firstn 8 allBlocks) (skipn 9 allBlocks)
               _ "height" "" ["Image height not available"])
    | apply (generateFilename_one_token (firstn 11 allBlocks) (skipn 12 allBlocks)
               _ "lat" "" ["GPS latitude not available"])
    | apply (generateFilename_one_token (firstn 12 allBlocks) (skipn 13 allBlocks)
               _ "lng" "" ["GPS longitude not available"])
    | apply (generateFilename_one_token (firstn 5 allBlocks) (skipn 6 allBlocks)
               _ "shutter" "" ["Shutter speed not available in EXIF data"]) ];
    first [ reflexivity | assumption ].
Qed.

(** C10.  Metadata presence is tested by truthiness.  For each of the
    tokens iso, aperture, focal, width, height, lat, lng and shutter, a
    field that is present and equal to 0 (for lat and lng: of a GPS record
    that is present) is treated as an absent one:

    - the token's block replaces every occurrence by the empty string and
      pushes the token's "not available" warning;
    - for the nullable fields the whole result of [generateFilename] is
      the one obtained with those fields absent;
    - in a template where the token occurs, the token still occurs in the
      string that reaches its block, the result of [generateFilename] is
      what the later blocks and the rest of [generateFilename] make of
      the string with the occurrences replaced by the empty string and of
      the warnings with the token's warning appended, and that warning
      occurs exactly once among the warnings of the result;
    - for a template made of texts without an opening brace joined by the
      token, [generateFilename] returns the sanitized concatenation of the
      texts, followed by the original extension when that is to be
      preserved, and the token's warning as its only warning;
    - and that is the result for the same template when there is no
      metadata record at all. *)
Theorem zero_field_treated_as_absent :
  (forall (tok : NumericToken) (result : string) (e : ExifData) (w : list string),
      fieldZero tok e ->
      JS.includes result (blockToken (numericBlockOf tok)) = true ->
      runBlock (numericBlockOf tok) result (Some e) w
      = (JS.replace (JS.literal (blockToken (numericBlockOf tok))) "" result,
         (w ++ [numericWarning tok])%list))
  /\ (forall (now : Date) (template : string) (e : ExifData)
             (originalFilename : string) (options : RenameOptions),
         generateFilename now template (Some e) originalFilename options
         = generateFilename now template (Some (absentWhereZero e)) originalFilename
             options)
  /\ (forall (tok : NumericToken) (now : Date) (template : string) (e : ExifData)
             (originalFilename : string) (options : RenameOptions),
         fieldZero tok e ->
         JS.includes template (blockToken (numericBlockOf tok)) = true ->
         let date := match field (Some e) dateTaken with
                     | Some d => d
                     | None => match fallbackDate options with Some d => d | None => now end
                     end in
         let reached :=
           runBlocks (firstn (numericPosition tok) allBlocks)
             (replaceDateTokens template date) (Some e) [] in
         JS.includes (fst reached) (blockToken (numericBlockOf tok)) = true
         /\ generateFilename now template (Some e) originalFilename options
            = (let '(s, w) :=
                 runBlocks (skipn (S (numericPosition tok)) allBlocks)
                   (JS.replace (JS.literal (blockToken (numericBlockOf tok))) ""
                      (fst reached))
                   (Some e) (snd reached ++ [numericWarning tok])%list in
               finishFilename s w originalFilename options)
         /\ occurrences (numericWarning tok)
              (warningsOf (generateFilename now template (Some e) originalFilename
                             options))
            = 1)
  /\ (forall (tok : NumericToken) (now : Date) (parts : list string) (e : ExifData)
             (originalFilename : string) (options : RenameOptions),
         fieldZero tok e ->
         Forall (fun p => noOpenBrace p = true) parts ->
         2 <= List.length parts ->
         generateFilename now (JS.join (blockToken (numericBlockOf tok)) parts) (Some e)
           originalFilename options
         = {| filename :=
                (let ext := snd (parseFilename originalFilename) in
                 if match preserveExtension options with Some p => p | None => true end
                    && JS.truthyString ext
                 then sanitizeForFilename (Some (JS.join "" parts)) ++ "." ++ ext
                 else sanitizeForFilename (Some (JS.join "" parts)));
              success := true;
              warnings := Some [numericWarning tok] |})
  /\ (forall (tok : NumericToken) (now : Date) (parts : list string) (e : ExifData)
             (originalFilename : string) (options : RenameOptions),
         fieldZero tok e ->
         Forall (fun p => noOpenBrace p = true) parts ->
         2 <= List.length parts ->
         generateFilename now (JS.join (blockToken (numericBlockOf tok)) parts) (Some e)
           originalFilename options
         = generateFilename now (JS.join (blockToken (numericBlockOf tok)) parts) None
             originalFilename options).
Proof.
  split; [|split; [|split; [|split]]].
  - intros tok result e w Hzero Hinc. now apply numericBlock_zero.
  - intros now template e originalFilename options.
    unfold generateFilename. cbn [field absentWhereZero dateTaken].
    destruct (parseFilename originalFilename) as [originalName originalExt].
    now rewrite substituteTokens_ignores_zero.
  - intros tok now template e originalFilename options Hzero Hinc date reached.
    assert (Hblock := fun s w => numericBlock_zero tok s e w Hzero).
    destruct (generateFilename_through_block _ _ _ "" [numericWarning tok] now template
                (Some e) originalFilename options (numericPosition_block tok)
                (numericBlockOf_no_date tok) (numericBlock_distinct tok) Hblock Hinc)
      as [Hreached Hpipe].
    split; [exact Hreached | split; [exact Hpipe|]].
    apply (generateFilename_block_warns_once _ _ _ "" (numericWarning tok) now template
             (Some e) originalFilename options (numericPosition_block tok)
             (numericBlockOf_no_date tok) (numericBlock_distinct tok)
             (numericBlock_only_warning tok));
      [ intros x; destruct tok; discriminate | exact Hblock | exact Hinc ].
  - intros tok now parts e originalFilename options Hzero Hparts Hlen.
    apply generateFilename_numeric_token; [|exact Hparts | exact Hlen].
    intros s w Hinc. now apply numericBlock_zero.
  - intros tok now parts e originalFilename options Hzero Hparts Hlen.
    rewrite (generateFilename_numeric_token tok now parts (Some e));
      [ rewrite (generateFilename_numeric_token tok now parts None);
        [ reflexivity | | exact Hparts | exact Hlen ]
      | | exact Hparts | exact Hlen ].
    + intros s w Hinc. now apply numericBlock_no_record.
    + intros s w Hinc. now apply numericBlock_zero.
Qed.

End ZeroIsAbsent.

Lemma zero_field_treated_as_absent_witness :
  fieldZero NumLat sampleExif
  /\ Forall (fun p => noOpenBrace p = true) ["at "; " north"]
  /\ 2 <= List.length ["at "; " north"]
  /\ generateFilename (engine := sampleEngine) sampleDate "at {lat} north"
       (Some sampleExif) "IMG_0001.JPG" noOptions
     = {| filename := "at_north.JPG"; success := true;
          warnings := Some ["GPS latitude not available"] |}.
Proof.
  assert (Hzero : fieldZero NumLat sampleExif).
  { exists {| lat := 0; lng := 12.5; altitude := None |}. split; reflexivity. }
  assert (Hparts : Forall (fun p => noOpenBrace p = true) ["at "; " north"]).
  { repeat constructor. }
  assert (Hlen : 2 <= List.length ["at "; " north"]).
  { cbn [List.length]. lia. }
  split; [exact Hzero | split; [exact Hparts | split; [exact Hlen|]]].
  exact (proj1 (proj2 (proj2 (proj2
                  (zero_field_treated_as_absent (engine := sampleEngine)))))
           NumLat sampleDate ["at "; " north"] sampleExif "IMG_0001.JPG" noOptions
           Hzero Hparts Hlen).
Defined.

(** Latitude exactly 0 (the equator) and focal length 0: both tokens come
    out empty, each with its warning. *)
Example generateFilename_zero_fields_sample :
  generateFilename (engine := sampleEngine) sampleDate "{lat}_{lng}_{focal}"
    (Some sampleExif) "IMG_0001.JPG" noOptions
  = {| filename := "_12.500000_.JPG"; success := true;
       warnings := Some ["Focal length not available in EXIF data";
                         "GPS latitude not available"] |}.
Proof. vm_compute. reflexivity. Qed.

(** * Further properties of the rename engine and the archive assembler *)

(** ** Splitting a file name *)

Lemma lastIndexOf_split (c : ascii) (s : string) (i : nat) :
  JS.lastIndexOf c s = Some i ->
  s = JS.take i s ++ String c (JS.drop (i + 1) s)
  /\ JS.forallb (fun x => negb (Ascii.eqb x c)) (JS.drop (i + 1) s) = true.
Proof.
  revert i; induction s as [|a s IH]; intros i; simpl; [discriminate|].
  destruct (JS.lastIndexOf c s) as [j|] eqn:Hlast.
  - intros [= <-]. destruct (IH j eq_refl) as [Hs Hno]. simpl. split.
    + f_equal. exact Hs.
    + exact Hno.
  - destruct (Ascii.eqb_spec a c) as [-> | Hne]; [|discriminate].
    intros [= <-]. simpl. split; [reflexivity|].
    clear IH. induction s as [|b s IHs]; simpl in *; [reflexivity|].
    destruct (JS.lastIndexOf c s) as [j|]; [discriminate|].
    destruct (Ascii.eqb b c); [discriminate|]. simpl. now apply IHs.
Qed.

(** X1.  [parseFilename] loses nothing but the dot it splits at: either the
    name is the whole file name and the extension is empty (no dot, or
    the only dot is the first character), or the file name is the name, a
    dot and the extension, with a non-empty name.  The extension never
    contains a dot.  (A trailing dot, as in [photo.], gives an empty
    extension and a name without the dot.) *)
Theorem parseFilename_reassembles (filename : string) :
  let name := fst (parseFilename filename) in
  let ext := snd (parseFilename filename) in
  ((name = filename /\ ext = "") \/ (filename = name ++ "." ++ ext /\ name <> ""))
  /\ JS.forallb (fun x => negb (Ascii.eqb x ".")) ext = true.
Proof.
  unfold parseFilename.
  destruct (JS.lastIndexOf "." filename) as [[|i]|] eqn:Hlast; cbn [fst snd].
  - split; [left; split; reflexivity | reflexivity].
  - destruct (lastIndexOf_split _ _ _ Hlast) as [Hs Hno]. split; [|exact Hno].
    right. split; [exact Hs|].
    destruct filename as [|a filename]; [discriminate | discriminate].
  - split; [left; split; reflexivity | reflexivity].
Qed.

(** X2.  [parseFilename] and [getFileExtension] disagree on a file name whose
    only dot is its first character: the rename engine sees no extension
    (and so appends none), while the archive assembler classifies the
    file by the text after the dot. *)
Theorem dot_file_extension_disagreement (ext : string) :
  JS.forallb (fun x => negb (Ascii.eqb x ".")) ext = true ->
  parseFilename ("." ++ ext) = ("." ++ ext, "")
  /\ getFileExtension ("." ++ ext) = JS.toLowerCase ext.
Proof.
  intros Hext.
  assert (Hlast : JS.lastIndexOf "." ("." ++ ext) = Some 0).
  { exact (lastIndexOf_last "." "" ext Hext). }
  unfold parseFilename, getFileExtension. rewrite Hlast. split; reflexivity.
Qed.

Lemma dot_file_extension_disagreement_witness :
  parseFilename ".jpg" = (".jpg", "") /\ getFileExtension ".jpg" = "jpg".
Proof.
  exact (dot_file_extension_disagreement "jpg" eq_refl).
Defined.

(** ** Token validity and positions *)

(** X3.  A token of the form [counter:d] is valid exactly when [d] is a
    non-empty string of decimal digits; in particular [counter:] and
    [counter:x] are invalid, and any padding width is accepted. *)
Theorem isValidToken_counter_padding (d : string) :
  isValidToken ("counter:" ++ d) = true
  <-> (d <> "" /\ JS.forallb JS.isDigit d = true).
Proof.
  unfold isValidToken.
  assert (Hpat : isCounterWithPadding ("counter:" ++ d)
                 = JS.truthyString d && JS.forallb JS.isDigit d).
  { unfold isCounterWithPadding. now rewrite stripPrefix_append. }
  rewrite Hpat.
  destruct (TEMPLATE_TOKENS_has ("{" ++ ("counter:" ++ d) ++ "}")) eqn:Hcat.
  - (* the only such catalogue entry is [{counter:5}] *)
    unfold TEMPLATE_TOKENS_has in Hcat. apply existsb_exists in Hcat.
    destruct Hcat as (key & Hin & Heq). apply String.eqb_eq in Heq. subst key.
    unfold TEMPLATE_TOKENS in Hin. cbn [In] in Hin.
    assert (Hd : d = "5").
    { repeat (destruct Hin as [Hin | Hin]; [try discriminate Hin|]);
        try contradiction.
      all: cbn in Hin; injection Hin as Hin;
        change "5}" with ("5" ++ "}") in Hin;
        symmetry; exact (append_inv_tail _ _ _ Hin). }
    subst d. split; [intros _; split; [discriminate | reflexivity] | reflexivity].
  - destruct d as [|c d]; cbn [JS.truthyString andb].
    + split; [discriminate | intros [H _]; now contradiction H].
    + destruct (JS.forallb JS.isDigit (String c d)).
      * split; [intros _; split; [discriminate | reflexivity] | reflexivity].
      * split; [discriminate | intros [_ H]; discriminate H].
Qed.

(** What [parseTemplate] reports of a token is accurate: the full token is
    the name in braces, the name is non-empty and has no closing brace,
    the full token is the text of the template at the reported position,
    and the validity flag is [isValidToken] of the name. *)
Definition tokenAt (template : string) (tok : TemplateToken) : Prop :=
  fullToken tok = "{" ++ token tok ++ "}"
  /\ token tok <> ""
  /\ JS.forallb notCloseBrace (token tok) = true
  /\ JS.take (String.length (fullToken tok)) (JS.drop (position tok) template)
     = fullToken tok
  /\ isValid tok = isValidToken (token tok).

(** The tokens lie one after the other, from position [from] on, without
    overlapping. *)
Fixpoint inOrder (from : nat) (tokens : list TemplateToken) : Prop :=
  match tokens with
  | [] => True
  | tok :: rest =>
      from <= position tok
      /\ inOrder (position tok + String.length (fullToken tok)) rest
  end.

(** Where the last of the tokens ends. *)
Fixpoint endOf (from : nat) (tokens : list TemplateToken) : nat :=
  match tokens with
  | [] => from
  | tok :: rest => endOf (position tok + String.length (fullToken tok)) rest
  end.

Lemma inOrder_snoc (from : nat) (tokens : list TemplateToken) (tok : TemplateToken) :
  inOrder from tokens -> endOf from tokens <= position tok ->
  inOrder from (tokens ++ [tok])
  /\ endOf from (tokens ++ [tok]) = position tok + String.length (fullToken tok).
Proof.
  revert from; induction tokens as [|t tokens IH]; intros from; simpl.
  - intros _ Hle. repeat split; auto.
  - intros [Hfrom Hrest] Hle. destruct (IH _ Hrest Hle) as [Hin Hend]. auto.
Qed.

Lemma TOKEN_REGEX_exec_match (template : string) (lastIndex lastIndex' : nat)
  (m : JS.Match) :
  TOKEN_REGEX_exec template lastIndex = (Some m, lastIndex') ->
  lastIndex <= JS.index m
  /\ lastIndex' = JS.index m + String.length (JS.matched m)
  /\ JS.take (String.length (JS.matched m)) (JS.drop (JS.index m) template)
     = JS.matched m
  /\ exists name,
       JS.matched m = "{" ++ name ++ "}" /\ JS.captures m = [name] /\ name <> ""
       /\ JS.forallb notCloseBrace name = true.
Proof.
  unfold TOKEN_REGEX_exec.
  destruct (String.length template <? lastIndex)%nat; [discriminate|].
  destruct (JS.search TOKEN_REGEX lastIndex (JS.drop lastIndex template)) as [m'|] eqn:Hs;
    [|discriminate].
  intros [= -> <-].
  destruct (search_found _ _ _ _ Hs) as (k & Hi & _ & Hre).
  destruct (TOKEN_REGEX_prefix _ _ _ Hre) as (name & after & Hm & Hcaps & Hname & Hsplit & Hall).
  rewrite drop_drop in Hsplit. rewrite <- Hi in Hsplit.
  split; [lia|]. split; [reflexivity|]. split.
  - rewrite Hsplit. apply take_append.
  - exists name. auto.
Qed.

Lemma parseTemplate_loop_located (template : string) (lastIndex : nat)
  (tokens : list TemplateToken) :
  Forall (tokenAt template) tokens ->
  inOrder 0 tokens -> endOf 0 tokens <= lastIndex ->
  Forall (tokenAt template) (fst (parseTemplate_loop template lastIndex tokens))
  /\ inOrder 0 (fst (parseTemplate_loop template lastIndex tokens)).
Proof.
  funelim (parseTemplate_loop template lastIndex tokens); intros Hall Hord Hend.
  - destruct (TOKEN_REGEX_exec_match _ _ _ _ e)
      as (Hge & Hnext & Htake & name & Hm & Hcaps & Hname & Hnb).
    set (tok := {| token := nth 0 (JS.captures m) "";
                   fullToken := JS.matched m;
                   position := JS.index m;
                   isValid := isValidToken (nth 0 (JS.captures m) "") |}) in *.
    destruct (inOrder_snoc 0 tokens tok Hord) as [Hord' Hend'];
      [cbn [position tok]; lia|].
    apply H.
    + apply Forall_app. split; [exact Hall|]. constructor; [|constructor].
      unfold tokenAt, tok. cbn [token fullToken position isValid].
      rewrite Hcaps. cbn [nth]. auto.
    + exact Hord'.
    + rewrite Hend'. cbn [position fullToken tok]. lia.
  - cbn [fst]. auto.
Qed.

(** X4.  Every token that [parseTemplate] returns is accurately located in the
    template, and the tokens are returned in the order of their positions,
    none overlapping the one before. *)
Theorem parseTemplate_tokens_located (template : string) (lastIndex : nat) :
  Forall (tokenAt template) (fst (parseTemplate template lastIndex))
  /\ inOrder 0 (fst (parseTemplate template lastIndex)).
Proof.
  unfold parseTemplate. apply parseTemplate_loop_located; simpl; auto.
Qed.

(** ** Template validation *)

Lemma dropWhile_nil (f : ascii -> bool) (s : string) :
  JS.dropWhile f s = "" <-> JS.forallb f s = true.
Proof.
  induction s as [|c s IH]; simpl; [tauto|].
  destruct (f c); simpl; [exact IH | split; discriminate].
Qed.

Lemma forallb_rev_append (f : ascii -> bool) (s acc : string) :
  JS.forallb f (JS.rev_append s acc) = JS.forallb f s && JS.forallb f acc.
Proof.
  revert acc; induction s as [|c s IH]; intros acc; simpl; [reflexivity|].
  rewrite IH. simpl. destruct (f c), (JS.forallb f s); reflexivity.
Qed.

Lemma rev_append_nil (s acc : string) :
  JS.rev_append s acc = "" -> s = "" /\ acc = "".
Proof.
  revert acc; induction s as [|c s IH]; intros acc; simpl; [auto|].
  intros H. apply IH in H. destruct H as [_ H]. discriminate.
Qed.

(** [trim] leaves nothing exactly when every character is white space. *)
Lemma trim_nil (s : string) :
  JS.trim s = "" <-> JS.forallb JS.isWhiteSpace s = true.
Proof.
  unfold JS.trim, JS.rev. split.
  - intros H. apply rev_append_nil in H. destruct H as [H _].
    apply dropWhile_nil in H. rewrite forallb_rev_append, andb_true_r in H.
    apply dropWhile_nil.
    destruct (JS.dropWhile JS.isWhiteSpace s) as [|c r] eqn:E; [reflexivity|].
    apply dropWhile_head in E. simpl in H. now rewrite E in H.
  - intros H. apply dropWhile_nil in H. now rewrite H.
Qed.

Lemma length_zero_nil (s : string) : (String.length s =? 0)%nat = true <-> s = "".
Proof. destruct s; simpl; split; auto; discriminate. Qed.

Lemma blank_test (template : string) :
  negb (JS.truthyString template) || (String.length (JS.trim template) =? 0)%nat
  = JS.forallb JS.isWhiteSpace template.
Proof.
  destruct (JS.forallb JS.isWhiteSpace template) eqn:Hws.
  - apply trim_nil in Hws. rewrite Hws. simpl. apply orb_true_r.
  - destruct template as [|c t]; [discriminate|]. cbn [JS.truthyString negb orb].
    destruct (String.length (JS.trim (String c t)) =? 0)%nat eqn:E; [|reflexivity].
    apply length_zero_nil, trim_nil in E. congruence.
Qed.

(** X5.  [validateTemplate] rejects a template that is empty or consists of
    white space only, with the single error "Template cannot be empty".
    Any other template is valid exactly when every token found in it is
    valid, and it gets one "Invalid token" error per invalid token, in
    template order. *)
Theorem validateTemplate_verdict (template : string) (lastIndex : nat) :
  let verdict := fst (validateTemplate template lastIndex) in
  let tokens := fst (parseTemplate template lastIndex) in
  (JS.forallb JS.isWhiteSpace template = true ->
   verdict = {| templateIsValid := false;
                templateErrors := ["Template cannot be empty"];
                templateWarnings := [] |})
  /\ (JS.forallb JS.isWhiteSpace template = false ->
      (templateIsValid verdict = true
       <-> Forall (fun t => isValidToken (token t) = true) tokens)
      /\ templateErrors verdict
         = List.map (fun t => "Invalid token: {" ++ token t ++ "}")
             (List.filter (fun t => negb (isValidToken (token t))) tokens)).
Proof.
  intros verdict tokens. unfold verdict, validateTemplate. rewrite blank_test.
  split; intros Hws; rewrite Hws; [reflexivity|].
  assert (Hall : Forall (tokenAt template) (fst (parseTemplate template lastIndex))).
  { unfold parseTemplate. apply parseTemplate_loop_located; simpl; auto. }
  unfold tokens. clear tokens verdict.
  destruct (parseTemplate template lastIndex) as [toks li].
  cbn [fst templateIsValid templateErrors app] in Hall |- *.
  induction toks as [|t toks IH]; cbn [List.filter List.map List.length].
  - split; [split; [constructor | reflexivity] | reflexivity].
  - inversion Hall as [|? ? Ht Hrest]; subst.
    destruct Ht as (Hfull & _ & _ & _ & Hvalid).
    destruct (IH Hrest) as [IHv IHe]. rewrite Hvalid.
    destruct (isValidToken (token t)) eqn:Et; cbn [negb].
    + split.
      * rewrite IHv. split; [intros H; now constructor | intros H; now inversion H].
      * exact IHe.
    + cbn [List.map List.length Nat.eqb]. split.
      * split; [discriminate | intros H; inversion H; congruence].
      * rewrite Hfull, IHe. reflexivity.
Qed.

Lemma validateTemplate_verdict_witness :
  fst (validateTemplate "   " 0)
  = {| templateIsValid := false;
       templateErrors := ["Template cannot be empty"];
       templateWarnings := [] |}.
Proof.
  exact (proj1 (validateTemplate_verdict "   " 0) eq_refl).
Defined.

(** A template with an unknown token and a character that is illegal in
    file names. *)
Example validateTemplate_sample :
  fst (validateTemplate "{date}:{bogus}_{counter:4}" 0)
  = {| templateIsValid := false;
       templateErrors := ["Invalid token: {bogus}"];
       templateWarnings :=
         ["Template contains characters that may be invalid in filenames"] |}.
Proof. vm_compute. reflexivity. Qed.

(** ** What the sanitizers let through *)

Lemma forallb_impl (P Q : ascii -> bool) (s : string) :
  (forall c, P c = true -> Q c = true) ->
  JS.forallb P s = true -> JS.forallb Q s = true.
Proof.
  intros HPQ. induction s as [|c s IH]; simpl; [reflexivity|].
  intros [Hc Hs]%andb_true_iff. now rewrite (HPQ c Hc), IH.
Qed.

Lemma forallb_dropWhile (P f : ascii -> bool) (s : string) :
  JS.forallb P s = true -> JS.forallb P (JS.dropWhile f s) = true.
Proof.
  induction s as [|c s IH]; simpl; [reflexivity|].
  intros [Hc Hs]%andb_true_iff. destruct (f c); simpl; [auto | now rewrite Hc, Hs].
Qed.

Lemma forallb_trim (P : ascii -> bool) (s : string) :
  JS.forallb P s = true -> JS.forallb P (JS.trim s) = true.
Proof.
  intros H. unfold JS.trim, JS.rev.
  rewrite forallb_rev_append, andb_true_r. apply forallb_dropWhile.
  rewrite forallb_rev_append, andb_true_r. now apply forallb_dropWhile.
Qed.

(** Collapsing the runs of a class leaves only the characters outside the
    class, and underscores. *)
Lemma forallb_collapseRuns_class (P class : ascii -> bool) (inRun : bool) (s : string) :
  P "_"%char = true ->
  JS.forallb (fun c => P c || class c) s = true ->
  JS.forallb P (collapseRuns class inRun s) = true.
Proof.
  intros Hu. revert inRun; induction s as [|c s IH]; intros inRun; simpl; [reflexivity|].
  intros [Hc Hs]%andb_true_iff.
  destruct (class c) eqn:E; [destruct inRun|]; simpl; rewrite ?Hu; simpl; auto.
  rewrite orb_false_r in Hc. rewrite Hc. simpl. auto.
Qed.

(** The characters [sanitizeToken] lets through: letters, digits,
    underscore and hyphen. *)
Definition isTokenSafe (c : ascii) : bool := JS.isWordChar c || Ascii.eqb c "-".

(** X6.  Whatever the camera make, model or lens text is, what [sanitizeToken]
    makes of it consists of letters, digits, underscores and hyphens only:
    no white space, no brace that could form a new token, no [$] that the
    replacement could interpret, no character illegal in file names. *)
Theorem sanitizeToken_alphabet (value : string) :
  JS.forallb isTokenSafe (sanitizeToken value) = true.
Proof.
  unfold sanitizeToken, JS.replace. rewrite replace_oneOf, replace_runs.
  apply forallb_trim. apply forallb_collapseRuns_class; [reflexivity|].
  eapply forallb_impl; [|apply forallb_filter].
  intros c Hc. cbv beta in Hc. unfold isTokenJunk in Hc.
  apply negb_true_iff, negb_false_iff in Hc. unfold isTokenSafe.
  destruct (JS.isWordChar c), (JS.isWhiteSpace c), (Ascii.eqb c "-");
    simpl in *; congruence.
Qed.

(** A run-collapsed string has no two underscores in a row, and after a
    run it does not start with one. *)
Lemma collapseRuns_underscore_squeezed (s : string) :
  JS.includes (collapseRuns isUnderscore false s) "__" = false
  /\ JS.includes (collapseRuns isUnderscore true s) "__" = false
  /\ JS.stripPrefix "_" (collapseRuns isUnderscore true s) = None.
Proof.
  induction s as [|c s (IHf & IHt & IHp)]; [repeat split; reflexivity|].
  cbn [collapseRuns]. destruct (isUnderscore c) eqn:E.
  - repeat split; auto.
    cbn [JS.includes JS.stripPrefix]. rewrite Ascii.eqb_refl.
    destruct (collapseRuns isUnderscore true s) as [|d r] eqn:Er; [reflexivity|].
    cbn [JS.stripPrefix] in IHp |- *.
    destruct (Ascii.eqb "_" d); [discriminate IHp | exact IHt].
  - unfold isUnderscore in E. rewrite Ascii.eqb_sym in E.
    repeat split; cbn [JS.includes JS.stripPrefix]; rewrite E; auto.
Qed.

(** [sanitizeForFilename] returns a string without any character illegal
    in file names, without white space and without two underscores in a
    row. *)
Lemma sanitizeForFilename_clean (value : option string) :
  JS.forallb (fun c => negb (isIllegalChar c) && negb (JS.isWhiteSpace c))
    (sanitizeForFilename value) = true
  /\ JS.includes (sanitizeForFilename value) "__" = false.
Proof.
  destruct value as [s|]; [|split; reflexivity].
  rewrite sanitizeForFilename_scan.
  set (legal := fun c => negb (isIllegalChar c)).
  split; [|apply collapseRuns_underscore_squeezed].
  apply forallb_collapseRuns; [reflexivity|].
  apply forallb_collapseRuns_class; [reflexivity|].
  eapply forallb_impl; [|apply (forallb_filter legal)].
  intros c Hc. unfold legal in Hc. rewrite Hc. simpl.
  now destruct (JS.isWhiteSpace c).
Qed.

(** ** Templates without tokens, and the shape of the generated name *)

(** A clean name: no character illegal in file names, no white space, no
    two underscores in a row. *)
Definition cleanName (s : string) : Prop :=
  JS.forallb (fun c => negb (isIllegalChar c) && negb (JS.isWhiteSpace c)) s = true
  /\ JS.includes s "__" = false.

Section LiteralTemplate.

Context {engine : JS.Engine}.

Lemma substituteTokens_without_brace (template : string) (e : option ExifData)
  (date : Date) (counter counterPadding : float)
  (customText originalName originalExt : string) (w : list string) :
  noOpenBrace template = true ->
  substituteTokens template e date counter counterPadding customText
    originalName originalExt w
  = (template, w).
Proof.
  intros Hs.
  assert (Hlit : forall p r, JS.replace (JS.literal (String "{" p)) r template = template).
  { intros p r. apply replace_without_brace; [apply literal_matchesAtBrace | exact Hs]. }
  assert (Hinc : forall p, JS.includes template (String "{" p) = false).
  { intros p. now apply includes_without_brace. }
  unfold substituteTokens, replaceDateTokens. cbv zeta.
  repeat rewrite Hlit.
  unfold replaceCameraTokens, replaceImageTokens, replaceGPSTokens,
    replaceMake, replaceModel, replaceLens, replaceIso, replaceAperture,
    replaceShutter, replaceFocal, replaceWidth, replaceHeight, replaceDimensions,
    replaceOrientation, replaceLat, replaceLng, replaceGps, bind, ret.
  repeat rewrite Hinc.
  unfold replaceCounterTokens, JS.replaceWith.
  rewrite (replaceFrom_without_brace COUNTER_PADDING_REGEX _ template
             COUNTER_PADDING_REGEX_matchesAtBrace Hs).
  repeat rewrite Hlit.
  now rewrite (matchAll_without_brace TOKEN_REGEX template TOKEN_REGEX_matchesAtBrace Hs).
Qed.

(** X7.  A template without an opening brace is used literally: whatever the
    metadata, the counter and the custom text, [generateFilename] returns
    the sanitized template, followed by the original extension when that
    is to be preserved, and no warnings. *)
Theorem generateFilename_literal_template (now : Date) (template : string)
  (exifData : option ExifData) (originalFilename : string) (options : RenameOptions) :
  noOpenBrace template = true ->
  generateFilename now template exifData originalFilename options
  = {| filename :=
         (let ext := snd (parseFilename originalFilename) in
          if match preserveExtension options with Some b => b | None => true end
             && JS.truthyString ext
          then sanitizeForFilename (Some template) ++ "." ++ ext
          else sanitizeForFilename (Some template));
       success := true;
       warnings := None |}.
Proof.
  intros Hs. unfold generateFilename.
  destruct (parseFilename originalFilename) as [originalName originalExt].
  rewrite (substituteTokens_without_brace _ _ _ _ _ _ _ _ _ Hs). reflexivity.
Qed.

(** X8.  The file name that [generateFilename] returns is a clean base name,
    followed at most by a dot and the original extension exactly as
    written (which is not sanitized); with [preserveExtension] switched off
    it is the clean base name alone. *)
Theorem generateFilename_clean_base (now : Date) (template : string)
  (exifData : option ExifData) (originalFilename : string) (options : RenameOptions) :
  let generated := generateFilename now template exifData originalFilename options in
  let ext := snd (parseFilename originalFilename) in
  exists base,
    cleanName base
    /\ (filename generated = base
        \/ (ext <> "" /\ preserveExtension options <> Some false
            /\ filename generated = base ++ "." ++ ext))
    /\ (preserveExtension options = Some false -> filename generated = base).
Proof.
  intros generated ext. unfold generated. rewrite generateFilename_filename.
  cbv zeta. fold ext.
  exists (sanitizeForFilename
            (Some (substitutedName now template exifData originalFilename options))).
  split; [apply sanitizeForFilename_clean|].
  destruct (preserveExtension options) as [[|]|]; destruct ext as [|c ext'];
    cbn [andb JS.truthyString];
    (split;
     [ first [ left; reflexivity
             | right; split; [discriminate | split; [discriminate | reflexivity]] ]
     | intros Hp; first [reflexivity | discriminate Hp] ]).
Qed.

End LiteralTemplate.

Lemma generateFilename_literal_template_witness :
  generateFilename (engine := sampleEngine) sampleDate "holiday <2025>" (Some sampleExif)
    "IMG_0001.JPG" noOptions
  = {| filename := "holiday_2025.JPG"; success := true; warnings := None |}.
Proof.
  exact (generateFilename_literal_template (engine := sampleEngine) sampleDate
           "holiday <2025>" (Some sampleExif) "IMG_0001.JPG" noOptions eq_refl).
Defined.

(** ** No token is left in the generated base name *)

Definition closesAtOnce (r : string) : bool :=
  match r with
  | String d _ => Ascii.eqb d "}"
  | EmptyString => false
  end.

(** No position of [s] starts a token: every opening brace is followed at
    once by a closing brace, or by no closing brace at all. *)
Fixpoint tokenFree (s : string) : bool :=
  match s with
  | EmptyString => true
  | String c r =>
      (negb (Ascii.eqb c "{") || closesAtOnce r || JS.forallb notCloseBrace r)
      && tokenFree r
  end.

Lemma TOKEN_REGEX_none (c : ascii) (r : string) :
  TOKEN_REGEX (String c r) = None
  <-> negb (Ascii.eqb c "{") || closesAtOnce r || JS.forallb notCloseBrace r = true.
Proof.
  unfold TOKEN_REGEX. destruct (Ascii.eqb c "{"); cbn [negb orb]; [|tauto].
  destruct r as [|d r]; cbn [JS.takeWhile JS.dropWhile closesAtOnce JS.forallb];
    [tauto|].
  assert (Hd : notCloseBrace d = negb (Ascii.eqb d "}")) by reflexivity.
  rewrite !Hd. clear Hd. destruct (Ascii.eqb d "}"); cbn [negb orb andb]; [tauto|].
  destruct (JS.dropWhile notCloseBrace r) as [|x rest] eqn:Ed.
  - apply dropWhile_nil in Ed. rewrite Ed. tauto.
  - split; [discriminate|]. intros Hall. apply dropWhile_nil in Hall. congruence.
Qed.

Lemma closesAtOnce_inv (r : string) :
  closesAtOnce r = true -> exists r', r = String "}" r'.
Proof.
  destruct r as [|d r]; [discriminate|]. cbn [closesAtOnce].
  intros E. apply Ascii.eqb_eq in E. subst d. now eexists.
Qed.

Lemma forallb_drop (P : ascii -> bool) (n : nat) (s : string) :
  JS.forallb P s = true -> JS.forallb P (JS.drop n s) = true.
Proof.
  revert s; induction n as [|n IH]; intros [|c s]; cbn [JS.drop JS.forallb]; auto.
  intros [_ Hs]%andb_true_iff. now apply IH.
Qed.

Lemma forallb_filter_keeps (P Q : ascii -> bool) (s : string) :
  JS.forallb Q s = true -> JS.forallb Q (JS.filter P s) = true.
Proof.
  induction s as [|c s IH]; cbn [JS.filter JS.forallb]; [reflexivity|].
  intros [Hc Hs]%andb_true_iff.
  destruct (P c); cbn [JS.forallb]; [now rewrite Hc, IH | now apply IH].
Qed.

(** Removing every token, as one step of the scan. *)
Lemma strip_unfold (before s : string) :
  JS.replaceFrom TOKEN_REGEX (fun m _ b a => JS.GetSubstitution m b a "") before s
  = match TOKEN_REGEX s with
    | Some (m, _) =>
        JS.replaceFrom TOKEN_REGEX (fun m _ b a => JS.GetSubstitution m b a "")
          (before ++ m) (JS.drop (String.length m) s)
    | None =>
        match s with
        | EmptyString => EmptyString
        | String c r =>
            String c (JS.replaceFrom TOKEN_REGEX
                        (fun m _ b a => JS.GetSubstitution m b a "")
                        (before ++ String c EmptyString) r)
        end
    end.
Proof.
  rewrite replaceFrom_unfold.
  destruct (TOKEN_REGEX s) as [[m caps]|] eqn:E; [|reflexivity].
  destruct (TOKEN_REGEX_prefix _ _ _ E) as (name & after & -> & _ & _ & -> & _).
  reflexivity.
Qed.

Lemma forallb_strip (P : ascii -> bool) (s : string) :
  forall before,
    JS.forallb P s = true ->
    JS.forallb P
      (JS.replaceFrom TOKEN_REGEX (fun m _ b a => JS.GetSubstitution m b a "") before s)
    = true.
Proof.
  induction s as [s IH] using string_length_ind. intros before Hs.
  rewrite strip_unfold. destruct (TOKEN_REGEX s) as [[m caps]|] eqn:E.
  - destruct (TOKEN_REGEX_prefix _ _ _ E) as (name & after & Hm & _ & _ & Heq & _).
    apply IH; [|now apply forallb_drop].
    rewrite length_drop. subst m s. cbn [append String.length]. lia.
  - destruct s as [|c r]; [reflexivity|]. cbn [JS.forallb] in Hs |- *.
    apply andb_true_iff in Hs. destruct Hs as [Hc Hr].
    rewrite Hc. apply IH; [cbn [String.length]; lia | exact Hr].
Qed.

Lemma tokenFree_strip (s : string) :
  forall before,
    tokenFree
      (JS.replaceFrom TOKEN_REGEX (fun m _ b a => JS.GetSubstitution m b a "") before s)
    = true.
Proof.
  induction s as [s IH] using string_length_ind. intros before.
  rewrite strip_unfold. destruct (TOKEN_REGEX s) as [[m caps]|] eqn:E.
  - destruct (TOKEN_REGEX_prefix _ _ _ E) as (name & after & Hm & _ & _ & Heq & _).
    apply IH. rewrite length_drop. subst m s. cbn [append String.length]. lia.
  - destruct s as [|c r]; [reflexivity|]. cbn [tokenFree].
    rewrite IH by (cbn [String.length]; lia). rewrite andb_true_r.
    apply TOKEN_REGEX_none in E.
    apply orb_true_iff in E. destruct E as [E | Hnone].
    + apply orb_true_iff in E. destruct E as [Hc | Hclose].
      * now rewrite Hc.
      * apply closesAtOnce_inv in Hclose. destruct Hclose as (r' & ->).
        rewrite strip_unfold. cbn [TOKEN_REGEX Ascii.eqb Bool.eqb closesAtOnce].
        cbn [Ascii.eqb Bool.eqb]. apply orb_true_iff. left. apply orb_true_r.
    + rewrite (forallb_strip notCloseBrace r _ Hnone). apply orb_true_r.
Qed.

Lemma tokenFree_matchFrom (s : string) :
  tokenFree s = true -> forall pos, JS.matchFrom TOKEN_REGEX pos s = [].
Proof.
  induction s as [|c r IH]; intros Hs pos.
  - rewrite JS.matchFrom_equation_1. reflexivity.
  - cbn [tokenFree] in Hs. apply andb_true_iff in Hs. destruct Hs as [Hc Hr].
    apply TOKEN_REGEX_none in Hc. rewrite (matchFrom_unfold_nil _ _ _ _ Hc).
    now apply IH.
Qed.

Lemma matchFrom_tokenFree (s : string) :
  forall pos, JS.matchFrom TOKEN_REGEX pos s = [] -> tokenFree s = true.
Proof.
  induction s as [|c r IH]; intros pos Hnil; [reflexivity|].
  assert (Hnone : TOKEN_REGEX (String c r) = None).
  { rewrite JS.matchFrom_equation_1 in Hnil.
    unfold JS.matchFrom_unfold_clause_1 in Hnil.
    destruct (TOKEN_REGEX (String c r)) as [[[|x m] caps]|];
      [discriminate | discriminate | reflexivity]. }
  rewrite (matchFrom_unfold_nil _ _ _ _ Hnone) in Hnil.
  cbn [tokenFree]. apply andb_true_iff. split.
  - now apply TOKEN_REGEX_none.
  - exact (IH _ Hnil).
Qed.

Lemma tokenFree_filter (P : ascii -> bool) (s : string) :
  P "}"%char = true -> tokenFree s = true -> tokenFree (JS.filter P s) = true.
Proof.
  intros Hkeep. induction s as [|c r IH]; [reflexivity|].
  cbn [tokenFree JS.filter]. intros [Hc Hr]%andb_true_iff.
  destruct (P c); [|now apply IH]. cbn [tokenFree]. rewrite (IH Hr), andb_true_r.
  apply orb_true_iff in Hc. destruct Hc as [Hc | Hnone].
  - apply orb_true_iff in Hc. destruct Hc as [Hc | Hclose]; [now rewrite Hc|].
    apply closesAtOnce_inv in Hclose. destruct Hclose as (r' & ->).
    cbn [JS.filter]. rewrite Hkeep. cbn [closesAtOnce].
    rewrite Ascii.eqb_refl. apply orb_true_iff. left. apply orb_true_r.
  - rewrite (forallb_filter_keeps P notCloseBrace r Hnone). apply orb_true_r.
Qed.

Lemma tokenFree_collapseRuns (class : ascii -> bool) (s : string) :
  class "}"%char = false ->
  tokenFree s = true -> forall inRun, tokenFree (collapseRuns class inRun s) = true.
Proof.
  intros Hkeep. induction s as [|c r IH]; [reflexivity|].
  cbn [tokenFree collapseRuns]. intros [Hc Hr]%andb_true_iff inRun.
  destruct (class c).
  - destruct inRun; [now apply IH|]. cbn [tokenFree]. now rewrite (IH Hr).
  - cbn [tokenFree]. rewrite (IH Hr), andb_true_r.
    apply orb_true_iff in Hc. destruct Hc as [Hc | Hnone].
    + apply orb_true_iff in Hc. destruct Hc as [Hc | Hclose]; [now rewrite Hc|].
      apply closesAtOnce_inv in Hclose. destruct Hclose as (r' & ->).
      cbn [collapseRuns]. rewrite Hkeep. cbn [closesAtOnce].
      rewrite Ascii.eqb_refl. apply orb_true_iff. left. apply orb_true_r.
    + rewrite (forallb_collapseRuns notCloseBrace class false r eq_refl Hnone).
      apply orb_true_r.
Qed.

Lemma tokenFree_sanitizeForFilename (s : string) :
  tokenFree s = true -> tokenFree (sanitizeForFilename (Some s)) = true.
Proof.
  intros Hs. rewrite sanitizeForFilename_scan.
  apply tokenFree_collapseRuns; [reflexivity|].
  apply tokenFree_collapseRuns; [reflexivity|].
  now apply tokenFree_filter.
Qed.

Section NoTokenLeft.

Context {engine : JS.Engine}.

Lemma substituteTokens_tokenFree (template : string) (e : option ExifData)
  (date : Date) (counter counterPadding : float)
  (customText originalName originalExt : string) (w : list string) :
  tokenFree (fst (substituteTokens template e date counter counterPadding customText
                    originalName originalExt w)) = true.
Proof.
  unfold substituteTokens, bind. cbv zeta.
  destruct (replaceCameraTokens _ _ _) as [f1 w1].
  destruct (replaceImageTokens _ _ _) as [f2 w2].
  destruct (replaceGPSTokens _ _ _) as [f3 w3].
  set (f := JS.replace (JS.literal "{custom}") _ _).
  unfold JS.matchAll.
  destruct (JS.matchFrom TOKEN_REGEX 0 f) as [|m ms] eqn:Hm.
  - cbn [ret fst]. exact (matchFrom_tokenFree f 0 Hm).
  - unfold push, ret. cbn [fst]. apply tokenFree_strip.
Qed.

(** X9.  Whatever the template and the data, no token is left in the base of
    the generated name: the file name is a base, followed by a dot and the
    original extension when that is to be preserved, and the token
    expression matches nowhere in the base.  (Text in braces can only come
    back with the original extension.) *)
Theorem generateFilename_no_token_left (now : Date) (template : string)
  (exifData : option ExifData) (originalFilename : string) (options : RenameOptions) :
  exists base,
    filename (generateFilename now template exifData originalFilename options)
    = (let ext := snd (parseFilename originalFilename) in
       if match preserveExtension options with Some b => b | None => true end
          && JS.truthyString ext
       then base ++ "." ++ ext else base)
    /\ JS.matchAll TOKEN_REGEX base = None.
Proof.
  rewrite generateFilename_filename. cbv zeta. eexists. split; [reflexivity|].
  unfold JS.matchAll. rewrite tokenFree_matchFrom; [reflexivity|].
  apply tokenFree_sanitizeForFilename. apply substituteTokens_tokenFree.
Qed.

End NoTokenLeft.

(** A closing brace in the original extension can complete a token
    again. *)
Example generateFilename_token_from_extension :
  let name :=
    filename (generateFilename (engine := sampleEngine) sampleDate "{x" None "a.b}"
                noOptions) in
  name = "{x.b}" /\ JS.matchAll TOKEN_REGEX name = Some ["{x.b}"].
Proof. vm_compute. split; reflexivity. Qed.

(** ** The batch keeps every file, in order *)

(** The keys of a map after [set]: unchanged when the key is present,
    with the key added at the end otherwise. *)
Definition addKey (keys : list File) (key : File) : list File :=
  if existsb (fun k => sameFile k key) keys then keys else (keys ++ [key])%list.

Lemma Map_set_keys {V : Type} (m : FileMap V) (key : File) (value : V) :
  List.map fst (Map_set m key value) = addKey (List.map fst m) key.
Proof.
  unfold addKey. induction m as [|[k v] m IH]; simpl; [reflexivity|].
  destruct (sameFile k key); simpl; [reflexivity|].
  rewrite IH. now destruct (existsb (fun k0 => sameFile k0 key) (List.map fst m)).
Qed.

Lemma existsb_sameFile (keys : list File) (key : File) :
  existsb (fun k => sameFile k key) keys = true <-> In key keys.
Proof.
  rewrite existsb_exists. split.
  - intros (k & Hk & E). apply sameFile_eq in E. now subst.
  - intros H. exists key. split; [exact H | now apply sameFile_eq].
Qed.

Lemma addKey_In (keys : list File) (key file : File) :
  In file (addKey keys key) <-> In file keys \/ file = key.
Proof.
  unfold addKey. destruct (existsb (fun k => sameFile k key) keys) eqn:E.
  - apply existsb_sameFile in E. split; [auto | intros [H | ->]; auto].
  - rewrite in_app_iff. simpl. split; [intros [H | [H | []]]; auto | intros [H | ->]; auto].
Qed.

Lemma addKey_NoDup (keys : list File) (key : File) :
  NoDup keys -> NoDup (addKey keys key).
Proof.
  intros Hnd. unfold addKey.
  destruct (existsb (fun k => sameFile k key) keys) eqn:E; [exact Hnd|].
  apply NoDup_app; [exact Hnd | repeat constructor; intros [] | ].
  intros x Hx [<- | []].
  apply existsb_sameFile in Hx. congruence.
Qed.

Section BatchFiles.

Context {engine : JS.Engine}.

Lemma batchRename_forEach_keys (clock : nat -> Date) (template : string)
  (exifDataMap : list (string * option ExifData)) (options : RenameOptions)
  (files : list File) (index : nat) (state final : BatchState) :
  batchRename_forEach clock template exifDataMap options files index state = Some final ->
  List.map fst (results final) = fold_left addKey files (List.map fst (results state)).
Proof.
  revert index state; induction files as [|file files IH]; intros index state; simpl.
  - now intros [= <-].
  - destruct (batchRename_callback_spec (clock index) template exifDataMap options
                file index state) as (stored & -> & _).
    intros Hrest. rewrite (IH _ _ Hrest). cbn [results]. now rewrite Map_set_keys.
Qed.

Lemma fold_addKey_In (files keys : list File) (file : File) :
  In file (fold_left addKey files keys) <-> In file keys \/ In file files.
Proof.
  revert keys; induction files as [|f files IH]; intros keys; simpl; [tauto|].
  rewrite IH, addKey_In. intuition (subst; auto).
Qed.

Lemma fold_addKey_NoDup (files keys : list File) :
  NoDup keys -> NoDup (fold_left addKey files keys).
Proof.
  revert keys; induction files as [|f files IH]; intros keys Hnd; simpl; [exact Hnd|].
  apply IH. now apply addKey_NoDup.
Qed.

Lemma fold_addKey_distinct (files keys : list File) :
  NoDup (keys ++ files) -> fold_left addKey files keys = (keys ++ files)%list.
Proof.
  revert keys; induction files as [|f files IH]; intros keys Hnd; simpl.
  - now rewrite app_nil_r.
  - assert (Hnew : existsb (fun k => sameFile k f) keys = false).
    { destruct (existsb (fun k => sameFile k f) keys) eqn:E; [|reflexivity].
      apply existsb_sameFile in E. apply NoDup_remove_2 in Hnd.
      exfalso. apply Hnd. apply in_or_app. now left. }
    unfold addKey at 2. rewrite Hnew.
    rewrite IH; rewrite <- app_assoc; [reflexivity | exact Hnd].
Qed.

(** X10.  [batchRename] never drops, duplicates or reorders files: the keys of
    the returned map are exactly the input files, each once, and for a list
    of distinct files they are the input list itself, in its order. *)
Theorem batchRename_keeps_every_file (clock : nat -> Date) (files : list File)
  (template : string) (exifDataMap : list (string * option ExifData))
  (options : RenameOptions) :
  exists renamed,
    batchRename clock files template exifDataMap options = Some renamed
    /\ (forall file, In file (List.map fst renamed) <-> In file files)
    /\ NoDup (List.map fst renamed)
    /\ (NoDup files -> List.map fst renamed = files).
Proof.
  destruct (batchRename_forEach_invariant clock template exifDataMap options files 0
              {| results := []; usedFilenames := [] |})
    as (final & Hrun & _); [split; [intros x [] | constructor]|].
  unfold batchRename. rewrite Hrun. exists (results final). split; [reflexivity|].
  pose proof (batchRename_forEach_keys _ _ _ _ _ _ _ _ Hrun) as Hkeys.
  cbn [results List.map] in Hkeys. rewrite Hkeys.
  split; [|split].
  - intros file. rewrite fold_addKey_In. simpl. tauto.
  - apply fold_addKey_NoDup. constructor.
  - intros Hnd. now apply (fold_addKey_distinct files []).
Qed.

End BatchFiles.

(** ** What a batch result looks like *)

(** A result as [generateFilename] and [resolveFilenameConflict] build it:
    marked successful, with either no warning list or a non-empty one. *)
Definition wellFormedResult (result : RenameResult) : Prop :=
  success result = true /\ warnings result <> Some [].

Lemma Map_set_Forall {V : Type} (P : File * V -> Prop) (m : FileMap V) (key : File)
  (value : V) :
  (forall k, P (k, value)) -> Forall P m -> Forall P (Map_set m key value).
Proof.
  intros Hvalue. induction m as [|[k v] m IH]; cbn [Map_set]; intros Hm.
  - constructor; [apply Hvalue | constructor].
  - inversion Hm as [|? ? Hhead Htail]; subst.
    destruct (sameFile k key); constructor; auto.
Qed.

Section BatchResults.

Context {engine : JS.Engine}.

Lemma generateFilename_wellFormed (now : Date) (template : string)
  (exifData : option ExifData) (originalFilename : string) (options : RenameOptions) :
  wellFormedResult (generateFilename now template exifData originalFilename options).
Proof.
  unfold generateFilename.
  destruct (parseFilename originalFilename) as [originalName originalExt].
  destruct (substituteTokens _ _ _ _ _ _ _ _ _) as [name [|w ws]];
    split; cbn [success warnings]; congruence.
Qed.

Lemma resolveFilenameConflict_wellFormed (result resolved : RenameResult)
  (used : StringSet) :
  wellFormedResult result ->
  resolveFilenameConflict result used = Some resolved ->
  wellFormedResult resolved.
Proof.
  intros [Hsuccess _] Hres.
  destruct (resolveFilenameConflict_spec result used) as (k & Hspec & _).
  cbv zeta in Hspec. rewrite Hspec in Hres. injection Hres as <-.
  split; cbn [success warnings]; [exact Hsuccess|].
  intros [= E]. now destruct (match warnings result with Some w => w | None => [] end).
Qed.

Lemma batchRename_forEach_wellFormed (clock : nat -> Date) (template : string)
  (exifDataMap : list (string * option ExifData)) (options : RenameOptions)
  (files : list File) (index : nat) (state final : BatchState) :
  Forall (fun entry => wellFormedResult (snd entry)) (results state) ->
  batchRename_forEach clock template exifDataMap options files index state = Some final ->
  Forall (fun entry => wellFormedResult (snd entry)) (results final).
Proof.
  revert index state; induction files as [|file files IH]; intros index state Hstate;
    cbn [batchRename_forEach].
  - now intros [= <-].
  - destruct (batchRename_callback_spec (clock index) template exifDataMap options
                file index state) as (stored & Hstep & _ & Hstored).
    rewrite Hstep. apply IH. cbn [results].
    apply Map_set_Forall; [|exact Hstate]. intros k. cbn [snd].
    destruct Hstored as [[_ ->] | [_ Hres]].
    + apply generateFilename_wellFormed.
    + eapply resolveFilenameConflict_wellFormed; [|exact Hres].
      apply generateFilename_wellFormed.
Qed.

(** X11.  [batchRename] never reports a failure and never returns an empty
    warning list: every result in the map is marked successful, and its
    warnings are either absent or a non-empty list. *)
Theorem batchRename_results_wellFormed (clock : nat -> Date) (files : list File)
  (template : string) (exifDataMap : list (string * option ExifData))
  (options : RenameOptions) :
  exists renamed,
    batchRename clock files template exifDataMap options = Some renamed
    /\ Forall (fun entry => success (snd entry) = true /\ warnings (snd entry) <> Some [])
         renamed.
Proof.
  destruct (batchRename_forEach_invariant clock template exifDataMap options files 0
              {| results := []; usedFilenames := [] |})
    as (final & Hrun & _); [split; [intros x [] | constructor]|].
  unfold batchRename. rewrite Hrun. exists (results final). split; [reflexivity|].
  eapply batchRename_forEach_wellFormed; [|exact Hrun]. constructor.
Qed.

End BatchResults.

(** ** Checking a rename map before packing *)

(** The duplicate count stays where it was exactly when the names still to
    come are pairwise distinct and none of them has been seen. *)
Lemma countDuplicate_fold (m : FileMap RenameResult) (seen : StringSet) (count : nat) :
  count <= snd (fold_left countDuplicate m (seen, count))
  /\ (snd (fold_left countDuplicate m (seen, count)) = count
      <-> NoDup (filenames m) /\ forall x, In x (filenames m) -> ~ In x seen).
Proof.
  revert seen count; induction m as [|[file r] m IH]; intros seen count; simpl.
  - split; [lia|]. split; [intros _; split; [constructor | intros x []] | reflexivity].
  - destruct (IH (Set_add seen (filename r))
                (if Set_has seen (filename r) then S count else count)) as [Hle Hiff].
    destruct (Set_has seen (filename r)) eqn:Hhas.
    + split; [lia|]. split; [lia|].
      intros [_ Hfresh]. exfalso. apply (Hfresh (filename r)); [now left|].
      now apply Set_has_In.
    + split; [exact Hle|]. rewrite Hiff. rewrite (Set_add_fresh _ _ Hhas).
      assert (Hnot : ~ In (filename r) seen).
      { intros Hin. apply Set_has_In in Hin. congruence. }
      split.
      * intros [Hnd Hfresh]. split.
        -- constructor; [|exact Hnd]. intros Hin.
           apply (Hfresh _ Hin). apply in_or_app. right. now left.
        -- intros x [<- | Hx]; [exact Hnot|]. intros Hin.
           apply (Hfresh _ Hx). apply in_or_app. now left.
      * intros [Hnd Hfresh]. inversion Hnd as [|? ? Hr Hnd']; subst. split; [exact Hnd'|].
        intros x Hx Hin. apply in_app_or in Hin. destruct Hin as [Hin | [<- | []]].
        -- apply (Hfresh x); [now right | exact Hin].
        -- contradiction.
Qed.

Lemma validateZipCreation_valid_iff (files : list File) (renameMap : FileMap RenameResult) :
  zipValid (validateZipCreation files renameMap) = true
  <-> files <> [] /\ List.length files = List.length renameMap
      /\ NoDup (filenames renameMap).
Proof.
  unfold validateZipCreation.
  assert (Hdup : snd (fold_left countDuplicate renameMap ([], 0)) = 0
                 <-> NoDup (filenames renameMap)).
  { destruct (countDuplicate_fold renameMap [] 0) as [_ Hzero].
    split.
    - intros H. now apply Hzero in H.
    - intros H. apply Hzero. split; [exact H | intros x _ []]. }
  destruct (fold_left countDuplicate renameMap ([], 0)) as [seen count].
  cbn [snd] in Hdup.
  destruct files as [|f files]; cbn [List.length Nat.eqb app].
  - split; [|intros [H _]; now contradiction H].
    destruct (List.length renameMap =? 0)%nat, (negb _), (0 <? count)%nat;
      cbn; discriminate.
  - destruct renameMap as [|e renameMap]; cbn [List.length Nat.eqb negb app].
    + split; [|intros (_ & H & _); discriminate H].
      destruct (0 <? count)%nat; cbn; discriminate.
    + destruct (List.length files =? List.length renameMap)%nat eqn:Elen; cbn [negb app].
      * apply Nat.eqb_eq in Elen.
        destruct (0 <? count)%nat eqn:Ecount; cbn [app List.length Nat.eqb].
        -- apply Nat.ltb_lt in Ecount. split; [discriminate|].
           intros (_ & _ & Hnd). apply Hdup in Hnd. lia.
        -- apply Nat.ltb_ge in Ecount. split; [|reflexivity].
           intros _. split; [discriminate|]. split; [now rewrite Elen|].
           apply Hdup. lia.
      * apply Nat.eqb_neq in Elen. split.
        -- destruct (0 <? count)%nat; cbn; discriminate.
        -- intros (_ & H & _). injection H as H. contradiction.
Qed.

(** X12.  [validateZipCreation] accepts a file list and rename map exactly when
    the list is not empty, the map has as many entries as the list has
    files, and the new file names in the map are pairwise distinct. *)
Theorem validateZipCreation_accepts (files : list File) (renameMap : FileMap RenameResult) :
  zipValid (validateZipCreation files renameMap) = true
  <-> files <> [] /\ List.length files = List.length renameMap
      /\ NoDup (List.map (fun entry => filename (snd entry)) renameMap).
Proof.
  rewrite validateZipCreation_valid_iff. reflexivity.
Qed.

Section BatchThenZip.

Context {engine : JS.Engine}.

(** X13.  [validateZipCreation] accepts what [batchRename] returns for a list of
    files exactly when the list is not empty and no file occurs in it
    twice.  (A file that occurs twice has one entry in the map, so the
    counts differ; the names in the map are always distinct.) *)
Theorem batchRename_validateZipCreation (clock : nat -> Date) (files : list File)
  (template : string) (exifDataMap : list (string * option ExifData))
  (options : RenameOptions) :
  exists renamed,
    batchRename clock files template exifDataMap options = Some renamed
    /\ (zipValid (validateZipCreation files renamed) = true
        <-> files <> [] /\ NoDup files).
Proof.
  destruct (batchRename_forEach_invariant clock template exifDataMap options files 0
              {| results := []; usedFilenames := [] |})
    as (final & Hrun & _ & Hnames); [split; [intros x [] | constructor]|].
  pose proof (batchRename_forEach_keys _ _ _ _ _ _ _ _ Hrun) as Hkeys.
  cbn [results List.map] in Hkeys.
  unfold batchRename. rewrite Hrun. exists (results final). split; [reflexivity|].
  rewrite validateZipCreation_valid_iff.
  rewrite <- (length_map fst (results final)), Hkeys.
  split.
  - intros (Hne & Hlen & _). split; [exact Hne|].
    apply (@NoDup_incl_NoDup _ (fold_left addKey files []) files).
    + apply fold_addKey_NoDup. constructor.
    + rewrite Hlen. apply le_n.
    + intros x Hx. apply fold_addKey_In in Hx. now destruct Hx as [[] | Hx].
  - intros [Hne Hnd]. split; [exact Hne|]. split; [|exact Hnames].
    now rewrite (fold_addKey_distinct files [] Hnd).
Qed.

End BatchThenZip.

Lemma validateZipCreation_duplicate_sample :
  validateZipCreation [sampleFirst; sampleSecond]
    [ (sampleFirst, {| filename := "shot.jpg"; success := true; warnings := None |});
      (sampleSecond, {| filename := "shot.jpg"; success := true; warnings := None |}) ]
  = {| zipValid := false; zipErrors := ["1 duplicate filename(s) detected"] |}.
Proof. vm_compute. reflexivity. Qed.

(** ** The extension of a resolved name *)

Section ConflictNames.

Context {engine : JS.Engine}.

(** X14.  When the conflicting name has an extension, the name that
    [resolveFilenameConflict] returns splits again into the old base
    followed by the numeric suffix, and the same extension; and it is not
    one of the used names.  (Without an extension the suffix goes at the
    very end, after any dot the name ends with or starts with.) *)
Theorem resolveFilenameConflict_keeps_extension (result : RenameResult)
  (used : StringSet) :
  let base := fst (parseFilename (filename result)) in
  let ext := snd (parseFilename (filename result)) in
  ext <> "" ->
  exists (resolved : RenameResult) (n : nat),
    resolveFilenameConflict result used = Some resolved
    /\ 1 <= n
    /\ parseFilename (filename resolved) = (base ++ "_" ++ JS.ofZ (Z.of_nat n), ext)
    /\ Set_has used (filename resolved) = false.
Proof.
  intros base ext Hext.
  destruct (resolveFilenameConflict_spec result used) as (k & Hres & Hfree & _).
  cbn zeta in Hres, Hfree. fold base ext in Hres, Hfree.
  assert (Hdots : JS.forallb (fun x => negb (Ascii.eqb x ".")) ext = true).
  { unfold ext, parseFilename.
    destruct (JS.lastIndexOf "." (filename result)) as [[|i]|] eqn:Hlast;
      cbn [snd]; try reflexivity.
    now destruct (lastIndexOf_split _ _ _ Hlast). }
  assert (Hname : candidate base ext (1 + Z.of_nat k)
                  = (base ++ "_" ++ JS.ofZ (Z.of_nat (S k))) ++ "." ++ ext).
  { unfold candidate. replace (1 + Z.of_nat k)%Z with (Z.of_nat (S k)) by lia.
    destruct ext as [|c ext']; [contradiction|]. cbn [JS.truthyString].
    now rewrite !append_assoc. }
  eexists. exists (S k). split; [exact Hres|]. cbn [filename].
  split; [lia|]. split.
  - rewrite Hname. apply parseFilename_split; [|exact Hdots].
    destruct base; discriminate.
  - exact Hfree.
Qed.

End ConflictNames.

Lemma resolveFilenameConflict_keeps_extension_witness :
  exists (resolved : RenameResult) (n : nat),
    resolveFilenameConflict
      {| filename := "shot.jpg"; success := true; warnings := None |}
      ["shot.jpg"; "shot_1.jpg"] = Some resolved
    /\ 1 <= n
    /\ parseFilename (filename resolved) = ("shot" ++ "_" ++ JS.ofZ (Z.of_nat n), "jpg")
    /\ Set_has ["shot.jpg"; "shot_1.jpg"] (filename resolved) = false.
Proof.
  apply (resolveFilenameConflict_keeps_extension
           {| filename := "shot.jpg"; success := true; warnings := None |}
           ["shot.jpg"; "shot_1.jpg"]).
  vm_compute. discriminate.
Defined.

(** A name that ends with a dot has no extension; the suffix replaces the
    dot, and what followed the previous dot becomes the extension. *)
Example resolveFilenameConflict_trailing_dot :
  option_map (fun r => parseFilename (filename r))
    (resolveFilenameConflict
       {| filename := "a.b."; success := true; warnings := None |} ["a.b."])
  = Some ("a", "b_1").
Proof. vm_compute. reflexivity. Qed.

(** ** The preview table *)

Section Preview.

Context {engine : JS.Engine}.

(** X15.  [previewRename] returns a table whose new names are pairwise distinct
    and which has at most one row per file; for distinct files it has one
    row per file, in the order of the files, showing each file's name. *)
Theorem previewRename_rows (clock : nat -> Date) (files : list File)
  (template : string) (exifDataMap : list (string * option ExifData))
  (options : RenameOptions) :
  exists rows,
    previewRename clock files template exifDataMap options = Some rows
    /\ NoDup (List.map renamed rows)
    /\ List.length rows <= List.length files
    /\ (NoDup files -> List.map original rows = List.map fileName files).
Proof.
  destruct (batchRename_forEach_invariant clock template exifDataMap options files 0
              {| results := []; usedFilenames := [] |})
    as (final & Hrun & _ & Hnames); [split; [intros x [] | constructor]|].
  pose proof (batchRename_forEach_keys _ _ _ _ _ _ _ _ Hrun) as Hkeys.
  cbn [results List.map] in Hkeys.
  unfold previewRename, batchRename. rewrite Hrun. eexists. split; [reflexivity|].
  split; [|split].
  - rewrite map_map. unfold filenames in Hnames.
    erewrite map_ext; [exact Hnames|]. now intros [file result].
  - rewrite length_map, <- (length_map fst), Hkeys.
    apply NoDup_incl_length; [apply fold_addKey_NoDup; constructor|].
    intros x Hx. apply fold_addKey_In in Hx. now destruct Hx as [[] | Hx].
  - intros Hnd. rewrite map_map.
    rewrite (fold_addKey_distinct files [] Hnd) in Hkeys. cbn [app] in Hkeys.
    rewrite <- Hkeys. rewrite map_map. apply map_ext. now intros [file result].
Qed.

End Preview.

(** ** What the archive assembler packs *)

Lemma setOwn_keys (own : list (string * ZipEntry)) (key : string) (value : ZipEntry) :
  List.map fst (setOwn own key value) = Set_add (List.map fst own) key.
Proof.
  unfold Set_add, Set_has. induction own as [|[k v] own IH]; cbn; [reflexivity|].
  rewrite (String.eqb_sym key k). destruct (String.eqb k key); cbn; [reflexivity|].
  rewrite IH. now destruct (existsb (String.eqb key) (List.map fst own)).
Qed.

Lemma Set_add_NoDup (s : StringSet) (x : string) : NoDup s -> NoDup (Set_add s x).
Proof.
  intros Hnd. unfold Set_add. destruct (Set_has s x) eqn:E; [exact Hnd|].
  apply NoDup_app; [exact Hnd | repeat constructor; intros [] |].
  intros y Hy [<- | []]. apply Set_has_In in Hy. congruence.
Qed.

Lemma setOwn_fresh (own : list (string * ZipEntry)) (key : string) (value : ZipEntry) :
  ~ In key (List.map fst own) ->
  setOwn own key value = (own ++ [(key, value)])%list.
Proof.
  induction own as [|[k v] own IH]; cbn; [reflexivity|]. intros Hnot.
  destruct (String.eqb_spec k key) as [-> | Hne]; [exfalso; apply Hnot; now left|].
  rewrite IH; [reflexivity|]. intros Hin. apply Hnot. now right.
Qed.

Lemma setOwn_In_new (own : list (string * ZipEntry)) (key : string) (value : ZipEntry) :
  In (key, value) (setOwn own key value).
Proof.
  induction own as [|[k v] own IH]; cbn; [now left|].
  destruct (String.eqb_spec k key) as [-> | Hne]; [now left | right; exact IH].
Qed.

Lemma setOwn_In_key (own : list (string * ZipEntry)) (key : string) (value e : ZipEntry) :
  NoDup (List.map fst own) ->
  In (key, e) (setOwn own key value) -> e = value.
Proof.
  induction own as [|[k v] own IH]; cbn.
  - now intros _ [[= <-] | []].
  - intros Hnd. inversion Hnd as [|? ? Hk Hnd']; subst.
    destruct (String.eqb_spec k key) as [-> | Hne].
    + intros [[= <-] | Hin]; [reflexivity|].
      exfalso. apply Hk. now apply (in_map fst) in Hin.
    + intros [[= -> _] | Hin]; [contradiction | now apply IH].
Qed.

Lemma ZipInput_set_ordinary (input : ZipInput) (key : string) (value : ZipEntry) :
  key <> "__proto__" ->
  ZipInput_set input key value
  = {| ownProperties := setOwn (ownProperties input) key value;
       prototypeArray := prototypeArray input |}.
Proof.
  intros Hne. unfold ZipInput_set.
  destruct (String.eqb_spec key "__proto__") as [-> | _]; [contradiction | reflexivity].
Qed.

Lemma createZipAsync_loop_keys (now : Z) (renameMap : FileMap RenameResult)
  (compressionLevel : Z) (folderName : string) (files : list File) :
  NoDup (List.map fst
           (ownProperties
              (fold_left (createZipAsync_step now renameMap compressionLevel folderName)
                 files emptyObject))).
Proof.
  apply (createZipAsync_loop_ind now renameMap compressionLevel folderName files
           (fun input => NoDup (List.map fst (ownProperties input)))).
  - intros input file result _ _ Hnd. unfold ZipInput_set.
    destruct (String.eqb _ "__proto__"); cbn [ownProperties]; [exact Hnd|].
    rewrite setOwn_keys. now apply Set_add_NoDup.
  - apply incl_refl.
  - constructor.
Qed.

(** The manifest is never stored under one of the special keys. *)
Lemma metadata_path_ordinary (folderName : string) :
  entryPath folderName "metadata.txt" <> "__proto__"
  /\ entryPath folderName "metadata.txt" <> "0"
  /\ entryPath folderName "metadata.txt" <> "1".
Proof.
  assert (Hlen : 12 <= String.length (entryPath folderName "metadata.txt")).
  { unfold entryPath. destruct (JS.truthyString folderName); [|cbn; lia].
    rewrite length_append. cbn. lia. }
  repeat split; intros E; rewrite E in Hlen; cbn in Hlen; lia.
Qed.

(** Where the arrays of the request come from: an own property is the
    array of a file with a result in the rename map, under the path made
    from the result's name, which is not [__proto__]; the prototype array,
    if there is one, is the array of a file whose path is [__proto__]. *)
Definition ownedBy (now : Z) (renameMap : FileMap RenameResult)
  (compressionLevel : Z) (folderName : string) (files : list File)
  (path : string) (entry : ZipEntry) : Prop :=
  exists file result,
    In file files
    /\ Map_get renameMap file = Some result
    /\ entryPath folderName (filename result) <> "__proto__"
    /\ path = entryPath folderName (filename result)
    /\ entry = fileEntry now compressionLevel file.

Definition inheritedBy (now : Z) (renameMap : FileMap RenameResult)
  (compressionLevel : Z) (folderName : string) (files : list File)
  (array : ZipEntry) : Prop :=
  exists file result,
    In file files
    /\ Map_get renameMap file = Some result
    /\ entryPath folderName (filename result) = "__proto__"
    /\ array = fileEntry now compressionLevel file.

Lemma createZipAsync_loop_origin (now : Z) (renameMap : FileMap RenameResult)
  (compressionLevel : Z) (folderName : string) (files : list File) :
  let packed :=
    fold_left (createZipAsync_step now renameMap compressionLevel folderName)
      files emptyObject in
  (forall k e, In (k, e) (ownProperties packed) ->
               ownedBy now renameMap compressionLevel folderName files k e)
  /\ (forall array, prototypeArray packed = Some array ->
                    inheritedBy now renameMap compressionLevel folderName files array).
Proof.
  apply (createZipAsync_loop_ind now renameMap compressionLevel folderName files
           (fun input =>
              (forall k e, In (k, e) (ownProperties input) ->
                           ownedBy now renameMap compressionLevel folderName files k e)
              /\ (forall array, prototypeArray input = Some array ->
                                inheritedBy now renameMap compressionLevel folderName
                                  files array))).
  - intros input file result Hfile Hget [Hown Hproto]. split.
    + intros k e Hin. apply ZipInput_set_own in Hin.
      destruct Hin as [(-> & -> & Hne) | Hin]; [|now apply Hown].
      exists file, result. auto.
    + intros array Harray. apply ZipInput_set_prototype in Harray.
      destruct Harray as [[Hkey ->] | Harray]; [|now apply Hproto].
      exists file, result. auto.
  - apply incl_refl.
  - split; [intros k e [] | discriminate].
Qed.

(** X16.  Everything the archive library finds in the request built by
    [createZipAsync] is one of three things.  The manifest, present only
    when [includeMetadata] is on, under [metadata.txt] (inside the folder
    when one is named).  Or the array of one of the files: that file has a
    result in the rename map, the key is the path made from the result's
    name (inside the folder when one is named) and is not [__proto__], and
    the array holds the file's bytes, its level, and its modification time
    (the current time when the file's is 0).  Or, for a file whose path is
    [__proto__], what is inherited from its array: the file's bytes under
    the key [0], or its options under the key [1].  A file without a
    result in the map is never packed. *)
Theorem createZipAsync_entry_origin (now : Z) (files : list File)
  (renameMap : FileMap RenameResult) (options : ZipOptions)
  (path : string) (value : PropertyValue) :
  In (path, value) (enumerate (zipInput (createZipAsync now files renameMap options))) ->
  (includeMetadata options = Some true
   /\ path = entryPath (folderOf options) "metadata.txt"
   /\ value = ArrayValue manifestEntry)
  \/ (exists file result,
        In file files
        /\ Map_get renameMap file = Some result
        /\ ((entryPath (folderOf options) (filename result) <> "__proto__"
             /\ path = entryPath (folderOf options) (filename result)
             /\ value = ArrayValue (fileEntry now (levelOf options) file))
            \/ (entryPath (folderOf options) (filename result) = "__proto__"
                /\ ((path = "0" /\ value = ElementBytes (FileBytes file))
                    \/ (path = "1"
                        /\ value = ElementOptions
                                     (fileOptions now (levelOf options) file)))))).
Proof.
  rewrite createZipAsync_unfold. cbv zeta.
  destruct (createZipAsync_loop_origin now renameMap (levelOf options) (folderOf options)
              files) as [Hown Hproto].
  destruct (metadata_path_ordinary (folderOf options)) as (Hmeta & _ & _).
  set (packed := fold_left _ files emptyObject) in *.
  assert (Hfiles : forall input,
    (forall k e, In (k, e) (ownProperties input) ->
       (includeMetadata options = Some true
        /\ k = entryPath (folderOf options) "metadata.txt" /\ e = manifestEntry)
       \/ ownedBy now renameMap (levelOf options) (folderOf options) files k e) ->
    prototypeArray input = prototypeArray packed ->
    In (path, value) (enumerate input) ->
    (includeMetadata options = Some true
     /\ path = entryPath (folderOf options) "metadata.txt"
     /\ value = ArrayValue manifestEntry)
    \/ (exists file result,
          In file files
          /\ Map_get renameMap file = Some result
          /\ ((entryPath (folderOf options) (filename result) <> "__proto__"
               /\ path = entryPath (folderOf options) (filename result)
               /\ value = ArrayValue (fileEntry now (levelOf options) file))
              \/ (entryPath (folderOf options) (filename result) = "__proto__"
                  /\ ((path = "0" /\ value = ElementBytes (FileBytes file))
                      \/ (path = "1"
                          /\ value = ElementOptions
                                       (fileOptions now (levelOf options) file))))))).
  { intros input Hinput Hsame Hin. apply enumerate_cases in Hin.
    destruct Hin as [(e & -> & Hin) | (array & Harray & Hkey)].
    - destruct (Hinput _ _ Hin) as [(Hon & -> & ->) | (file & result & Hf & Hg & Hne & -> & ->)].
      + left. auto.
      + right. exists file, result. split; [exact Hf|]. split; [exact Hg|]. left. auto.
    - rewrite Hsame in Harray.
      destruct (Hproto _ Harray) as (file & result & Hf & Hg & Heq & ->).
      right. exists file, result. split; [exact Hf|]. split; [exact Hg|]. right.
      split; [exact Heq|].
      destruct Hkey as [[-> ->] | (o & Ho & -> & ->)]; [left; split; reflexivity|].
      right. split; [reflexivity|]. cbn [fileEntry entryOptions] in Ho.
      now injection Ho as <-. }
  destruct (includeMetadata options) as [[|]|] eqn:Hmd.
  - apply Hfiles.
    + intros k e Hin. rewrite (ZipInput_set_ordinary _ _ _ Hmeta) in Hin.
      cbn [ownProperties] in Hin. apply setOwn_In_cases in Hin.
      destruct Hin as [[-> ->] | Hin]; [left; auto | right; now apply Hown].
    + now rewrite (ZipInput_set_ordinary _ _ _ Hmeta).
  - apply Hfiles; [intros k e Hin; right; now apply Hown | reflexivity].
  - apply Hfiles; [intros k e Hin; right; now apply Hown | reflexivity].
Qed.

Lemma createZipAsync_entry_origin_witness :
  (includeMetadata sampleZipOptions = Some true
   /\ "20251011_002.txt" = entryPath (folderOf sampleZipOptions) "metadata.txt"
   /\ ArrayValue (fileEntry 5 9 sampleNotes) = ArrayValue manifestEntry)
  \/ (exists file result,
        In file [samplePhoto; sampleNotes]
        /\ Map_get sampleRenameMap file = Some result
        /\ ((entryPath (folderOf sampleZipOptions) (filename result) <> "__proto__"
             /\ "20251011_002.txt" = entryPath (folderOf sampleZipOptions) (filename result)
             /\ ArrayValue (fileEntry 5 9 sampleNotes)
                = ArrayValue (fileEntry 5 (levelOf sampleZipOptions) file))
            \/ (entryPath (folderOf sampleZipOptions) (filename result) = "__proto__"
                /\ (("20251011_002.txt" = "0"
                     /\ ArrayValue (fileEntry 5 9 sampleNotes)
                        = ElementBytes (FileBytes file))
                    \/ ("20251011_002.txt" = "1"
                        /\ ArrayValue (fileEntry 5 9 sampleNotes)
                           = ElementOptions
                               (fileOptions 5 (levelOf sampleZipOptions) file)))))).
Proof.
  apply (createZipAsync_entry_origin 5 [samplePhoto; sampleNotes] sampleRenameMap
           sampleZipOptions).
  vm_compute. right. left. reflexivity.
Defined.

(** X17.  With [includeMetadata] on, the archive library finds the
    manifest under [metadata.txt] (inside the folder when one is named),
    and nothing else under that key: a file whose new name is
    [metadata.txt] is replaced by the manifest. *)
Theorem createZipAsync_manifest_replaces (now : Z) (files : list File)
  (renameMap : FileMap RenameResult) (options : ZipOptions) :
  includeMetadata options = Some true ->
  let request := createZipAsync now files renameMap options in
  let path := entryPath (folderOf options) "metadata.txt" in
  In (path, ArrayValue manifestEntry) (enumerate (zipInput request))
  /\ forall value, In (path, value) (enumerate (zipInput request)) ->
                   value = ArrayValue manifestEntry.
Proof.
  intros Hon request path. unfold request. rewrite createZipAsync_unfold. cbv zeta.
  rewrite Hon.
  destruct (metadata_path_ordinary (folderOf options)) as (Hproto & Hzero & Hone).
  fold path in Hproto, Hzero, Hone |- *.
  rewrite (ZipInput_set_ordinary _ _ _ Hproto). split.
  - unfold enumerate. cbn [ownProperties]. apply in_or_app. left.
    apply in_map_iff. exists (path, manifestEntry). split; [reflexivity|].
    apply objectOrder_In. apply setOwn_In_new.
  - intros value Hin. apply enumerate_cases in Hin. cbn [ownProperties prototypeArray] in Hin.
    destruct Hin as [(e & -> & Hin) | (array & _ & [[Hk _] | (o & _ & Hk & _)])];
      [|contradiction | contradiction].
    f_equal. eapply setOwn_In_key; [|exact Hin].
    apply createZipAsync_loop_keys.
Qed.

(** A text file that is to be stored as [metadata.txt]. *)
Definition sampleMetadataClash : FileMap RenameResult :=
  [ (sampleNotes, {| filename := "metadata.txt"; success := true; warnings := None |}) ].

Lemma createZipAsync_manifest_replaces_witness :
  In ("metadata.txt", ArrayValue manifestEntry)
    (enumerate
       (zipInput (createZipAsync 5 [sampleNotes] sampleMetadataClash sampleZipOptions)))
  /\ forall value,
       In ("metadata.txt", value)
         (enumerate
            (zipInput (createZipAsync 5 [sampleNotes] sampleMetadataClash
                         sampleZipOptions))) ->
       value = ArrayValue manifestEntry.
Proof.
  apply (createZipAsync_manifest_replaces 5 [sampleNotes] sampleMetadataClash
           sampleZipOptions).
  reflexivity.
Defined.

(** ** The streaming assembler *)

Definition streamFilename (s : FileStream) : string :=
  match s with
  | ZipDeflate filename _ => filename
  | ZipPassThrough filename => filename
  end.

(** A stored stream counts as level 0. *)
Definition streamLevel (s : FileStream) : Z :=
  match s with
  | ZipDeflate _ level => level
  | ZipPassThrough _ => 0%Z
  end.

(** The key and array of [zipInput] that say the same as an added stream. *)
Definition asEntry (a : AddedStream) : string * ZipEntry :=
  (streamFilename (fileStream a),
   {| data := FileBytes (pushed a);
      entryOptions := Some {| level := streamLevel (fileStream a);
                              mtime := streamMtime a |} |}).

Definition streamPaths (added : list AddedStream) : list string :=
  List.map (fun a => streamFilename (fileStream a)) added.

(** The own properties as the archive library finds them. *)
Definition asFound (properties : list (string * ZipEntry))
  : list (string * PropertyValue) :=
  List.map (fun p => (fst p, ArrayValue (snd p))) (objectOrder properties).

Lemma processFilesStreaming_step_found (now : Z) (renameMap : FileMap RenameResult)
  (compressionLevel : Z) (folderName : string) (added : list AddedStream) (file : File)
  (result : RenameResult) :
  Map_get renameMap file = Some result ->
  exists a,
    processFilesStreaming_step now renameMap compressionLevel folderName added file
    = (added ++ [a])%list
    /\ asEntry a = (entryPath folderName (filename result),
                    fileEntry now compressionLevel file).
Proof.
  unfold processFilesStreaming_step. intros ->. eexists. split; [reflexivity|].
  unfold asEntry, fileEntry, fileOptions, entryPath. cbn [fileStream streamMtime pushed].
  now destruct (Set_has INCOMPRESSIBLE_TYPES (getFileExtension (fileName file))).
Qed.

Lemma processFilesStreaming_step_missing (now : Z) (renameMap : FileMap RenameResult)
  (compressionLevel : Z) (folderName : string) (added : list AddedStream) (file : File) :
  Map_get renameMap file = None ->
  processFilesStreaming_step now renameMap compressionLevel folderName added file = added.
Proof. unfold processFilesStreaming_step. now intros ->. Qed.

Lemma createZipAsync_loop_stream (now : Z) (renameMap : FileMap RenameResult)
  (compressionLevel : Z) (folderName : string) (files : list File) :
  NoDup (streamPaths (processFilesStreaming now files renameMap compressionLevel folderName)) ->
  ~ In "__proto__"
      (streamPaths (processFilesStreaming now files renameMap compressionLevel folderName)) ->
  fold_left (createZipAsync_step now renameMap compressionLevel folderName) files
    emptyObject
  = {| ownProperties :=
         List.map asEntry
           (processFilesStreaming now files renameMap compressionLevel folderName);
       prototypeArray := None |}.
Proof.
  unfold processFilesStreaming.
  induction files as [|file files IH] using rev_ind; [reflexivity|].
  rewrite !fold_left_app. cbn [fold_left].
  destruct (Map_get renameMap file) as [result|] eqn:Hget.
  - destruct (processFilesStreaming_step_found now renameMap compressionLevel folderName
                (fold_left (processFilesStreaming_step now renameMap compressionLevel
                              folderName) files []) file result Hget)
      as (a & -> & Ha).
    rewrite (createZipAsync_step_found _ _ _ _ _ _ _ Hget).
    assert (Hpath : streamFilename (fileStream a) = entryPath folderName (filename result))
      by exact (f_equal fst Ha).
    unfold streamPaths. rewrite map_app. cbn [List.map]. rewrite Hpath.
    intros Hnd Hproto.
    assert (Hnew := NoDup_remove_2 _ _ _ Hnd). rewrite app_nil_r in Hnew.
    apply NoDup_remove_1 in Hnd. rewrite app_nil_r in Hnd.
    assert (Hne : entryPath folderName (filename result) <> "__proto__").
    { intros E. apply Hproto. apply in_or_app. right. left. exact E. }
    rewrite (IH Hnd) by (intros Hin; apply Hproto; apply in_or_app; now left).
    rewrite (ZipInput_set_ordinary _ _ _ Hne). cbn [ownProperties prototypeArray].
    f_equal. rewrite map_app. cbn [List.map]. rewrite Ha.
    apply setOwn_fresh. rewrite map_map. exact Hnew.
  - rewrite (createZipAsync_step_missing _ _ _ _ _ _ Hget).
    rewrite (processFilesStreaming_step_missing _ _ _ _ _ _ Hget). exact IH.
Qed.

Lemma objectOrder_plain {V : Type} (properties : list (string * V)) :
  Forall (fun p => arrayIndex (fst p) = None) properties ->
  objectOrder properties = properties.
Proof.
  unfold objectOrder, indexFirst. intros Hall.
  assert (Hnone : fold_right
                    (fun p sorted =>
                       match arrayIndex (fst p) with
                       | Some i => insertByIndex i p sorted
                       | None => sorted
                       end) [] properties = []).
  { induction Hall as [|p rest Hp _ IH]; [reflexivity|].
    cbn [fold_right]. now rewrite Hp. }
  rewrite Hnone. cbn [app].
  induction Hall as [|p rest Hp Hrest IH]; [reflexivity|].
  cbn [List.filter]. rewrite Hp. f_equal. apply IH.
  cbn [fold_right] in Hnone. now rewrite Hp in Hnone.
Qed.

(** X18.  When the manifest is not asked for, the paths of the streamed
    files are pairwise distinct and none of them is [__proto__], the
    archive library finds in the request of [createZipAsync] what
    [createZipStream] streams: the same paths, each with the same file,
    modification time and level (a stored stream counting as level 0).
    It finds them in the object's order: the paths that are array indices
    first, in ascending order, then the others in the order they are
    streamed.  So the two orders agree when no path is an array index. *)
Theorem createZipAsync_agrees_with_createZipStream (now : Z) (files : list File)
  (renameMap : FileMap RenameResult) (options : ZipOptions) :
  includeMetadata options <> Some true ->
  NoDup (streamPaths (createZipStream now files renameMap options)) ->
  ~ In "__proto__" (streamPaths (createZipStream now files renameMap options)) ->
  enumerate (zipInput (createZipAsync now files renameMap options))
  = asFound (List.map asEntry (createZipStream now files renameMap options))
  /\ (Forall (fun path => arrayIndex path = None)
        (streamPaths (createZipStream now files renameMap options)) ->
      enumerate (zipInput (createZipAsync now files renameMap options))
      = List.map (fun a => (fst (asEntry a), ArrayValue (snd (asEntry a))))
          (createZipStream now files renameMap options)).
Proof.
  intros Hoff Hnd Hproto.
  assert (Hfound : enumerate (zipInput (createZipAsync now files renameMap options))
                   = asFound (List.map asEntry
                                (createZipStream now files renameMap options))).
  { rewrite createZipAsync_unfold. cbv zeta.
    unfold createZipStream in *. fold (levelOf options) in *. fold (folderOf options) in *.
    rewrite (createZipAsync_loop_stream _ _ _ _ _ Hnd Hproto).
    destruct (includeMetadata options) as [[|]|]; [contradiction | |];
      unfold enumerate, asFound; cbn [ownProperties prototypeArray]; apply app_nil_r. }
  split; [exact Hfound|].
  intros Hplain. rewrite Hfound. unfold asFound.
  rewrite objectOrder_plain; [now rewrite map_map|].
  unfold streamPaths in Hplain. rewrite Forall_map in Hplain. rewrite Forall_map.
  exact Hplain.
Qed.

Definition sampleFolderOptions : ZipOptions :=
  {| compressionLevel := Some 9%Z; includeMetadata := None; folderName := Some "trip" |}.

Lemma createZipAsync_agrees_with_createZipStream_witness :
  enumerate
    (zipInput (createZipAsync 5 [samplePhoto; sampleNotes] sampleRenameMap
                 sampleFolderOptions))
  = asFound
      (List.map asEntry
         (createZipStream 5 [samplePhoto; sampleNotes] sampleRenameMap sampleFolderOptions)).
Proof.
  assert (Hoff : includeMetadata sampleFolderOptions <> Some true) by discriminate.
  assert (Hnd : NoDup (streamPaths (createZipStream 5 [samplePhoto; sampleNotes]
                                      sampleRenameMap sampleFolderOptions))).
  { vm_compute. repeat constructor; simpl; intuition discriminate. }
  assert (Hproto : ~ In "__proto__"
                       (streamPaths (createZipStream 5 [samplePhoto; sampleNotes]
                                       sampleRenameMap sampleFolderOptions))).
  { vm_compute. intuition discriminate. }
  exact (proj1 (createZipAsync_agrees_with_createZipStream 5 [samplePhoto; sampleNotes]
                  sampleRenameMap sampleFolderOptions Hoff Hnd Hproto)).
Defined.

(** Two files with the same new name: the request keeps one entry, the
    second file's, while two streams are added. *)
Example createZipAsync_same_name :
  let renameMap :=
    [ (sampleFirst, {| filename := "shot.jpg"; success := true; warnings := None |});
      (sampleSecond, {| filename := "shot.jpg"; success := true; warnings := None |}) ] in
  enumerate
    (zipInput (createZipAsync 5 [sampleFirst; sampleSecond] renameMap sampleFolderOptions))
  = [("trip/shot.jpg", ArrayValue (fileEntry 5 9 sampleSecond))]
  /\ streamPaths (createZipStream 5 [sampleFirst; sampleSecond] renameMap sampleFolderOptions)
     = ["trip/shot.jpg"; "trip/shot.jpg"].
Proof. vm_compute. split; reflexivity. Qed.

(** Two files named [10] and [9], in that order: the streaming assembler
    adds them as they come, the request object lists [9] first. *)
Example createZipAsync_index_order :
  let renameMap :=
    [ (sampleFirst, {| filename := "10"; success := true; warnings := None |});
      (sampleSecond, {| filename := "9"; success := true; warnings := None |}) ] in
  List.map fst
    (enumerate
       (zipInput (createZipAsync 5 [sampleFirst; sampleSecond] renameMap
                    sampleStoreOptions)))
  = ["9"; "10"]
  /\ streamPaths (createZipStream 5 [sampleFirst; sampleSecond] renameMap sampleStoreOptions)
     = ["10"; "9"].
Proof. vm_compute. split; reflexivity. Qed.

(** ** From the batch to the archive *)

Lemma Map_get_In {V : Type} (m : FileMap V) (file : File) (value : V) :
  NoDup (List.map fst m) -> In (file, value) m -> Map_get m file = Some value.
Proof.
  induction m as [|[k v] m IH]; cbn; [intros _ []|].
  intros Hnd. inversion Hnd as [|? ? Hk Hnd']; subst.
  intros [[= -> ->] | Hin].
  - now rewrite (proj2 (sameFile_eq file file) eq_refl).
  - destruct (sameFile k file) eqn:E; [|now apply IH].
    apply sameFile_eq in E. subst k. exfalso. apply Hk.
    now apply (in_map fst) in Hin.
Qed.

Lemma entryPath_inj (folderName a b : string) :
  entryPath folderName a = entryPath folderName b -> a = b.
Proof.
  unfold entryPath. destruct (JS.truthyString folderName); [|auto].
  intros E. apply append_inv_head in E. now injection E.
Qed.

(** The request for a rename map with distinct keys and distinct names,
    none of which makes the path [__proto__], packed in the order of its
    keys. *)
Lemma createZipAsync_loop_map (now : Z) (compressionLevel : Z) (folderName : string)
  (renameMap : FileMap RenameResult) :
  NoDup (List.map fst renameMap) -> NoDup (filenames renameMap) ->
  Forall (fun e => entryPath folderName (filename (snd e)) <> "__proto__") renameMap ->
  forall done rest : FileMap RenameResult,
    renameMap = (done ++ rest)%list ->
    fold_left (createZipAsync_step now renameMap compressionLevel folderName)
      (List.map fst rest)
      {| ownProperties :=
           List.map (fun e => (entryPath folderName (filename (snd e)),
                               fileEntry now compressionLevel (fst e))) done;
         prototypeArray := None |}
    = {| ownProperties :=
           List.map (fun e => (entryPath folderName (filename (snd e)),
                               fileEntry now compressionLevel (fst e))) renameMap;
         prototypeArray := None |}.
Proof.
  intros Hkeys Hnames Hplain done rest; revert done.
  induction rest as [|[file result] rest IH]; intros done Hsplit; cbn [List.map fold_left].
  - now rewrite Hsplit, app_nil_r.
  - assert (Hin : In (file, result) renameMap).
    { rewrite Hsplit. apply in_or_app. right. now left. }
    assert (Hget : Map_get renameMap file = Some result) by now apply Map_get_In.
    assert (Hne : entryPath folderName (filename result) <> "__proto__").
    { rewrite Forall_forall in Hplain. exact (Hplain _ Hin). }
    rewrite (createZipAsync_step_found _ _ _ _ _ _ _ Hget).
    rewrite (ZipInput_set_ordinary _ _ _ Hne). cbn [ownProperties prototypeArray].
    rewrite setOwn_fresh.
    + specialize (IH (done ++ [(file, result)])%list).
      rewrite map_app in IH. cbn [List.map fst snd] in IH. apply IH.
      now rewrite <- app_assoc.
    + rewrite map_map. cbn [fst]. intros Hin'. apply in_map_iff in Hin'.
      destruct Hin' as ([f r] & Heq & Hin'). cbn [snd] in Heq. apply entryPath_inj in Heq.
      unfold filenames in Hnames. rewrite Hsplit, map_app in Hnames.
      cbn [List.map snd] in Hnames.
      apply NoDup_remove_2 in Hnames. apply Hnames. apply in_or_app. left.
      rewrite <- Heq. exact (in_map (fun e => filename (snd e)) done (f, r) Hin').
Qed.

(** No name that [batchRename] stores makes the path [__proto__]. *)
Lemma ofZ_head (n : Z) :
  exists c s, JS.ofZ n = String c s /\ (JS.isDigit c || Ascii.eqb c "-") = true.
Proof.
  unfold JS.ofZ. destruct (to_int_not_nil n) as [Hpos Hneg].
  destruct (Z.to_int n) as [d|d]; cbn [NilZero.string_of_int].
  - destruct d; try (now contradiction Hpos); cbn; eexists; eexists;
      (split; [reflexivity | reflexivity]).
  - eexists; eexists. split; reflexivity.
Qed.

Definition ordinaryPath (name : string) : Prop :=
  forall folderName, entryPath folderName name <> "__proto__".

Lemma ordinaryPath_of (name : string) :
  name <> "__proto__" -> ordinaryPath name.
Proof.
  intros Hname folderName. unfold entryPath.
  destruct (JS.truthyString folderName); [|exact Hname].
  intros E. apply (f_equal (JS.forallb (fun c => negb (Ascii.eqb c "/")))) in E.
  rewrite !forallb_append in E. cbn in E.
  rewrite andb_false_r in E. discriminate E.
Qed.

Lemma with_dot_ordinary (a b : string) : ordinaryPath (a ++ "." ++ b).
Proof.
  apply ordinaryPath_of. intros E.
  apply (f_equal (JS.forallb (fun c => negb (Ascii.eqb c ".")))) in E.
  rewrite !forallb_append in E. cbn in E.
  rewrite andb_false_r in E. discriminate E.
Qed.

Section BatchToArchive.

Context {engine : JS.Engine}.

Lemma generateFilename_ordinary (now : Date) (template : string)
  (exifData : option ExifData) (originalFilename : string) (options : RenameOptions) :
  ordinaryPath (filename (generateFilename now template exifData originalFilename options)).
Proof.
  rewrite generateFilename_filename. cbv zeta.
  destruct (_ && _); [apply with_dot_ordinary|].
  apply ordinaryPath_of. intros E.
  destruct (sanitizeForFilename_clean
              (Some (substitutedName now template exifData originalFilename options)))
    as [_ Hclean].
  rewrite E in Hclean. vm_compute in Hclean. discriminate Hclean.
Qed.

Lemma resolveFilenameConflict_ordinary (result resolved : RenameResult)
  (used : StringSet) :
  resolveFilenameConflict result used = Some resolved ->
  ordinaryPath (filename resolved).
Proof.
  intros Hres.
  destruct (resolveFilenameConflict_spec result used) as (k & Hspec & _).
  cbv zeta in Hspec. set (n := (1 + Z.of_nat k)%Z) in Hspec. clearbody n.
  rewrite Hspec in Hres. injection Hres as <-. cbn [filename].
  unfold candidate. destruct (JS.truthyString _).
  - rewrite <- (append_assoc _ ("_" ++ JS.ofZ n) ("." ++ _)).
    apply with_dot_ordinary.
  - apply ordinaryPath_of. intros E.
    destruct (ofZ_head n) as (c & s & Hofz & Hc).
    apply (f_equal (JS.forallb (fun c => negb (JS.isDigit c || Ascii.eqb c "-")))) in E.
    rewrite !forallb_append, Hofz in E. cbn [JS.forallb] in E.
    rewrite Hc in E. cbn [negb andb] in E.
    rewrite !andb_false_r in E. vm_compute in E. discriminate E.
Qed.

Lemma batchRename_forEach_ordinary (clock : nat -> Date) (template : string)
  (exifDataMap : list (string * option ExifData)) (options : RenameOptions)
  (files : list File) (index : nat) (state final : BatchState) :
  Forall (fun entry => ordinaryPath (filename (snd entry))) (results state) ->
  batchRename_forEach clock template exifDataMap options files index state = Some final ->
  Forall (fun entry => ordinaryPath (filename (snd entry))) (results final).
Proof.
  revert index state; induction files as [|file files IH]; intros index state Hstate;
    cbn [batchRename_forEach].
  - now intros [= <-].
  - destruct (batchRename_callback_spec (clock index) template exifDataMap options
                file index state) as (stored & Hstep & _ & Hstored).
    rewrite Hstep. apply IH. cbn [results].
    apply Map_set_Forall; [|exact Hstate]. intros k. cbn [snd].
    destruct Hstored as [[_ ->] | [_ Hres]].
    + apply generateFilename_ordinary.
    + eapply resolveFilenameConflict_ordinary; exact Hres.
Qed.

(** X19.  Packing what [batchRename] returns for distinct files, without
    the manifest, loses no file: the archive library finds one array per
    file, under the path made from the file's new name and holding that
    file's bytes, and nothing else.  It finds them in the object's order:
    the paths that are array indices first, in ascending order, then the
    others in the order of the files. *)
Theorem batchRename_then_createZipAsync (clock : nat -> Date) (files : list File)
  (template : string) (exifDataMap : list (string * option ExifData))
  (renameOptions : RenameOptions) (now : Z) (zipOptions : ZipOptions) :
  NoDup files ->
  includeMetadata zipOptions <> Some true ->
  exists renamed,
    batchRename clock files template exifDataMap renameOptions = Some renamed
    /\ List.map fst renamed = files
    /\ enumerate (zipInput (createZipAsync now files renamed zipOptions))
       = asFound
           (List.map (fun e => (entryPath (folderOf zipOptions) (filename (snd e)),
                                fileEntry now (levelOf zipOptions) (fst e))) renamed)
    /\ List.length (enumerate (zipInput (createZipAsync now files renamed zipOptions)))
       = List.length files.
Proof.
  intros Hnd Hoff.
  destruct (batchRename_forEach_invariant clock template exifDataMap renameOptions files 0
              {| results := []; usedFilenames := [] |})
    as (final & Hrun & _ & Hnames); [split; [intros x [] | constructor]|].
  pose proof (batchRename_forEach_keys _ _ _ _ _ _ _ _ Hrun) as Hkeys.
  cbn [results List.map] in Hkeys.
  rewrite (fold_addKey_distinct files [] Hnd) in Hkeys. cbn [app] in Hkeys.
  assert (Hplain : Forall (fun e => entryPath (folderOf zipOptions) (filename (snd e))
                                    <> "__proto__") (results final)).
  { eapply Forall_impl; [|eapply batchRename_forEach_ordinary; [|exact Hrun]; constructor].
    intros e He. apply He. }
  unfold batchRename. rewrite Hrun. exists (results final).
  split; [reflexivity|]. split; [exact Hkeys|].
  assert (Hfound : enumerate (zipInput (createZipAsync now files (results final) zipOptions))
                   = asFound
                       (List.map (fun e => (entryPath (folderOf zipOptions)
                                              (filename (snd e)),
                                            fileEntry now (levelOf zipOptions) (fst e)))
                          (results final))).
  { rewrite createZipAsync_unfold. cbv zeta.
    assert (Hloop := createZipAsync_loop_map now (levelOf zipOptions) (folderOf zipOptions)
                       (results final)).
    rewrite Hkeys in Hloop. specialize (Hloop Hnd Hnames Hplain [] (results final) eq_refl).
    cbn [List.map] in Hloop. rewrite Hkeys in Hloop. fold emptyObject in Hloop.
    rewrite Hloop.
    destruct (includeMetadata zipOptions) as [[|]|]; [contradiction | |];
      unfold enumerate, asFound; cbn [ownProperties prototypeArray]; apply app_nil_r. }
  split; [exact Hfound|].
  rewrite Hfound. unfold asFound.
  rewrite length_map, (Permutation_length (objectOrder_perm _)), length_map.
  rewrite <- Hkeys. now rewrite length_map.
Qed.

End BatchToArchive.

Lemma batchRename_then_createZipAsync_witness :
  exists renamed,
    batchRename (engine := sampleEngine) (fun _ => sampleDate) [sampleFirst; sampleSecond]
      "shot" [] noOptions = Some renamed
    /\ List.map fst renamed = [sampleFirst; sampleSecond]
    /\ enumerate
         (zipInput (createZipAsync 5 [sampleFirst; sampleSecond] renamed sampleFolderOptions))
       = asFound
           (List.map (fun e => (entryPath (folderOf sampleFolderOptions) (filename (snd e)),
                                fileEntry 5 (levelOf sampleFolderOptions) (fst e))) renamed)
    /\ List.length
         (enumerate
            (zipInput (createZipAsync 5 [sampleFirst; sampleSecond] renamed
                         sampleFolderOptions)))
       = 2.
Proof.
  apply (batchRename_then_createZipAsync (engine := sampleEngine) (fun _ => sampleDate)
           [sampleFirst; sampleSecond] "shot" [] noOptions 5 sampleFolderOptions).
  - repeat constructor; simpl; intuition discriminate.
  - discriminate.
Defined.
